(** * WebSocket runtime of the Next.js fork: a shallow embedding

    The development follows the files of
    [packages/next/src/server/websocket]: the error taxonomy ([errors.ts]),
    the per-route circuit breaker ([circuit-breaker.ts]), the sliding-window
    rate limiter ([rate-limiter.ts]), the connection tracker
    ([connection-tracker.ts]), the connection pool ([performance.ts]), the
    route handler cache ([route-handler.ts]), the route resolver
    ([route-resolver.ts]) and the upgrade orchestrator ([setup.ts]).

    Conventions.  JavaScript numbers that hold counters and millisecond
    clock readings are integers ([Z]).  Every call of [Date.now()] is an
    explicit argument of the function that makes it.  A [Map] is a [gmap],
    a [Set] or [WeakSet] a [gset]; objects compared by identity (sockets,
    servers, user functions) are represented by a name ([nat]).  Mutable
    objects become explicit state that each method takes and returns. *)

From Stdlib Require Import ZArith Bool.
From stdpp Require Import base tactics option list gmap strings.

Local Open Scope string_scope.
Local Open Scope list_scope.
Local Open Scope Z_scope.

(** ** errors.ts *)
Module Errors.

(** [WebSocketError]: an [Error] carrying a stable code and an advisory
    HTTP status. *)
Record WebSocketError := mkWebSocketError {
  message : string;
  code : string;
  statusCode : option Z
}.

(** What a [catch] clause or an error listener may receive ([unknown]):
    an instance of [WebSocketError] (or of one of its subclasses), another
    [Error], or a value that is no [Error] at all. *)
Inductive Thrown :=
| WsError (e : WebSocketError)
| PlainError (msg : string)
| NonError (shown : string).

Definition RouteNotFoundError (path : string) : Thrown :=
  WsError (mkWebSocketError ("WebSocket route not found: " +:+ path)
                            "ROUTE_NOT_FOUND" (Some 404)).

Definition HandlerNotFoundError (path : string) : Thrown :=
  WsError (mkWebSocketError ("SOCKET handler not exported in route: " +:+ path)
                            "HANDLER_NOT_FOUND" (Some 400)).

Definition ModuleImportError (path : string) : Thrown :=
  WsError (mkWebSocketError ("Failed to import WebSocket route module: " +:+ path)
                            "MODULE_IMPORT_ERROR" (Some 500)).

Definition ServerNotAvailableError (reason : string) : Thrown :=
  WsError (mkWebSocketError ("WebSocket server not available: " +:+ reason)
                            "SERVER_NOT_AVAILABLE" (Some 503)).

(** The limit is interpolated into the message; [shown] is its rendering. *)
Definition ConnectionLimitError (shown : string) : Thrown :=
  WsError (mkWebSocketError
             ("Maximum number of WebSocket connections reached: " +:+ shown)
             "CONNECTION_LIMIT_EXCEEDED" (Some 429)).

Definition HandlerExecutionError (path originalMessage : string) : Thrown :=
  WsError (mkWebSocketError
             ("Error executing WebSocket handler for " +:+ path +:+ ": "
                +:+ originalMessage)
             "HANDLER_EXECUTION_ERROR" (Some 500)).

Definition isWebSocketError (error : Thrown) : bool :=
  match error with WsError _ => true | _ => false end.

Definition getErrorStatusCode (error : Thrown) : Z :=
  match error with
  | WsError e =>
      match statusCode e with
      | Some s => if s =? 0 then 500 else s
      | None => 500
      end
  | _ => 500
  end.

Inductive RecoveryStrategy :=
| CLOSE_CONNECTION
| TERMINATE_CONNECTION
| RETRY
| IGNORE.

(** The [switch] on [error.code], case by case. *)
Definition getRecoveryStrategy (error : Thrown) : RecoveryStrategy :=
  match error with
  | WsError e =>
      let c := code e in
      if String.eqb c "ROUTE_NOT_FOUND" || String.eqb c "HANDLER_NOT_FOUND"
      then CLOSE_CONNECTION
      else if String.eqb c "MODULE_IMPORT_ERROR"
              || String.eqb c "HANDLER_EXECUTION_ERROR"
      then TERMINATE_CONNECTION
      else if String.eqb c "SERVER_NOT_AVAILABLE" then CLOSE_CONNECTION
      else if String.eqb c "CONNECTION_LIMIT_EXCEEDED" then CLOSE_CONNECTION
      else TERMINATE_CONNECTION
  | _ => TERMINATE_CONNECTION
  end.

(** The codes that ask for an orderly close. *)
Definition closingCodes : list string :=
  ["ROUTE_NOT_FOUND"; "HANDLER_NOT_FOUND"; "SERVER_NOT_AVAILABLE";
   "CONNECTION_LIMIT_EXCEEDED"].

End Errors.

(** ** circuit-breaker.ts (kept after route-resolver.ts in the sources) *)
Module CircuitBreaker.

Inductive CircuitState := CLOSED | OPEN | HALF_OPEN.

Record CircuitBreakerConfig := mkConfig {
  failureThreshold : Z;
  resetTimeout : Z;
  monitoringWindow : Z;
  successThreshold : Z
}.

Record RouteCircuitBreaker := mkBreaker {
  routePath : string;
  config : CircuitBreakerConfig;
  state : CircuitState;
  currentFailures : Z;
  totalFailures : Z;
  totalSuccesses : Z;
  lastFailureTime : option Z;
  lastSuccessTime : option Z;
  totalRequests : Z;
  failureWindow : list Z;
  consecutiveSuccessesInHalfOpen : Z
}.

(** [new RouteCircuitBreaker(routePath, config)]. *)
Definition create (path : string) (cfg : CircuitBreakerConfig)
  : RouteCircuitBreaker :=
  mkBreaker path cfg CLOSED 0 0 0 None None 0 [] 0.

Definition set_state (s : CircuitState) (b : RouteCircuitBreaker) :=
  mkBreaker (routePath b) (config b) s (currentFailures b) (totalFailures b)
    (totalSuccesses b) (lastFailureTime b) (lastSuccessTime b)
    (totalRequests b) (failureWindow b) (consecutiveSuccessesInHalfOpen b).

Definition set_currentFailures (n : Z) (b : RouteCircuitBreaker) :=
  mkBreaker (routePath b) (config b) (state b) n (totalFailures b)
    (totalSuccesses b) (lastFailureTime b) (lastSuccessTime b)
    (totalRequests b) (failureWindow b) (consecutiveSuccessesInHalfOpen b).

Definition set_failureWindow (l : list Z) (b : RouteCircuitBreaker) :=
  mkBreaker (routePath b) (config b) (state b) (currentFailures b)
    (totalFailures b) (totalSuccesses b) (lastFailureTime b)
    (lastSuccessTime b) (totalRequests b) l
    (consecutiveSuccessesInHalfOpen b).

Definition set_consecutive (n : Z) (b : RouteCircuitBreaker) :=
  mkBreaker (routePath b) (config b) (state b) (currentFailures b)
    (totalFailures b) (totalSuccesses b) (lastFailureTime b)
    (lastSuccessTime b) (totalRequests b) (failureWindow b) n.

(** The timestamps of the window that are newer than [cutoff]. *)
Definition newerThan (cutoff : Z) (times : list Z) : list Z :=
  filter (fun time => cutoff < time) times.

(** [cleanupOldFailures]: prune the window and recount. *)
Definition cleanupOldFailures (now : Z) (b : RouteCircuitBreaker)
  : RouteCircuitBreaker :=
  let cutoff := now - monitoringWindow (config b) in
  let kept := newerThan cutoff (failureWindow b) in
  set_currentFailures (Z.of_nat (length kept)) (set_failureWindow kept b).

(** [shouldAttemptReset]: [!this.lastFailureTime] holds for [null] and for
    the number zero. *)
Definition shouldAttemptReset (now : Z) (b : RouteCircuitBreaker) : bool :=
  match lastFailureTime b with
  | None => false
  | Some t => if t =? 0 then false else resetTimeout (config b) <=? now - t
  end.

Definition openCircuit (b : RouteCircuitBreaker) : RouteCircuitBreaker :=
  set_state OPEN b.

Definition reset (b : RouteCircuitBreaker) : RouteCircuitBreaker :=
  set_failureWindow []
    (set_consecutive 0 (set_currentFailures 0 (set_state CLOSED b))).

Definition canExecute (now : Z) (b : RouteCircuitBreaker)
  : bool * RouteCircuitBreaker :=
  let b := cleanupOldFailures now b in
  match state b with
  | CLOSED => (true, b)
  | OPEN =>
      if shouldAttemptReset now b
      then (true, set_consecutive 0 (set_state HALF_OPEN b))
      else (false, b)
  | HALF_OPEN => (true, b)
  end.

Definition recordSuccess (now : Z) (b : RouteCircuitBreaker)
  : RouteCircuitBreaker :=
  let b :=
    mkBreaker (routePath b) (config b) (state b) (currentFailures b)
      (totalFailures b) (totalSuccesses b + 1) (lastFailureTime b)
      (Some now) (totalRequests b + 1) (failureWindow b)
      (consecutiveSuccessesInHalfOpen b) in
  match state b with
  | HALF_OPEN =>
      let b := set_consecutive (consecutiveSuccessesInHalfOpen b + 1) b in
      if successThreshold (config b) <=? consecutiveSuccessesInHalfOpen b
      then reset b else b
  | CLOSED => set_currentFailures (Z.max 0 (currentFailures b - 1)) b
  | OPEN => b
  end.

(** [recordFailure] reads the clock twice: [now] stamps the failure, and
    [now'] is the reading taken inside [cleanupOldFailures]. *)
Definition recordFailure (now now' : Z) (b : RouteCircuitBreaker)
  : RouteCircuitBreaker :=
  let b :=
    mkBreaker (routePath b) (config b) (state b) (currentFailures b + 1)
      (totalFailures b + 1) (totalSuccesses b) (Some now)
      (lastSuccessTime b) (totalRequests b + 1) (failureWindow b ++ [now])
      (consecutiveSuccessesInHalfOpen b) in
  let b := cleanupOldFailures now' b in
  match state b with
  | CLOSED =>
      if failureThreshold (config b) <=? currentFailures b
      then openCircuit b else b
  | HALF_OPEN => openCircuit b
  | OPEN => b
  end.

(** The calls a breaker receives during its life, each with the clock
    readings it takes. *)
Inductive Call :=
| CallCanExecute (now : Z)
| CallRecordSuccess (now : Z)
| CallRecordFailure (now now' : Z)
| CallReset.

Definition perform (b : RouteCircuitBreaker) (c : Call) : RouteCircuitBreaker :=
  match c with
  | CallCanExecute now => snd (canExecute now b)
  | CallRecordSuccess now => recordSuccess now b
  | CallRecordFailure now now' => recordFailure now now' b
  | CallReset => reset b
  end.

Definition history (calls : list Call) (b : RouteCircuitBreaker)
  : RouteCircuitBreaker :=
  fold_left perform calls b.

(** Every failure is stamped with a clock reading other than zero, as
    [Date.now()] gives on a running host. *)
Definition stampedCall (c : Call) : Prop :=
  match c with
  | CallRecordFailure now _ => now <> 0
  | _ => True
  end.

(** A breaker that is OPEN has a recorded failure time, and a recorded
    failure time is not zero. *)
Definition stamped (b : RouteCircuitBreaker) : Prop :=
  match lastFailureTime b with
  | None => state b <> OPEN
  | Some t => t <> 0
  end.

(** The window after a failure stamped [now] and pruned at [now']. *)
Definition windowAfterFailure (now now' : Z) (b : RouteCircuitBreaker) : list Z :=
  newerThan (now' - monitoringWindow (config b)) (failureWindow b ++ [now]).

End CircuitBreaker.

(** ** rate-limiter.ts *)
Module RateLimiter.

Record RateLimitConfig := mkRateLimitConfig {
  windowMs : Z;
  maxRequests : Z
}.

Record RateLimitInfo := mkRateLimitInfo {
  limit : Z;
  current : Z;
  remaining : Z;
  resetTime : Z
}.

(** [requests] maps a client key (the result of [generateKey]) to the
    timestamps recorded for it, oldest first. *)
Record WebSocketRateLimiter := mkLimiter {
  config : RateLimitConfig;
  requests : gmap string (list Z)
}.

Definition create (cfg : RateLimitConfig) : WebSocketRateLimiter :=
  mkLimiter cfg ∅.

(** [this.requests.get(key) || []]. *)
Definition recorded (key : string) (l : WebSocketRateLimiter) : list Z :=
  default [] (requests l !! key).

(** [requestTimes.filter((time) => time > windowStart)]. *)
Definition insideWindow (windowStart : Z) (requestTimes : list Z) : list Z :=
  filter (fun time => windowStart < time) requestTimes.

(** [isAllowed], for the key that [generateKey(req, socket)] returned and
    the reading [now] of the clock. *)
Definition isAllowed (key : string) (now : Z) (l : WebSocketRateLimiter)
  : (bool * RateLimitInfo) * WebSocketRateLimiter :=
  let cfg := config l in
  let windowStart := now - windowMs cfg in
  let requestTimes := insideWindow windowStart (recorded key l) in
  let current := Z.of_nat (length requestTimes) in
  let allowed := current <? maxRequests cfg in
  let info :=
    mkRateLimitInfo (maxRequests cfg) current
      (Z.max 0 (maxRequests cfg - current))
      (match requestTimes with
       | oldest :: _ => oldest + windowMs cfg
       | [] => now + windowMs cfg
       end) in
  if allowed
  then ((true,
         mkRateLimitInfo (limit info) (current + 1)
           (Z.max 0 (remaining info - 1)) (resetTime info)),
        mkLimiter cfg (<[key := requestTimes ++ [now]]> (requests l)))
  else ((false, info), mkLimiter cfg (<[key := requestTimes]> (requests l))).

(** The sweep that runs every minute: prune every key, drop empty ones. *)
Definition cleanup (now : Z) (l : WebSocketRateLimiter) : WebSocketRateLimiter :=
  let cutoff := now - windowMs (config l) in
  mkLimiter (config l)
    (omap (fun requestTimes =>
             match insideWindow cutoff requestTimes with
             | [] => None
             | filtered => Some filtered
             end) (requests l)).

(** The check as the specification words it: only timestamps older than
    [now - windowMs] are dropped, so one that equals [now - windowMs] still
    counts. *)
Definition notOlderThan (windowStart : Z) (requestTimes : list Z) : list Z :=
  filter (fun time => windowStart <= time) requestTimes.

Definition isAllowedDroppingOlder (key : string) (now : Z)
    (l : WebSocketRateLimiter) : bool * WebSocketRateLimiter :=
  let cfg := config l in
  let requestTimes := notOlderThan (now - windowMs cfg) (recorded key l) in
  if Z.of_nat (length requestTimes) <? maxRequests cfg
  then (true, mkLimiter cfg (<[key := requestTimes ++ [now]]> (requests l)))
  else (false, mkLimiter cfg (<[key := requestTimes]> (requests l))).

(** What happens to one limiter over time. *)
Inductive Event :=
| Check (key : string) (now : Z)
| Sweep (now : Z).

Definition eventTime (e : Event) : Z :=
  match e with Check _ now => now | Sweep now => now end.

(** The limiter together with the log of admitted requests, oldest first. *)
Definition Run : Type := WebSocketRateLimiter * list (string * Z).

Definition step (r : Run) (e : Event) : Run :=
  match e with
  | Check key now =>
      let '((allowed, _), l) := isAllowed key now (fst r) in
      (l, if allowed then snd r ++ [(key, now)] else snd r)
  | Sweep now => (cleanup now (fst r), snd r)
  end.

Definition run (events : list Event) (cfg : RateLimitConfig) : Run :=
  fold_left step events (create cfg, []).

(** The admission times of one key. *)
Definition admittedFor (key : string) (log : list (string * Z)) : list Z :=
  map snd (filter (fun entry => fst entry = key) log).

(** The clock never runs backwards: every reading is at least [clock], and
    at least every earlier reading. *)
Fixpoint monotoneFrom (clock : Z) (events : list Event) : Prop :=
  match events with
  | [] => True
  | e :: rest => clock <= eventTime e /\ monotoneFrom (eventTime e) rest
  end.

Definition monotone (events : list Event) : Prop :=
  match events with
  | [] => True
  | e :: rest => monotoneFrom (eventTime e) rest
  end.

(** The timestamps in the half-open window [(t - windowMs, t]] and in the
    closed window [[t - windowMs, t]]. *)
Definition inHalfOpenWindow (w t : Z) (times : list Z) : list Z :=
  filter (fun a => t - w < a /\ a <= t) times.

Definition inClosedWindow (w t : Z) (times : list Z) : list Z :=
  filter (fun a => t - w <= a /\ a <= t) times.

(** At clock reading [clock]: the limiter still holds every admission newer
    than [clock - windowMs], and no half-open window of length [windowMs]
    holds more than [maxRequests] admissions. *)
Definition invariant (cfg : RateLimitConfig) (clock : Z) (r : Run) : Prop :=
  config (fst r) = cfg /\
  forall k,
    insideWindow (clock - windowMs cfg) (recorded k (fst r))
    = insideWindow (clock - windowMs cfg) (admittedFor k (snd r)) /\
    forall t,
      Z.of_nat (length (inHalfOpenWindow (windowMs cfg) t (admittedFor k (snd r))))
      <= Z.max 0 (maxRequests cfg).

(** Route-based manager: one limiter per route path, created on first use
    with the configuration of that first request. *)
Definition getLimiter (routePath : string) (cfg : RateLimitConfig)
    (limiters : gmap string WebSocketRateLimiter)
  : WebSocketRateLimiter * gmap string WebSocketRateLimiter :=
  match limiters !! routePath with
  | Some l => (l, limiters)
  | None => (create cfg, <[routePath := create cfg]> limiters)
  end.

Definition checkRateLimit (routePath : string) (rateLimit : option RateLimitConfig)
    (key : string) (now : Z) (limiters : gmap string WebSocketRateLimiter)
  : bool * gmap string WebSocketRateLimiter :=
  match rateLimit with
  | None => (true, limiters)
  | Some cfg =>
      let '(l, limiters) := getLimiter routePath cfg limiters in
      let '((allowed, _), l) := isAllowed key now l in
      (allowed, <[routePath := l]> limiters)
  end.

End RateLimiter.

(** ** connection-tracker.ts *)
Module Tracker.

(** A raw TCP socket: its identity and what [socket.remoteAddress] reads. *)
Record NetSocket := mkSocket {
  socketId : nat;
  remoteAddress : option string
}.

Record ConnectionTracker := mkTracker {
  activeUpgrades : gset nat;
  recentUpgrades : gmap string Z;
  cleanedUpConnections : gset string
}.

Definition create : ConnectionTracker := mkTracker ∅ ∅ ∅.

(** The template literal [`${url}:${socket.remoteAddress}`]. *)
Definition requestKey (url : string) (socket : NetSocket) : string :=
  url +:+ ":" +:+ default "undefined" (remoteAddress socket).

(** [isRapidDuplicate]; [lastRequest &&] fails for a missing entry and for
    the number zero. *)
Definition isRapidDuplicate (url : string) (socket : NetSocket) (windowMs : Z)
    (now : Z) (t : ConnectionTracker) : bool * ConnectionTracker :=
  let key := requestKey url socket in
  let record :=
    mkTracker (activeUpgrades t) (<[key := now]> (recentUpgrades t))
      (cleanedUpConnections t) in
  match recentUpgrades t !! key with
  | Some lastRequest =>
      if negb (lastRequest =? 0) && (now - lastRequest <? windowMs)
      then (true, t) else (false, record)
  | None => (false, record)
  end.

Definition defaultWindowMs : Z := 1000.

Definition isSocketActive (socket : NetSocket) (t : ConnectionTracker) : bool :=
  bool_decide (socketId socket ∈ activeUpgrades t).

(** [markSocketActive] also arms one-shot close and error listeners on the
    socket; they are the [socketClosed] transition of the orchestrator. *)
Definition markSocketActive (socket : NetSocket) (t : ConnectionTracker)
  : ConnectionTracker :=
  mkTracker ({[socketId socket]} ∪ activeUpgrades t) (recentUpgrades t)
    (cleanedUpConnections t).

Definition markSocketInactive (socket : NetSocket) (t : ConnectionTracker)
  : ConnectionTracker :=
  mkTracker (activeUpgrades t ∖ {[socketId socket]}) (recentUpgrades t)
    (cleanedUpConnections t).

Definition isConnectionCleanedUp (connectionId : string) (t : ConnectionTracker)
  : bool :=
  bool_decide (connectionId ∈ cleanedUpConnections t).

(** [markConnectionCleanedUp] adds the id and arms a 30 s timer whose
    expiry is [forgetCleanedUp]. *)
Definition markConnectionCleanedUp (connectionId : string)
    (t : ConnectionTracker) : ConnectionTracker :=
  mkTracker (activeUpgrades t) (recentUpgrades t)
    ({[connectionId]} ∪ cleanedUpConnections t).

Definition forgetCleanedUp (connectionId : string) (t : ConnectionTracker)
  : ConnectionTracker :=
  mkTracker (activeUpgrades t) (recentUpgrades t)
    (cleanedUpConnections t ∖ {[connectionId]}).

(** [cleanupRecentUpgrades]: entries older than ten seconds go. *)
Definition cleanupRecentUpgrades (now : Z) (t : ConnectionTracker)
  : ConnectionTracker :=
  mkTracker (activeUpgrades t)
    (filter (fun entry => ¬ (10000 < now - snd entry)) (recentUpgrades t))
    (cleanedUpConnections t).

(** What the rapid-duplicate map sees over time: checks (with the default
    or a given window) and the pruning that runs every five seconds. *)
Inductive TrackerEvent :=
| Seen (url : string) (socket : NetSocket) (now : Z)
| Pruned (now : Z).

Definition trackerEventTime (e : TrackerEvent) : Z :=
  match e with Seen _ _ now => now | Pruned now => now end.

(** The tracker with the log of the checks that were not duplicates (key and
    time, oldest first). *)
Definition trackerStep (windowMs : Z)
    (r : ConnectionTracker * list (string * Z)) (e : TrackerEvent)
  : ConnectionTracker * list (string * Z) :=
  match e with
  | Seen url socket now =>
      let '(duplicate, t) := isRapidDuplicate url socket windowMs now (fst r) in
      (t, if duplicate then snd r else snd r ++ [(requestKey url socket, now)])
  | Pruned now => (cleanupRecentUpgrades now (fst r), snd r)
  end.

Definition trackerRun (windowMs : Z) (events : list TrackerEvent)
  : ConnectionTracker * list (string * Z) :=
  fold_left (trackerStep windowMs) events (create, []).

Definition passedFor (key : string) (log : list (string * Z)) : list Z :=
  map snd (filter (fun entry => fst entry = key) log).

(** Clock readings are never zero and never decrease. *)
Fixpoint tickingFrom (clock : Z) (events : list TrackerEvent) : Prop :=
  match events with
  | [] => True
  | e :: rest =>
      clock <= trackerEventTime e /\ trackerEventTime e <> 0
      /\ tickingFrom (trackerEventTime e) rest
  end.

Definition ticking (events : list TrackerEvent) : Prop :=
  match events with
  | [] => True
  | e :: rest => tickingFrom (trackerEventTime e) (e :: rest)
  end.

(** Every later time of the list is at least [w] after every earlier one. *)
Fixpoint spaced (w : Z) (times : list Z) : Prop :=
  match times with
  | [] => True
  | a :: rest => Forall (fun b => w <= b - a) rest /\ spaced w rest
  end.

(** At clock reading [clock], for every key: the passed checks are spaced
    by the window; while the map holds an entry it is the latest passed
    time; and once the entry is pruned every passed time is more than ten
    seconds old. *)
Definition spacing (w clock : Z) (r : ConnectionTracker * list (string * Z))
  : Prop :=
  forall key,
    spaced w (passedFor key (snd r)) /\
    match recentUpgrades (fst r) !! key with
    | Some lastRequest =>
        lastRequest <> 0 /\ lastRequest <= clock /\
        Forall (fun a => a <= lastRequest) (passedFor key (snd r))
    | None => Forall (fun a => 10000 < clock - a) (passedFor key (snd r))
    end.

End Tracker.

(** ** performance.ts (kept after connection-tracker.ts): the connection pool *)
Module Pool.

Record ConnectionMetadata := mkMetadata {
  path : string;
  connectedAt : Z;
  lastActivity : Z;
  messageCount : Z;
  bytesReceived : Z;
  bytesSent : Z
}.

Record PerformanceMetrics := mkMetrics {
  messageRate : Z;
  connectionRate : Z;
  disconnectionRate : Z
}.

(** [connections] maps a connection id to the client socket (by name);
    [maxConnections] is an integer, as the configuration parser yields. *)
Record WebSocketConnectionPool := mkPool {
  maxConnections : Z;
  idleTimeout : Z;
  connections : gmap string nat;
  connectionMetadata : gmap string ConnectionMetadata;
  performanceMetrics : PerformanceMetrics
}.

Definition create (maxConnections idleTimeout : Z) : WebSocketConnectionPool :=
  mkPool maxConnections idleTimeout ∅ ∅ (mkMetrics 0 0 0).

(** [this.connections.size]. *)
Definition poolSize (p : WebSocketConnectionPool) : Z :=
  Z.of_nat (size (connections p)).

(** [addConnection]; [now] and [now'] are the clock readings stored as
    [connectedAt] and [lastActivity].  The message, close and error
    listeners that [setupConnectionHandlers] attaches to the client are
    transitions of the orchestrator. *)
Definition addConnection (id : string) (ws : nat) (path : string) (now now' : Z)
    (p : WebSocketConnectionPool) : bool * WebSocketConnectionPool :=
  if maxConnections p <=? poolSize p then (false, p)
  else
    let metadata := mkMetadata path now now' 0 0 0 in
    let metrics := performanceMetrics p in
    (true,
     mkPool (maxConnections p) (idleTimeout p)
       (<[id := ws]> (connections p))
       (<[id := metadata]> (connectionMetadata p))
       (mkMetrics (messageRate metrics) (connectionRate metrics + 1)
          (disconnectionRate metrics))).

Definition removeConnection (id : string) (p : WebSocketConnectionPool)
  : WebSocketConnectionPool :=
  match connections p !! id, connectionMetadata p !! id with
  | Some _, Some _ =>
      let metrics := performanceMetrics p in
      mkPool (maxConnections p) (idleTimeout p)
        (delete id (connections p))
        (delete id (connectionMetadata p))
        (mkMetrics (messageRate metrics) (connectionRate metrics)
           (disconnectionRate metrics + 1))
  | _, _ => p
  end.

Inductive PoolCall :=
| Add (id : string) (ws : nat) (path : string) (now now' : Z)
| Remove (id : string).

Definition perform (p : WebSocketConnectionPool) (c : PoolCall)
  : WebSocketConnectionPool :=
  match c with
  | Add id ws path now now' => snd (addConnection id ws path now now' p)
  | Remove id => removeConnection id p
  end.

Definition history (calls : list PoolCall) (p : WebSocketConnectionPool)
  : WebSocketConnectionPool :=
  fold_left perform calls p.

End Pool.

(** ** route-handler.ts: the connection-handler cache *)
Module RouteHandler.

(** The connection handler a factory returns is a user function, known by
    name. *)
Definition ConnectionHandler : Type := nat.

(** How one invocation of a route's factory (its [SOCKET] export) ends. *)
Inductive FactoryResult :=
| ReturnsHandler (h : ConnectionHandler)
| ReturnsNonFunction
| Throws.

(** A factory is user code and may answer differently each time: it is
    given the server handle and the number of its earlier invocations. *)
Definition SocketHandler : Type := nat -> nat -> FactoryResult.

(** The module-level cache, with the log of factory invocations (route path
    and result, oldest first). *)
Record HandlerCache := mkHandlerCache {
  connectionHandlerCache : gmap string ConnectionHandler;
  invocations : list (string * FactoryResult)
}.

Definition emptyCache : HandlerCache := mkHandlerCache ∅ [].

Definition invocationsOf (routePath : string) (c : HandlerCache)
  : list (string * FactoryResult) :=
  filter (fun entry => fst entry = routePath) (invocations c).



(** [getOrInitializeConnectionHandler]; the [routeConfig] argument of the
    source is not read by the body and is left out. *)
Definition getOrInitializeConnectionHandler (socketHandler : SocketHandler)
    (wsServer : nat) (routePath : string) (c : HandlerCache)
  : option ConnectionHandler * HandlerCache :=
  match connectionHandlerCache c !! routePath with
  | Some cached => (Some cached, c)
  | None =>
      let result := socketHandler wsServer (length (invocationsOf routePath c)) in
      let log := invocations c ++ [(routePath, result)] in
      match result with
      | ReturnsHandler connectionHandler =>
          (Some connectionHandler,
           mkHandlerCache
             (<[routePath := connectionHandler]> (connectionHandlerCache c)) log)
      | ReturnsNonFunction => (None, mkHandlerCache (connectionHandlerCache c) log)
      | Throws => (None, mkHandlerCache (connectionHandlerCache c) log)
      end
  end.


Definition clearConnectionHandlerCache (c : HandlerCache) : HandlerCache :=
  mkHandlerCache ∅ (invocations c).

(** Upgrades handled one after the other: each brings the factory its route
    resolution found and the route path. *)
Definition serve (wsServer : nat) (c : HandlerCache)
    (request : SocketHandler * string) : HandlerCache :=
  snd (getOrInitializeConnectionHandler (fst request) wsServer (snd request) c).

Definition serveAll (wsServer : nat) (requests : list (SocketHandler * string))
    (c : HandlerCache) : HandlerCache :=
  fold_left (serve wsServer) requests c.

End RouteHandler.

(** ** route-handler.ts and route-resolver.ts: from a path to a factory *)
Module Resolver.
Import Errors.

(** A path parameter: [string | string[]]. *)
Inductive ParamValue :=
| Single (value : string)
| Multiple (values : list string).

(** What [getRouteMatcher (getRouteRegex pattern)] does with a path: it
    throws (a path parameter that cannot be decoded raises the framework's
    [DecodeError]), it returns [false], or it returns the parameters. *)
Inductive Matched :=
| MatchThrows
| NoMatch
| Matches (params : list (string * option ParamValue)).

(** The router utilities of the framework that the resolver imports
    ([isDynamicRoute], and the matcher of a pattern applied to a path) and
    the platform's URL parser ([new URL(url, base).pathname]; [None] when
    the constructor throws). *)
Record Platform := mkPlatform {
  isDynamicRoute : string -> bool;
  matchRoute : string -> string -> Matched;
  parsePathname : string -> string -> option string
}.

(** The three error classes that the [catch] of [resolveWebSocketRoute]
    rethrows, each with the path it was built with. *)
Inductive ResolutionError :=
| RouteNotFound (path : string)
| HandlerNotFound (path : string)
| ModuleImport (path : string).

Definition thrownOf (e : ResolutionError) : Thrown :=
  match e with
  | RouteNotFound path => RouteNotFoundError path
  | HandlerNotFound path => HandlerNotFoundError path
  | ModuleImport path => ModuleImportError path
  end.

(** What is raised inside the [try] of [resolveWebSocketRoute] by the code
    it calls, as far as its [catch] tells values apart: an instance of one
    of the three classes, or anything else. *)
Inductive Raised :=
| RaisedResolutionError (e : ResolutionError)
| RaisedOther.

(** A value found under an export name: a function (a factory, by name) or
    something else that is neither [null] nor [undefined]. *)
Inductive Export :=
| ExportFunction (factory : nat)
| ExportOther.

(** A loaded module object, as far as the resolver looks into it:
    [__esModule], [default], [routeModule.userland.SOCKET], [SOCKET] and
    [handlers.SOCKET].  A [default] that is a promise is given with the way
    it settles: fulfilled with a value ([None] when the value is falsy) or
    rejected.  [DefaultOther] is a truthy [default] that is neither a
    promise nor an object. *)
Inductive RouteModule :=
| ModuleObject (esModule : bool) (defaultExport : DefaultExport)
    (userlandSocket directSocket handlersSocket : option Export)
with DefaultExport :=
| NoDefault
| DefaultPromise (settled : Settled)
| DefaultObject (m : RouteModule)
| DefaultOther
with Settled :=
| FulfilledWith (value : option RouteModule)
| RejectedWith (reason : Raised).

Definition defaultOf (m : RouteModule) : DefaultExport :=
  match m with ModuleObject _ d _ _ _ => d end.

(** An object with none of the properties the resolver reads. *)
Definition bareObject : RouteModule := ModuleObject false NoDefault None None None.

(** What [require(path)] does. *)
Inductive Required :=
| RequireThrows
| RequireFalsy
| RequireModule (m : RouteModule).

Record ServerAdapter := mkAdapter {
  getHttpServer : option nat;
  getAppRoutes : option (list (string * string));
  resolvePagePath : string -> option string;
  require : string -> Required
}.

Definition endsWith (s suffix : string) : bool :=
  let n := String.length s in
  let m := String.length suffix in
  (m <=? n)%nat && String.eqb (String.substring (n - m) m s) suffix.

Definition RouteParams : Type := list (string * ParamValue).

(** The loop over the dynamic entries: the first pattern that matches.
    A matcher that throws ends the loop, and the function, with its
    exception ([inl]). *)
Fixpoint firstDynamicMatch (pf : Platform) (entries : list (string * string))
    (requestPath : string) : Raised + option (string * RouteParams) :=
  match entries with
  | [] => inr None
  | (pagePattern, pageKey) :: rest =>
      match matchRoute pf pagePattern requestPath with
      | MatchThrows => inl RaisedOther
      | Matches paramsFromMatcher =>
          inr (Some (pageKey,
                     omap (fun kv => match snd kv with
                                     | Some value => Some (fst kv, value)
                                     | None => None
                                     end) paramsFromMatcher))
      | NoMatch => firstDynamicMatch pf rest requestPath
      end
  end.

(** [resolvePathToRoute]: [inr None] is its [null]. *)
Definition resolvePathToRoute (pf : Platform) (serverAdapter : ServerAdapter)
    (requestPath : string) : Raised + option (string * RouteParams) :=
  match getAppRoutes serverAdapter with
  | None => inr None
  | Some appPathRoutes =>
      let apiRouteEntries :=
        List.filter (fun entry => endsWith (snd entry) "/route") appPathRoutes in
      match apiRouteEntries with
      | [] => inr None
      | _ =>
          let staticEntries :=
            List.filter (fun entry => negb (isDynamicRoute pf (fst entry)))
              apiRouteEntries in
          let dynamicEntries :=
            List.filter (fun entry => isDynamicRoute pf (fst entry))
              apiRouteEntries in
          match List.find (fun entry => String.eqb (fst entry) requestPath)
                  staticEntries with
          | Some (_, pageKey) => inr (Some (pageKey, []))
          | None => firstDynamicMatch pf dynamicEntries requestPath
          end
      end
  end.

(** [importRouteModule], as its caller's [await] sees it: [inr None] is a
    falsy result, [inl] a rejection.  A failing [ensurePage] is only
    logged; a missing or empty path, a throwing [require] and a falsy
    module all end in a falsy result.  With [__esModule] set, a truthy
    [default] is returned in place of the module; when it is a promise the
    [async] function hands it on, so the caller receives the value it is
    fulfilled with, or its rejection, which the [try] inside
    [importRouteModule] does not catch. *)
Definition importRouteModule (serverAdapter : ServerAdapter) (pageKey : string)
  : Raised + option RouteModule :=
  match resolvePagePath serverAdapter pageKey with
  | None => inr None
  | Some serverModulePath =>
      if String.eqb serverModulePath "" then inr None
      else
        match require serverAdapter serverModulePath with
        | RequireThrows => inr None
        | RequireFalsy => inr None
        | RequireModule routeModule =>
            match routeModule with
            | ModuleObject true (DefaultObject m) _ _ _ => inr (Some m)
            | ModuleObject true (DefaultPromise (FulfilledWith value)) _ _ _ =>
                inr value
            | ModuleObject true (DefaultPromise (RejectedWith reason)) _ _ _ =>
                inl reason
            | ModuleObject true DefaultOther _ _ _ => inr (Some bareObject)
            | _ => inr (Some routeModule)
            end
        end
  end.

(** [a ?? b ?? c] over the three places of the export, then the
    [typeof ... === 'function'] test. *)
Definition socketExport (m : RouteModule) : option nat :=
  match m with
  | ModuleObject _ _ userland direct handlers =>
      match userland, direct, handlers with
      | Some e, _, _ | None, Some e, _ | None, None, Some e =>
          match e with ExportFunction f => Some f | ExportOther => None end
      | None, None, None => None
      end
  end.

Definition getSocketHandler (routeModule : option RouteModule) : option nat :=
  match routeModule with
  | None => None
  | Some routeModule =>
      let resolvedModule :=
        match defaultOf routeModule with
        | DefaultPromise (FulfilledWith value) => value
        | DefaultPromise (RejectedWith _) => None
        | DefaultObject m => Some m
        | _ => Some routeModule
        end in
      match resolvedModule with
      | None => None
      | Some resolved =>
          match socketExport resolved with
          | Some f => Some f
          | None =>
              match defaultOf routeModule with
              | DefaultPromise _ | DefaultObject _ => socketExport routeModule
              | _ => None
              end
          end
      end
  end.

Record RouteResolutionResult := mkResolution {
  filePath : string;
  routeParams : RouteParams;
  handler : nat
}.

(** The [catch] of [resolveWebSocketRoute]: an instance of one of the
    three classes is rethrown, anything else is wrapped in a
    [ModuleImportError] for the request's pathname. *)
Definition rethrown (pathname : string) (raised : Raised) : Thrown :=
  match raised with
  | RaisedResolutionError e => thrownOf e
  | RaisedOther => ModuleImportError pathname
  end.

(** [resolveWebSocketRoute] has the declared result type
    [RouteResolutionResult | null] and may throw: [inl] is a thrown error,
    [inr None] would be [null].  The errors it throws itself pass through
    its [catch] unchanged. *)
Definition resolveWebSocketRoute (pf : Platform) (serverAdapter : ServerAdapter)
    (pathname : string) : Thrown + option RouteResolutionResult :=
  match resolvePathToRoute pf serverAdapter pathname with
  | inl raised => inl (rethrown pathname raised)
  | inr None => inl (RouteNotFoundError pathname)
  | inr (Some (routeFile, params)) =>
      match importRouteModule serverAdapter routeFile with
      | inl raised => inl (rethrown pathname raised)
      | inr None => inl (ModuleImportError routeFile)
      | inr (Some routeModule) =>
          match getSocketHandler (Some routeModule) with
          | None => inl (HandlerNotFoundError pathname)
          | Some h => inr (Some (mkResolution routeFile params h))
          end
      end
  end.

(** The ways in which route resolution fails, each a thrown error: no
    route, no module, no upgrade export, or something raised by the code
    it calls (a matcher that throws, a default export that is a rejected
    promise). *)
Definition resolutionFailure (pf : Platform) (adapter : ServerAdapter)
    (pathname : string) (error : Thrown) : Prop :=
  (resolvePathToRoute pf adapter pathname = inr None /\
   error = RouteNotFoundError pathname) \/
  (exists routeFile params,
      resolvePathToRoute pf adapter pathname = inr (Some (routeFile, params)) /\
      importRouteModule adapter routeFile = inr None /\
      error = ModuleImportError routeFile) \/
  (exists routeFile params routeModule,
      resolvePathToRoute pf adapter pathname = inr (Some (routeFile, params)) /\
      importRouteModule adapter routeFile = inr (Some routeModule) /\
      getSocketHandler (Some routeModule) = None /\
      error = HandlerNotFoundError pathname) \/
  (exists raised,
      resolvePathToRoute pf adapter pathname = inl raised /\
      error = rethrown pathname raised) \/
  (exists routeFile params raised,
      resolvePathToRoute pf adapter pathname = inr (Some (routeFile, params)) /\
      importRouteModule adapter routeFile = inl raised /\
      error = rethrown pathname raised).

(** The thrown values that are instances of one of the three classes. *)
Definition isResolutionError (error : Thrown) : Prop :=
  exists e, error = thrownOf e.

Definition isWebSocketSupported (serverAdapter : ServerAdapter) : bool :=
  match getHttpServer serverAdapter, getAppRoutes serverAdapter with
  | Some _, Some _ => true
  | _, _ => false
  end.

End Resolver.

(** ** config.ts: the part the orchestrator reads *)
Module Config.

Record RouteOverrides := mkOverrides {
  routeMaxConnections : option Z;
  routeTimeout : option Z;
  routeCompression : option bool;
  routeRateLimit : option RateLimiter.RateLimitConfig
}.

Record WebSocketConfig := mkWebSocketConfig {
  enabled : bool;
  maxConnections : Z;
  timeout : Z;
  compression : bool;
  routes : gmap string RouteOverrides
}.

Record WebSocketRouteConfig := mkRouteConfig {
  effectiveMaxConnections : Z;
  effectiveTimeout : Z;
  effectiveCompression : bool;
  rateLimit : option RateLimiter.RateLimitConfig
}.

Definition getRouteConfig (globalConfig : WebSocketConfig) (routePath : string)
  : WebSocketRouteConfig :=
  let routeSpecific :=
    default (mkOverrides None None None None) (routes globalConfig !! routePath) in
  mkRouteConfig
    (default (maxConnections globalConfig) (routeMaxConnections routeSpecific))
    (default (timeout globalConfig) (routeTimeout routeSpecific))
    (default (compression globalConfig) (routeCompression routeSpecific))
    (routeRateLimit routeSpecific).

End Config.

(** ** setup.ts (kept after route-handler.ts): the upgrade orchestrator *)
Module Orchestrator.
Import Errors Tracker Resolver.

(** The server being set up: its adapter, its configuration, and the user
    factories that its route modules export, by name. *)
Record NextServer := mkNextServer {
  serverAdapter : ServerAdapter;
  config : Config.WebSocketConfig;
  userFactories : nat -> RouteHandler.SocketHandler
}.

(** The upgrade request: [request.url], the [Host] header, and the key that
    the rate limiter's [generateKey] derives from its headers and socket. *)
Record IncomingMessage := mkRequest {
  url : option string;
  host : option string;
  rateLimitKey : string
}.

(** How the connection handler ends for one client: it returns a function
    (the user cleanup), returns something else, or throws. *)
Inductive HandlerResult :=
| ReturnsCleanup
| ReturnsOther
| HandlerThrows.

(** The listeners and the timer that the orchestrator and the pool hold on
    one accepted client. *)
Record Client := mkClient {
  clientSocket : NetSocket;
  clientPath : string;
  poolListeners : bool;
  cleanupListener : bool;
  cleanupIsFunction : bool;
  heartbeat : bool;
  heartbeatListener : bool
}.

(** What the orchestrator does to a client socket: an orderly close with a
    code and a reason, or [terminate()]. *)
Inductive ClientAction :=
| CloseFrame (code : Z) (reason : string)
| Terminate.

(** Everything the upgrade listener and the per-connection callbacks read
    and write: the singletons (tracker, rate limiters, handler cache, pool),
    the raw sockets on which [destroy()] was called, the sockets handed to
    the framing library for the handshake (with their path), the accepted
    clients by connection id, the connection ids whose user cleanup ran
    (oldest first), and the closes and terminations issued. *)
Record World := mkWorld {
  tracker : ConnectionTracker;
  limiters : gmap string RateLimiter.WebSocketRateLimiter;
  handlers : RouteHandler.HandlerCache;
  pool : Pool.WebSocketConnectionPool;
  destroyed : gset nat;
  delegated : list (nat * string);
  clients : gmap string Client;
  cleanupRuns : list string;
  clientLog : list (string * ClientAction)
}.

Definition initialWorld (p : Pool.WebSocketConnectionPool) : World :=
  mkWorld Tracker.create ∅ RouteHandler.emptyCache p ∅ [] ∅ [] [].

Definition set_tracker (t : ConnectionTracker) (w : World) : World :=
  mkWorld t (limiters w) (handlers w) (pool w) (destroyed w) (delegated w)
    (clients w) (cleanupRuns w) (clientLog w).

Definition set_limiters (l : gmap string RateLimiter.WebSocketRateLimiter)
    (w : World) : World :=
  mkWorld (tracker w) l (handlers w) (pool w) (destroyed w) (delegated w)
    (clients w) (cleanupRuns w) (clientLog w).

Definition set_handlers (h : RouteHandler.HandlerCache) (w : World) : World :=
  mkWorld (tracker w) (limiters w) h (pool w) (destroyed w) (delegated w)
    (clients w) (cleanupRuns w) (clientLog w).

Definition set_pool (p : Pool.WebSocketConnectionPool) (w : World) : World :=
  mkWorld (tracker w) (limiters w) (handlers w) p (destroyed w) (delegated w)
    (clients w) (cleanupRuns w) (clientLog w).

Definition set_delegated (d : list (nat * string)) (w : World) : World :=
  mkWorld (tracker w) (limiters w) (handlers w) (pool w) (destroyed w) d
    (clients w) (cleanupRuns w) (clientLog w).

Definition set_clients (c : gmap string Client) (w : World) : World :=
  mkWorld (tracker w) (limiters w) (handlers w) (pool w) (destroyed w)
    (delegated w) c (cleanupRuns w) (clientLog w).

Definition set_cleanupRuns (r : list string) (w : World) : World :=
  mkWorld (tracker w) (limiters w) (handlers w) (pool w) (destroyed w)
    (delegated w) (clients w) r (clientLog w).

Definition logAction (connectionId : string) (a : ClientAction) (w : World)
  : World :=
  mkWorld (tracker w) (limiters w) (handlers w) (pool w) (destroyed w)
    (delegated w) (clients w) (cleanupRuns w)
    (clientLog w ++ [(connectionId, a)]).

(** [socket.destroy(); tracker.markSocketInactive(socket)]. *)
Definition destroyAndRelease (socket : NetSocket) (w : World) : World :=
  mkWorld (markSocketInactive socket (tracker w)) (limiters w) (handlers w)
    (pool w) ({[socketId socket]} ∪ destroyed w) (delegated w) (clients w)
    (cleanupRuns w) (clientLog w).

(** [value || fallback] for a string that may be absent or empty. *)
Definition orElse (value : option string) (fallback : string) : string :=
  match value with
  | Some v => if String.eqb v "" then fallback else v
  | None => fallback
  end.

(** How one run of [handleUpgrade] ends. *)
Inductive UpgradeOutcome :=
| Ignored
| Skipped
| RateLimited
| NoRoute
| NoHandler
| Delegated (connectionHandler : RouteHandler.ConnectionHandler)
| Rejected (error : Thrown).

(** The upgrade listener.  The duplicate check on [requestUrl] is commented
    out in the source and is therefore absent here.  An exception leaves the
    function at the point where it is thrown: the promise it returned
    rejects and nothing after that point runs. *)
Definition handleUpgrade (pf : Platform) (server : NextServer) (wsServer : nat)
    (request : IncomingMessage) (socket : NetSocket) (now : Z) (w : World)
  : UpgradeOutcome * World :=
  let requestUrl := orElse (url request) "/" in
  if isSocketActive socket (tracker w) then (Ignored, w)
  else
    let w := set_tracker (markSocketActive socket (tracker w)) w in
    match parsePathname pf requestUrl
            ("ws://" +:+ orElse (host request) "localhost") with
    | None => (Rejected (PlainError "Invalid URL"), w)
    | Some pathname =>
        if String.prefix "/_next/" pathname
        then (Skipped, set_tracker (markSocketInactive socket (tracker w)) w)
        else
          let routeConfig := Config.getRouteConfig (config server) pathname in
          let '(allowed, limiters') :=
            RateLimiter.checkRateLimit pathname (Config.rateLimit routeConfig)
              (rateLimitKey request) now (limiters w) in
          let w := set_limiters limiters' w in
          if negb allowed then (RateLimited, destroyAndRelease socket w)
          else
            match resolveWebSocketRoute pf (serverAdapter server) pathname with
            | inl error => (Rejected error, w)
            | inr None => (NoRoute, destroyAndRelease socket w)
            | inr (Some routeResolution) =>
                let '(connectionHandler, cache) :=
                  RouteHandler.getOrInitializeConnectionHandler
                    (userFactories server (handler routeResolution)) wsServer
                    pathname (handlers w) in
                let w := set_handlers cache w in
                match connectionHandler with
                | None => (NoHandler, destroyAndRelease socket w)
                | Some connectionHandler =>
                    (Delegated connectionHandler,
                     set_delegated
                       (delegated w ++ [(socketId socket, pathname)]) w)
                end
            end
    end.

(** The close or error event of a raw socket, heard by the one-shot
    listeners of [markSocketActive]. *)
Definition socketClosed (socket : NetSocket) (w : World) : World :=
  set_tracker (markSocketInactive socket (tracker w)) w.

(** The callback handed to [wsServer.handleUpgrade], run once the
    handshake is done.  [connectionId] is what [crypto.randomUUID()]
    returned, [ws] names the client socket, [memoryAcceptable] is the answer
    of the memory manager and [result] is how the connection handler ends. *)
Definition onConnection (connectionId : string) (ws : nat) (socket : NetSocket)
    (pathname : string) (memoryAcceptable : bool) (result : HandlerResult)
    (now now' : Z) (w : World) : World :=
  if negb memoryAcceptable
  then logAction connectionId (CloseFrame 1013 "Server overloaded") w
  else
    let '(added, pool') :=
      Pool.addConnection connectionId ws pathname now now' (pool w) in
    if negb added
    then logAction connectionId (CloseFrame 1013 "Server at capacity") w
    else
      let w := set_pool pool' w in
      match result with
      | HandlerThrows =>
          logAction connectionId Terminate
            (set_clients
               (<[connectionId :=
                    mkClient socket pathname true false false false false]>
                  (clients w)) w)
      | ReturnsCleanup =>
          set_clients
            (<[connectionId := mkClient socket pathname true true true true true]>
               (clients w)) w
      | ReturnsOther =>
          set_clients
            (<[connectionId := mkClient socket pathname true true false true true]>
               (clients w)) w
      end.

(** The listener registered with [clientWebSocket.once('close', ...)] for
    the user cleanup. *)
Definition cleanupOnClose (connectionId : string) (c : Client) (w : World)
  : World :=
  if isConnectionCleanedUp connectionId (tracker w) then w
  else
    let t := markConnectionCleanedUp connectionId (tracker w) in
    let t := markSocketInactive (clientSocket c) t in
    let w := set_tracker t w in
    if cleanupIsFunction c
    then set_cleanupRuns (cleanupRuns w ++ [connectionId]) w
    else w.

(** The client socket emits [close]: its listeners run in the order in
    which they were registered (the pool's, the cleanup listener, the
    heartbeat listener), and the two registered with [once] are removed
    when they fire. *)
Definition clientClosed (connectionId : string) (w : World) : World :=
  match clients w !! connectionId with
  | None => w
  | Some c =>
      let w :=
        if poolListeners c
        then set_pool (Pool.removeConnection connectionId (pool w)) w else w in
      let w := if cleanupListener c then cleanupOnClose connectionId c w else w in
      let stopHeartbeat :=
        heartbeatListener c
        && negb (isConnectionCleanedUp connectionId (tracker w)) in
      set_clients
        (<[connectionId :=
             mkClient (clientSocket c) (clientPath c) (poolListeners c) false
               (cleanupIsFunction c)
               (if stopHeartbeat then false else heartbeat c) false]>
           (clients w)) w
  end.

(** The client socket emits [error]: the pool drops the connection, and the
    orchestrator's listener only reports the error. *)
Definition clientErrored (connectionId : string) (w : World) : World :=
  match clients w !! connectionId with
  | None => w
  | Some c =>
      if poolListeners c
      then set_pool (Pool.removeConnection connectionId (pool w)) w else w
  end.

(** The 30 s timer of [markConnectionCleanedUp] fires. *)
Definition cleanupForgotten (connectionId : string) (w : World) : World :=
  set_tracker (forgetCleanedUp connectionId (tracker w)) w.

Inductive Event :=
| Connected (connectionId : string) (ws : nat) (socket : NetSocket)
    (pathname : string) (memoryAcceptable : bool) (result : HandlerResult)
    (now now' : Z)
| ClientClosed (connectionId : string)
| ClientErrored (connectionId : string)
| CleanupForgotten (connectionId : string).

Definition react (w : World) (e : Event) : World :=
  match e with
  | Connected connectionId ws socket pathname memoryAcceptable result now now' =>
      onConnection connectionId ws socket pathname memoryAcceptable result
        now now' w
  | ClientClosed connectionId => clientClosed connectionId w
  | ClientErrored connectionId => clientErrored connectionId w
  | CleanupForgotten connectionId => cleanupForgotten connectionId w
  end.

Definition play (events : list Event) (w : World) : World :=
  fold_left react events w.

(** The ids that [crypto.randomUUID()] handed out, in order. *)
Fixpoint issuedIds (events : list Event) : list string :=
  match events with
  | [] => []
  | Connected connectionId _ _ _ _ _ _ _ :: rest => connectionId :: issuedIds rest
  | _ :: rest => issuedIds rest
  end.

(** How often the user cleanup of a connection has run. *)
Definition cleanupCount (connectionId : string) (w : World) : nat :=
  length (filter (fun id => id = connectionId) (cleanupRuns w)).

(** One if the cleanup listener of the connection is still registered. *)
Definition armed (connectionId : string) (w : World) : nat :=
  match clients w !! connectionId with
  | Some c => if cleanupListener c then 1 else 0
  | None => 0
  end.

Definition cleanupBudget (w : World) : Prop :=
  forall id, (cleanupCount id w + armed id w <= 1)%nat.

Definition unused (connectionId : string) (w : World) : Prop :=
  clients w !! connectionId = None /\ cleanupCount connectionId w = 0%nat.

(** *** persistent-servers.ts and [setupWebSocketServer] *)

(** What the framing library keeps for a [WebSocketServer]: the client
    sockets of its completed handshakes and whether [close()] was called. *)
Record WebSocketServer := mkWebSocketServer {
  wsClients : list nat;
  wsClosed : bool
}.

(** The process: the two servers stored on [globalThis], every
    [WebSocketServer] constructed so far (the next one is named by their
    number), the client sockets terminated, the module-level
    [serverListenerMap] (host server to handler and WebSocket server), and
    the upgrade and close listeners of each host server. *)
Record Process := mkProcess {
  world : World;
  globalHttpServer : option nat;
  globalWebSocketServer : option nat;
  webSocketServers : gmap nat WebSocketServer;
  constructed : nat;
  terminated : list nat;
  serverListenerMap : gmap nat (nat * nat);
  upgradeListeners : gmap nat (list nat);
  closeListeners : gmap nat (list nat)
}.

Definition bootProcess : Process :=
  mkProcess (initialWorld (Pool.create 1000 300000)) None None ∅ 0 [] ∅ ∅ ∅.

Definition set_world (w : World) (p : Process) : Process :=
  mkProcess w (globalHttpServer p) (globalWebSocketServer p)
    (webSocketServers p) (constructed p) (terminated p) (serverListenerMap p)
    (upgradeListeners p) (closeListeners p).

Definition clearWebSocketServer (p : Process) : Process :=
  match globalWebSocketServer p with
  | None => p
  | Some existing =>
      let server :=
        default (mkWebSocketServer [] false) (webSocketServers p !! existing) in
      mkProcess (world p) (globalHttpServer p) None
        (<[existing := mkWebSocketServer (wsClients server) true]>
           (webSocketServers p))
        (constructed p) (terminated p ++ wsClients server)
        (serverListenerMap p) (upgradeListeners p) (closeListeners p)
  end.

Definition useHttpServer (server : option nat) (p : Process)
  : option nat * Process :=
  match globalHttpServer p with
  | Some existing => (Some existing, p)
  | None =>
      match server with
      | Some s =>
          (Some s,
           mkProcess (world p) (Some s) (globalWebSocketServer p)
             (webSocketServers p) (constructed p) (terminated p)
             (serverListenerMap p) (upgradeListeners p) (closeListeners p))
      | None => (None, p)
      end
  end.

(** [useWebSocketServer(new WebSocketServer(options))]: a server is
    constructed in any case; the one on [globalThis] wins if there is
    one. *)
Definition useNewWebSocketServer (p : Process) : nat * Process :=
  let fresh := constructed p in
  let servers := <[fresh := mkWebSocketServer [] false]> (webSocketServers p) in
  match globalWebSocketServer p with
  | Some existing =>
      (existing,
       mkProcess (world p) (globalHttpServer p) (Some existing) servers
         (S fresh) (terminated p) (serverListenerMap p) (upgradeListeners p)
         (closeListeners p))
  | None =>
      (fresh,
       mkProcess (world p) (globalHttpServer p) (Some fresh) servers
         (S fresh) (terminated p) (serverListenerMap p) (upgradeListeners p)
         (closeListeners p))
  end.

(** [initializeConnectionPool]: the pool in use is destroyed (each of its
    connections is sent close 1000) and a new one takes its place. *)
Definition initializeConnectionPool (maxConnections idleTimeout : Z) (w : World)
  : World :=
  let shutdown :=
    map (fun entry => (fst entry, CloseFrame 1000 "Server shutdown"))
      (map_to_list (Pool.connections (pool w))) in
  mkWorld (tracker w) (limiters w) (handlers w)
    (Pool.create maxConnections idleTimeout) (destroyed w) (delegated w)
    (clients w) (cleanupRuns w) (clientLog w ++ shutdown).

Definition appendListener (httpServer listener : nat)
    (listeners : gmap nat (list nat)) : gmap nat (list nat) :=
  <[httpServer := default [] (listeners !! httpServer) ++ [listener]]> listeners.

(** [setupWebSocketServer]; the health monitor it may start is a separate
    singleton and is not modelled.  The upgrade handler it installs is named
    after the WebSocket server constructed for it. *)
Definition setupWebSocketServer (nextServer : NextServer) (p : Process)
  : Process :=
  let p := clearWebSocketServer p in
  let p :=
    set_world
      (set_handlers (RouteHandler.clearConnectionHandlerCache (handlers (world p)))
         (world p)) p in
  if negb (isWebSocketSupported (serverAdapter nextServer)) then p
  else if negb (Config.enabled (config nextServer)) then p
  else
    match useHttpServer (getHttpServer (serverAdapter nextServer)) p with
    | (None, p) => p
    | (Some httpServer, p) =>
        match serverListenerMap p !! httpServer with
        | Some existingSetup => p
        | None =>
            let handlerName := constructed p in
            let '(wsServer, p) := useNewWebSocketServer p in
            let cfg := config nextServer in
            let idle :=
              if Config.timeout cfg =? 0 then 300000 else Config.timeout cfg in
            let w :=
              initializeConnectionPool (Config.maxConnections cfg) idle (world p) in
            mkProcess w (globalHttpServer p) (globalWebSocketServer p)
              (webSocketServers p) (constructed p) (terminated p)
              (<[httpServer := (handlerName, wsServer)]> (serverListenerMap p))
              (appendListener httpServer handlerName (upgradeListeners p))
              (appendListener httpServer handlerName (closeListeners p))
        end
    end.

(** The framing library completes a handshake on [wsServer] and adds the
    client socket [ws] to the server's clients. *)
Definition handshakeCompleted (wsServer ws : nat) (p : Process) : Process :=
  let server :=
    default (mkWebSocketServer [] false) (webSocketServers p !! wsServer) in
  mkProcess (world p) (globalHttpServer p) (globalWebSocketServer p)
    (<[wsServer := mkWebSocketServer (wsClients server ++ [ws]) (wsClosed server)]>
       (webSocketServers p))
    (constructed p) (terminated p) (serverListenerMap p) (upgradeListeners p)
    (closeListeners p).

(** The host server that a call of [setupWebSocketServer] would attach to. *)
Definition hostServer (nextServer : NextServer) (p : Process) : option nat :=
  match globalHttpServer p with
  | Some existing => Some existing
  | None => getHttpServer (serverAdapter nextServer)
  end.

End Orchestrator.

(** ** Scenarios: the configurations, traces and servers of the examples *)
Module Scenarios.

(** The breaker of the unit tests: three failures open it. *)
Definition testConfig : CircuitBreaker.CircuitBreakerConfig :=
  CircuitBreaker.mkConfig 3 1000 5000 2.

Definition threeFailures : list CircuitBreaker.Call :=
  [CircuitBreaker.CallRecordFailure 10000 10000;
   CircuitBreaker.CallRecordFailure 10001 10001;
   CircuitBreaker.CallRecordFailure 10002 10002].

(** Two failures, then a success that decrements the failure counter. *)
Definition decayedBreaker : CircuitBreaker.RouteCircuitBreaker :=
  CircuitBreaker.recordSuccess 10003
    (CircuitBreaker.history
       [CircuitBreaker.CallRecordFailure 10000 10000;
        CircuitBreaker.CallRecordFailure 10001 10001]
       (CircuitBreaker.create "/api/ws/test" testConfig)).

(** The breaker opened by three failures, probed after the reset timeout. *)
Definition probingBreaker : CircuitBreaker.RouteCircuitBreaker :=
  snd (CircuitBreaker.canExecute 11100
         (CircuitBreaker.history threeFailures
            (CircuitBreaker.create "/api/ws/test" testConfig))).

(** Three upgrades from 1.2.3.4 within 500 ms on a route limited to two
    requests per second. *)
Definition chatConfig : RateLimiter.RateLimitConfig :=
  RateLimiter.mkRateLimitConfig 1000 2.

Definition chatEvents : list RateLimiter.Event :=
  [RateLimiter.Check "ip:1.2.3.4" 10000; RateLimiter.Check "ip:1.2.3.4" 10200;
   RateLimiter.Check "ip:1.2.3.4" 10400].

(** One request per second, and two requests exactly one second apart. *)
Definition boundaryConfig : RateLimiter.RateLimitConfig :=
  RateLimiter.mkRateLimitConfig 1000 1.

Definition boundaryFirst : list RateLimiter.Event :=
  [RateLimiter.Check "ip:1.2.3.4" 5000].

Definition boundaryEvents : list RateLimiter.Event :=
  [RateLimiter.Check "ip:1.2.3.4" 5000; RateLimiter.Check "ip:1.2.3.4" 6000].

(** A pool with room for one connection, empty and then full. *)
Definition singlePool : Pool.WebSocketConnectionPool := Pool.create 1 300000.

Definition fullPool : Pool.WebSocketConnectionPool :=
  snd (Pool.addConnection "conn0" 0%nat "/api/echo" 1000 1000 singlePool).


Definition alwaysThrows : RouteHandler.SocketHandler :=
  fun _ _ => RouteHandler.Throws.


(** A client whose close and error events overlap, and whose close event
    is reported again after the tracker forgot the id. *)
Definition overlappingEvents : list Orchestrator.Event :=
  [Orchestrator.Connected "c-1" 1 (Tracker.mkSocket 1 (Some "1.2.3.4"))
     "/api/echo" true Orchestrator.ReturnsCleanup 1000 1000;
   Orchestrator.ClientErrored "c-1"; Orchestrator.ClientClosed "c-1";
   Orchestrator.ClientErrored "c-1"; Orchestrator.CleanupForgotten "c-1";
   Orchestrator.ClientClosed "c-1"].

(** A server with three route files: one that exports a factory, one whose
    module cannot be loaded and one without the upgrade export.  No route
    is dynamic and the URL parser is given plain paths. *)
Definition plainPlatform : Resolver.Platform :=
  Resolver.mkPlatform (fun _ => false) (fun _ _ => Resolver.NoMatch)
    (fun url _ => Some url).

Definition echoModule : Resolver.RouteModule :=
  Resolver.ModuleObject false Resolver.NoDefault
    (Some (Resolver.ExportFunction 0)) None None.

Definition demoAdapter : Resolver.ServerAdapter :=
  Resolver.mkAdapter (Some 0%nat)
    (Some [("/api/echo", "/api/echo/route");
           ("/api/broken", "/api/broken/route");
           ("/api/plain", "/api/plain/route")])
    (fun pageKey =>
       if String.eqb pageKey "/api/broken/route" then None
       else Some ("/srv" +:+ pageKey))
    (fun path =>
       if String.eqb path "/srv/api/echo/route"
       then Resolver.RequireModule echoModule
       else if String.eqb path "/srv/api/plain/route"
            then Resolver.RequireModule Resolver.bareObject
            else Resolver.RequireThrows).

Definition demoConfig : Config.WebSocketConfig :=
  Config.mkWebSocketConfig true 1000 30000 true ∅.

Definition demoServer : Orchestrator.NextServer :=
  Orchestrator.mkNextServer demoAdapter demoConfig
    (fun _ _ _ => RouteHandler.ReturnsHandler 7%nat).

Definition demoWorld : Orchestrator.World :=
  Orchestrator.initialWorld (Pool.create 1000 30000).

Definition upgradeFor (path : string) : Orchestrator.IncomingMessage :=
  Orchestrator.mkRequest (Some path) (Some "localhost:3000") "ip:1.2.3.4".

Definition firstSocket : Tracker.NetSocket := Tracker.mkSocket 1 (Some "1.2.3.4").

Definition secondSocket : Tracker.NetSocket := Tracker.mkSocket 2 (Some "1.2.3.4").

(** Two checks 100 ms apart, a third after the window, and a pruning. *)
Definition rapidChecks : list Tracker.TrackerEvent :=
  [Tracker.Seen "/api/echo" firstSocket 1000;
   Tracker.Seen "/api/echo" secondSocket 1100;
   Tracker.Seen "/api/echo" firstSocket 2500; Tracker.Pruned 5000].

(** The demo server with a factory that always throws. *)
Definition throwingServer : Orchestrator.NextServer :=
  Orchestrator.mkNextServer demoAdapter demoConfig (fun _ => alwaysThrows).

(** The demo server with /api/echo limited to two upgrades per second, and
    the world after two upgrades from 1.2.3.4 at 10000 and 10200. *)
Definition limitedConfig : Config.WebSocketConfig :=
  Config.mkWebSocketConfig true 1000 30000 true
    {["/api/echo" := Config.mkOverrides None None None (Some chatConfig)]}.

Definition limitedServer : Orchestrator.NextServer :=
  Orchestrator.mkNextServer demoAdapter limitedConfig
    (fun _ _ _ => RouteHandler.ReturnsHandler 7%nat).

Definition thirdSocket : Tracker.NetSocket := Tracker.mkSocket 3 (Some "1.2.3.4").

Definition afterTwoUpgrades : Orchestrator.World :=
  snd (Orchestrator.handleUpgrade plainPlatform limitedServer 0
         (upgradeFor "/api/echo") secondSocket 10200
         (snd (Orchestrator.handleUpgrade plainPlatform limitedServer 0
                 (upgradeFor "/api/echo") firstSocket 10000 demoWorld))).

(** The process after the first setup of the demo server, and the same
    process once an upgrade for /api/echo was served on WebSocket server 0
    and its handshake completed with client socket 5. *)
Definition attachedProcess : Orchestrator.Process :=
  Orchestrator.setupWebSocketServer demoServer Orchestrator.bootProcess.

Definition busyProcess : Orchestrator.Process :=
  Orchestrator.handshakeCompleted 0 5
    (Orchestrator.set_world
       (snd (Orchestrator.handleUpgrade plainPlatform demoServer 0
               (upgradeFor "/api/echo") firstSocket 1000
               (Orchestrator.world attachedProcess)))
       attachedProcess).

(** A server with a dynamic route, whose matcher throws on a path that
    cannot be decoded, and two route files whose modules have a promise as
    default export: one that is rejected and one that is fulfilled with
    the echo module. *)
Definition dynamicPlatform : Resolver.Platform :=
  Resolver.mkPlatform
    (fun pattern => String.eqb pattern "/api/rooms/[id]")
    (fun pattern path =>
       if String.eqb path "/api/rooms/lobby"
       then Resolver.Matches [("id", Some (Resolver.Single "lobby"))]
       else if String.eqb path "/api/rooms/%E0%A4%A"
            then Resolver.MatchThrows
            else Resolver.NoMatch)
    (fun url _ => Some url).

Definition lateModule : Resolver.RouteModule :=
  Resolver.ModuleObject true
    (Resolver.DefaultPromise (Resolver.RejectedWith Resolver.RaisedOther))
    None None None.

Definition lazyModule : Resolver.RouteModule :=
  Resolver.ModuleObject true
    (Resolver.DefaultPromise (Resolver.FulfilledWith (Some echoModule)))
    None None None.

Definition roomsAdapter : Resolver.ServerAdapter :=
  Resolver.mkAdapter (Some 0%nat)
    (Some [("/api/rooms/[id]", "/api/rooms/[id]/route");
           ("/api/late", "/api/late/route");
           ("/api/lazy", "/api/lazy/route")])
    (fun pageKey => Some ("/srv" +:+ pageKey))
    (fun path =>
       if String.eqb path "/srv/api/late/route"
       then Resolver.RequireModule lateModule
       else if String.eqb path "/srv/api/lazy/route"
            then Resolver.RequireModule lazyModule
            else Resolver.RequireModule echoModule).

End Scenarios.

(** * circuit-breaker.ts: statistics and the manager of all breakers *)

Module BreakerManager.
Import CircuitBreaker.

Record CircuitBreakerStats := mkStats {
  statsState : CircuitState;
  failures : Z;
  successes : Z;
  statsLastFailureTime : option Z;
  statsLastSuccessTime : option Z;
  statsTotalRequests : Z
}.

Definition getStats (b : RouteCircuitBreaker) : CircuitBreakerStats :=
  mkStats (state b) (totalFailures b) (totalSuccesses b) (lastFailureTime b)
    (lastSuccessTime b) (totalRequests b).

(** [Partial<CircuitBreakerConfig>]: a field is [None] when the object has
    no such property. *)
Record PartialConfig := mkPartial {
  partialFailureThreshold : option Z;
  partialResetTimeout : option Z;
  partialMonitoringWindow : option Z;
  partialSuccessThreshold : option Z
}.

Definition defaultConfig : CircuitBreakerConfig :=
  mkConfig 5 60000 300000 3.

(** [{ ...this.defaultConfig, ...config }]. *)
Definition finalConfig (config : option PartialConfig) : CircuitBreakerConfig :=
  match config with
  | None => defaultConfig
  | Some c =>
      mkConfig
        (default (failureThreshold defaultConfig) (partialFailureThreshold c))
        (default (resetTimeout defaultConfig) (partialResetTimeout c))
        (default (monitoringWindow defaultConfig) (partialMonitoringWindow c))
        (default (successThreshold defaultConfig) (partialSuccessThreshold c))
  end.

(** The [breakers] map of a [CircuitBreakerManager]. *)
Abbreviation CircuitBreakerManager := (gmap string RouteCircuitBreaker).

Definition empty : CircuitBreakerManager := ∅.

(** [getBreaker]: the breaker of the route, created on first use. *)
Definition getBreaker (routePath : string) (config : option PartialConfig)
    (m : CircuitBreakerManager) : RouteCircuitBreaker * CircuitBreakerManager :=
  match m !! routePath with
  | Some b => (b, m)
  | None =>
      let b := create routePath (finalConfig config) in
      (b, <[routePath := b]> m)
  end.

(** The breaker handed out is the object held in the map: a call made on
    it changes the map's entry. *)
Definition call (routePath : string) (config : option PartialConfig)
    (c : Call) (m : CircuitBreakerManager) : CircuitBreakerManager :=
  let '(b, m) := getBreaker routePath config m in
  <[routePath := perform b c]> m.

Definition getAllStats (m : CircuitBreakerManager)
  : gmap string CircuitBreakerStats :=
  getStats <$> m.

Definition resetAll (m : CircuitBreakerManager) : CircuitBreakerManager :=
  reset <$> m.

(** [t || 0]: [null] and zero both give zero. *)
Definition orZero (t : option Z) : Z := default 0 t.

Definition lastActivity (b : RouteCircuitBreaker) : Z :=
  Z.max (orZero (statsLastFailureTime (getStats b)))
        (orZero (statsLastSuccessTime (getStats b))).

Definition maxAge : Z := 3600000.

(** [lastActivity && now - lastActivity > maxAge]. *)
Definition expired (now : Z) (b : RouteCircuitBreaker) : Prop :=
  lastActivity b <> 0 /\ maxAge < now - lastActivity b.

#[global] Instance expired_dec now b : Decision (expired now b).
Proof. unfold expired. apply _. Defined.

(** [cleanup]: delete the breakers whose last activity is older than an
    hour. *)
Definition cleanup (now : Z) (m : CircuitBreakerManager)
  : CircuitBreakerManager :=
  filter (fun entry => ~ expired now entry.2) m.

(** Reading a history of calls. *)
Definition isFailure (c : Call) : bool :=
  match c with CallRecordFailure _ _ => true | _ => false end.

Definition isReset (c : Call) : bool :=
  match c with CallReset => true | _ => false end.

Definition failuresIn (calls : list Call) : Z :=
  Z.of_nat (length (filter (fun c => isFailure c = true) calls)).

Definition isSuccess (c : Call) : bool :=
  match c with CallRecordSuccess _ => true | _ => false end.

Definition successesIn (calls : list Call) : Z :=
  Z.of_nat (length (filter (fun c => isSuccess c = true) calls)).

(** The clock readings a call takes. *)
Definition readings (c : Call) : list Z :=
  match c with
  | CallCanExecute now => [now]
  | CallRecordSuccess now => [now]
  | CallRecordFailure now now' => [now; now']
  | CallReset => []
  end.

(** Every reading of the call lies in the interval [t0, t0 + span). *)
Definition within (t0 span : Z) (c : Call) : Prop :=
  Forall (fun r => t0 <= r < t0 + span) (readings c).

End BreakerManager.

(** * graceful-handler.ts *)

Module Graceful.
Import Errors CircuitBreaker BreakerManager.

(** The raw socket of an upgrade, as far as the handler drives it:
    [closeTimeouts] counts the pending close timers. *)
Record RawSocket := mkRawSocket {
  rawDestroyed : bool;
  rawEnded : bool;
  closeTimeouts : nat
}.

Definition freshSocket : RawSocket := mkRawSocket false false 0.

Definition destroy (s : RawSocket) : RawSocket :=
  mkRawSocket true (rawEnded s) (closeTimeouts s).

(** [closeSocketGracefully]: of its options only [timeout] is read; the
    close code and the reason passed by the callers are not used on a raw
    socket.  [endThrows] tells whether [socket.end()] throws. *)
Definition closeSocketGracefully (endThrows : bool) (s : RawSocket)
  : RawSocket :=
  if rawDestroyed s then s
  else if endThrows then destroy s
  else mkRawSocket false true (S (closeTimeouts s)).

(** The close timer fires. *)
Definition closeTimeoutFired (s : RawSocket) : RawSocket :=
  let s := mkRawSocket (rawDestroyed s) (rawEnded s) (pred (closeTimeouts s)) in
  if rawDestroyed s then s else destroy s.

(** [handleUpgradeError]. *)
Definition handleUpgradeError (error : Thrown) (endThrows : bool)
    (s : RawSocket) : RawSocket :=
  match getRecoveryStrategy error with
  | CLOSE_CONNECTION => closeSocketGracefully endThrows s
  | _ => destroy s
  end.

(** How the upgrade callback ends. *)
Inductive UpgradeCallback :=
| Resolves
| Rejects (error : Thrown).

Record UpgradeResult := mkUpgradeResult {
  accepted : bool;
  callbackInvoked : bool
}.

(** The clock readings of one [handleUpgrade]: [atCheck] in [canExecute],
    [atRecord] in [recordSuccess] or [recordFailure], [atPrune] in the
    pruning of [recordFailure]. *)
Record Readings := mkReadings {
  atCheck : Z;
  atRecord : Z;
  atPrune : Z
}.

(** [GracefulWebSocketHandler.handleUpgrade], one call taken from start to
    end. *)
Definition handleUpgrade (pathname : string) (upgradeCallback : UpgradeCallback)
    (endThrows : bool) (at_ : Readings) (socket : RawSocket)
    (m : CircuitBreakerManager)
  : UpgradeResult * RawSocket * CircuitBreakerManager :=
  let '(circuitBreaker, m) := getBreaker pathname None m in
  let '(allowed, circuitBreaker) := canExecute (atCheck at_) circuitBreaker in
  if negb allowed
  then (mkUpgradeResult false false,
        closeSocketGracefully endThrows socket,
        <[pathname := circuitBreaker]> m)
  else
    match upgradeCallback with
    | Resolves =>
        (mkUpgradeResult true true, socket,
         <[pathname := recordSuccess (atRecord at_) circuitBreaker]> m)
    | Rejects error =>
        (mkUpgradeResult false true,
         handleUpgradeError error endThrows socket,
         <[pathname := recordFailure (atRecord at_) (atPrune at_)
                         circuitBreaker]> m)
    end.

(** The calls one [handleUpgrade] makes on the route's breaker. *)
Definition breakerCalls (upgradeCallback : UpgradeCallback) (at_ : Readings)
    (allowed : bool) : list Call :=
  CallCanExecute (atCheck at_) ::
  (if allowed
   then match upgradeCallback with
        | Resolves => [CallRecordSuccess (atRecord at_)]
        | Rejects _ => [CallRecordFailure (atRecord at_) (atPrune at_)]
        end
   else []).

(** Upgrades for one path, served one after the other on fresh sockets. *)
Definition Attempt : Type := UpgradeCallback * Readings.

Definition serve (pathname : string) (m : CircuitBreakerManager)
    (a : Attempt) : CircuitBreakerManager :=
  (handleUpgrade pathname a.1 false a.2 freshSocket m).2.

Definition serveAll (pathname : string) (attempts : list Attempt)
    (m : CircuitBreakerManager) : CircuitBreakerManager :=
  fold_left (serve pathname) attempts m.

Definition rejects (a : Attempt) : Prop :=
  match a.1 with Rejects _ => True | Resolves => False end.

Definition readingsWithin (t0 span : Z) (a : Attempt) : Prop :=
  t0 <= atCheck a.2 < t0 + span /\
  t0 <= atRecord a.2 < t0 + span /\
  t0 <= atPrune a.2 < t0 + span.

(** The state of a WebSocket client. *)
Inductive ReadyState := WsConnecting | WsOpen | WsClosing | WsClosed.

(** What a client is told to do. *)
Inductive ClientCall :=
| Close (code : Z) (reason : string)
| TerminateClient.

(** [closeWebSocketGracefully]: the calls made on the client right away
    (when [client.close] throws, [terminate] follows it), and whether a
    close timer is left pending. *)
Definition closeWebSocketGracefully (readyState : ReadyState)
    (code : option Z) (reason : option string) (closeThrows : bool)
  : list ClientCall * bool :=
  match readyState with
  | WsClosed => ([], false)
  | WsClosing => ([], false)
  | _ =>
      if closeThrows
      then ([Close (default 1000 code) (default "" reason); TerminateClient],
            false)
      else ([Close (default 1000 code) (default "" reason)], true)
  end.

(** [handleConnectionError]. *)
Definition handleConnectionError (readyState : ReadyState) (error : Thrown)
    (closeThrows : bool) : list ClientCall * bool :=
  match getRecoveryStrategy error with
  | CLOSE_CONNECTION =>
      closeWebSocketGracefully readyState (Some 1011)
        (Some "Connection error") closeThrows
  | TERMINATE_CONNECTION => ([TerminateClient], false)
  | RETRY => ([TerminateClient], false)
  | IGNORE => ([], false)
  end.

End Graceful.

(** Sample data for the breaker manager and the graceful handler. *)

Module BreakerScenarios.
Import CircuitBreaker BreakerManager Graceful.

(** Two failures and, between them, two successes and a check, all within
    the five seconds of the test configuration's window. *)
Definition mixedCalls : list Call :=
  [CallRecordFailure 10000 10000; CallRecordSuccess 10100;
   CallCanExecute 10200; CallRecordSuccess 10300;
   CallRecordFailure 10400 10401; CallRecordFailure 10500 10500;
   CallCanExecute 10600].

(** A breaker configured with a reset timeout of two hours, opened by one
    failure at 1000. *)
Definition patientConfig : PartialConfig :=
  mkPartial (Some 1) (Some 7200000) None None.

Definition patientManager : CircuitBreakerManager :=
  call "/api/slow" (Some patientConfig) (CallRecordFailure 1000 1000) empty.

(** Five upgrades for /api/echo that fail one second apart. *)
Definition failingAttempt (t : Z) : Attempt :=
  (Rejects (Errors.PlainError "boom"), mkReadings t (t + 1) (t + 2)).

Definition fiveFailures : list Attempt :=
  [failingAttempt 1000; failingAttempt 2000; failingAttempt 3000;
   failingAttempt 4000; failingAttempt 5000].

End BreakerScenarios.

(** * rate-limiter.ts: statistics, reset and the manager's cleanup *)

Module RateLimiterManager.
Import RateLimiter.

Record RateLimiterStats := mkRateLimiterStats {
  activeKeys : nat;
  statsWindowMs : Z;
  statsMaxRequests : Z
}.

(** [getStats]: [activeKeys] is the size of the map, whatever the lists
    hold. *)
Definition getStats (l : WebSocketRateLimiter) : RateLimiterStats :=
  mkRateLimiterStats (size (requests l)) (windowMs (config l))
    (maxRequests (config l)).

Definition reset (l : WebSocketRateLimiter) : WebSocketRateLimiter :=
  mkLimiter (config l) ∅.

(** [RouteRateLimiterManager.cleanup]: delete the limiters without keys. *)
Definition cleanup (limiters : gmap string WebSocketRateLimiter)
  : gmap string WebSocketRateLimiter :=
  filter (fun entry => activeKeys (getStats entry.2) <> 0%nat) limiters.

Definition resetAll (limiters : gmap string WebSocketRateLimiter)
  : gmap string WebSocketRateLimiter :=
  reset <$> limiters.

Definition getAllStats (limiters : gmap string WebSocketRateLimiter)
  : gmap string RateLimiterStats :=
  getStats <$> limiters.

(** The checks among the events of a limiter. *)
Definition isCheck (e : Event) : bool :=
  match e with Check _ _ => true | Sweep _ => false end.

Definition checksOf (events : list Event) : list Event :=
  filter (fun e => isCheck e = true) events.

(** [n] further checks for the same key at the same clock reading. *)
Fixpoint again (key : string) (now : Z) (n : nat) (l : WebSocketRateLimiter)
  : WebSocketRateLimiter :=
  match n with
  | O => l
  | S n => again key now n (isAllowed key now l).2
  end.

(** Two limiters that count the same requests at clock reading [clock]. *)
Definition sameCounts (clock : Z) (l1 l2 : WebSocketRateLimiter) : Prop :=
  config l1 = config l2 /\
  forall k,
    insideWindow (clock - windowMs (config l1)) (recorded k l1)
    = insideWindow (clock - windowMs (config l1)) (recorded k l2).

End RateLimiterManager.

(** Sample data for the rate limiter's sweep and manager. *)

Module LimiterScenarios.
Import RateLimiter RateLimiterManager.

(** Checks of two clients with sweeps in between. *)
Definition sweptEvents : list Event :=
  [Check "ip:1.2.3.4" 10000; Check "ip:5.6.7.8" 10100; Sweep 10500;
   Check "ip:1.2.3.4" 10600; Check "ip:1.2.3.4" 10700; Sweep 11200;
   Check "ip:1.2.3.4" 11300].

(** Five requests per second, one of them used at 10000. *)
Definition burstConfig : RateLimitConfig := mkRateLimitConfig 1000 5.

Definition usedLimiter : WebSocketRateLimiter :=
  (isAllowed "ip:1.2.3.4" 10000 (create burstConfig)).2.

(** A manager whose limiter for /api/chat was swept empty. *)
Definition idleLimiters : gmap string WebSocketRateLimiter :=
  {["/api/chat" := RateLimiter.cleanup 20000 usedLimiter]}.

End LimiterScenarios.

(** * performance.ts: pool statistics, listeners and the message buffer *)

Module PoolOps.
Import Pool.

Record ConnectionPoolStats := mkPoolStats {
  active : Z;
  idle : Z;
  total : Z;
  peak : Z;
  memoryUsage : Z
}.

(** The connections without activity for more than a minute. *)
Definition idleSince (now : Z) (p : WebSocketConnectionPool)
  : gmap string ConnectionMetadata :=
  filter (fun entry => 60000 < now - lastActivity entry.2)
    (connectionMetadata p).

(** [getStats]; [heapUsed] is what [process.memoryUsage()] reports. *)
Definition getStats (now heapUsed : Z) (p : WebSocketConnectionPool)
  : ConnectionPoolStats :=
  let idle := Z.of_nat (size (idleSince now p)) in
  mkPoolStats (poolSize p - idle) idle (poolSize p)
    (connectionRate (performanceMetrics p))
    (heapUsed + poolSize p * 1024).

(** The message listener that [setupConnectionHandlers] attaches for the
    connection [id]; [dataLength] is the length of the received buffer. *)
Definition onMessage (id : string) (now dataLength : Z)
    (p : WebSocketConnectionPool) : WebSocketConnectionPool :=
  match connectionMetadata p !! id with
  | Some metadata =>
      let metrics := performanceMetrics p in
      mkPool (maxConnections p) (idleTimeout p) (connections p)
        (<[id := mkMetadata (path metadata) (connectedAt metadata) now
                   (messageCount metadata + 1)
                   (bytesReceived metadata + dataLength)
                   (bytesSent metadata)]> (connectionMetadata p))
        (mkMetrics (messageRate metrics + 1) (connectionRate metrics)
           (disconnectionRate metrics))
  | None => p
  end.

Definition resetMetrics (p : WebSocketConnectionPool)
  : WebSocketConnectionPool :=
  mkPool (maxConnections p) (idleTimeout p) (connections p)
    (connectionMetadata p) (mkMetrics 0 0 0).

(** What happens to a pool: additions, the listeners of its clients (the
    close and the error listener both call [removeConnection]) and resets
    of the metrics. *)
Inductive PoolEvent :=
| Added (id : string) (ws : nat) (path : string) (now now' : Z)
| Closed (id : string)
| Errored (id : string)
| Message (id : string) (now dataLength : Z)
| MetricsReset.

Definition react (p : WebSocketConnectionPool) (e : PoolEvent)
  : WebSocketConnectionPool :=
  match e with
  | Added id ws path now now' => (addConnection id ws path now now' p).2
  | Closed id => removeConnection id p
  | Errored id => removeConnection id p
  | Message id now dataLength => onMessage id now dataLength p
  | MetricsReset => resetMetrics p
  end.

Definition play (events : list PoolEvent) (p : WebSocketConnectionPool)
  : WebSocketConnectionPool :=
  fold_left react events p.

Definition isMetricsReset (e : PoolEvent) : bool :=
  match e with MetricsReset => true | _ => false end.

(** Both maps hold the same ids. *)
Definition inSync (p : WebSocketConnectionPool) : Prop :=
  forall id, is_Some (connections p !! id)
             <-> is_Some (connectionMetadata p !! id).

End PoolOps.

Module MessageBuffer.

(** Messages are kept as strings; [flushTimeout] tells whether the flush
    timer is pending, and [flushed] lists the batches handed to [onFlush],
    oldest first. *)
Record MessageBuffer := mkBuffer {
  maxSize : Z;
  flushInterval : Z;
  buffer : list (string * Z);
  flushTimeout : bool;
  flushed : list (list string)
}.

Definition create (maxSize flushInterval : Z) : MessageBuffer :=
  mkBuffer maxSize flushInterval [] false [].

Definition flush (b : MessageBuffer) : MessageBuffer :=
  match buffer b with
  | [] => b
  | _ =>
      mkBuffer (maxSize b) (flushInterval b) [] false
        (flushed b ++ [map fst (buffer b)])
  end.

Definition add (message : string) (now : Z) (b : MessageBuffer)
  : MessageBuffer :=
  let b := mkBuffer (maxSize b) (flushInterval b)
             (buffer b ++ [(message, now)]) (flushTimeout b) (flushed b) in
  if maxSize b <=? Z.of_nat (length (buffer b)) then flush b
  else if flushTimeout b then b
  else mkBuffer (maxSize b) (flushInterval b) (buffer b) true (flushed b).

(** The flush timer fires; it does so only while it is pending. *)
Definition timerFired (b : MessageBuffer) : MessageBuffer :=
  if flushTimeout b then flush b else b.

Definition destroy (b : MessageBuffer) : MessageBuffer :=
  let b := flush b in
  mkBuffer (maxSize b) (flushInterval b) (buffer b) false (flushed b).

Record BufferStats := mkBufferStats {
  buffered : Z;
  statsMaxSize : Z;
  oldestMessage : Z
}.

Definition getStats (now : Z) (b : MessageBuffer) : BufferStats :=
  mkBufferStats (Z.of_nat (length (buffer b))) (maxSize b)
    (match buffer b with
     | (_, timestamp) :: _ => now - timestamp
     | [] => 0
     end).

Inductive BufferCall :=
| CallAdd (message : string) (now : Z)
| CallFlush
| TimerFires
| CallDestroy.

Definition perform (b : MessageBuffer) (c : BufferCall) : MessageBuffer :=
  match c with
  | CallAdd message now => add message now b
  | CallFlush => flush b
  | TimerFires => timerFired b
  | CallDestroy => destroy b
  end.

Definition history (calls : list BufferCall) (b : MessageBuffer)
  : MessageBuffer :=
  fold_left perform calls b.

(** The messages added by the calls, in order. *)
Definition addedBy (calls : list BufferCall) : list string :=
  omap (fun c => match c with CallAdd message _ => Some message | _ => None end)
    calls.

(** What holds of a buffer that received the messages [added]. *)
Definition delivering (added : list string) (b : MessageBuffer) : Prop :=
  concat (flushed b) ++ map fst (buffer b) = added /\
  Forall (fun batch => batch <> [] /\
                       Z.of_nat (length batch) <= Z.max 1 (maxSize b))
    (flushed b) /\
  (flushTimeout b = true <-> buffer b <> []) /\
  Z.of_nat (length (buffer b)) < Z.max 1 (maxSize b).

End MessageBuffer.

(** Sample data for the pool's listeners. *)

Module PoolScenarios.
Import Pool PoolOps.

(** Two clients join, one talks, one closes after an error. *)
Definition busyEvents : list PoolEvent :=
  [Added "c-1" 1%nat "/api/echo" 1000 1000;
   Added "c-2" 2%nat "/api/chat" 1100 1100;
   Message "c-1" 90000 12; Errored "c-2"; Closed "c-2"].

End PoolScenarios.

(** * Properties *)

(** ** Recovery verdicts *)
Module ErrorsFacts.
Import Errors.

Lemma closingCodes_spec (c : string) :
  bool_decide (c ∈ closingCodes) =
  (String.eqb c "ROUTE_NOT_FOUND" || String.eqb c "HANDLER_NOT_FOUND"
   || String.eqb c "SERVER_NOT_AVAILABLE"
   || String.eqb c "CONNECTION_LIMIT_EXCEEDED")%bool.
Proof.
  unfold closingCodes.
  destruct (String.eqb_spec c "ROUTE_NOT_FOUND") as [->|n1]; [done|].
  destruct (String.eqb_spec c "HANDLER_NOT_FOUND") as [->|n2]; [done|].
  destruct (String.eqb_spec c "SERVER_NOT_AVAILABLE") as [->|n3]; [done|].
  destruct (String.eqb_spec c "CONNECTION_LIMIT_EXCEEDED") as [->|n4]; [done|].
  apply bool_decide_eq_false. rewrite !elem_of_cons, elem_of_nil. tauto.
Qed.

(** C7.  [getRecoveryStrategy] is a total function of its argument alone.
    The four kinds RouteNotFound, HandlerNotFound, ServerNotAvailable and
    ConnectionLimit yield CLOSE_CONNECTION; ModuleImport, HandlerExecution,
    any other [WebSocketError] code, any other [Error] and any value that is
    not an error yield TERMINATE_CONNECTION. *)
Theorem getRecoveryStrategy_mapping :
  (forall path, getRecoveryStrategy (RouteNotFoundError path) = CLOSE_CONNECTION) /\
  (forall path, getRecoveryStrategy (HandlerNotFoundError path) = CLOSE_CONNECTION) /\
  (forall reason,
      getRecoveryStrategy (ServerNotAvailableError reason) = CLOSE_CONNECTION) /\
  (forall shown,
      getRecoveryStrategy (ConnectionLimitError shown) = CLOSE_CONNECTION) /\
  (forall path,
      getRecoveryStrategy (ModuleImportError path) = TERMINATE_CONNECTION) /\
  (forall path msg,
      getRecoveryStrategy (HandlerExecutionError path msg) = TERMINATE_CONNECTION) /\
  (forall e,
      getRecoveryStrategy (WsError e) =
      if bool_decide (code e ∈ closingCodes)
      then CLOSE_CONNECTION else TERMINATE_CONNECTION) /\
  (forall msg, getRecoveryStrategy (PlainError msg) = TERMINATE_CONNECTION) /\
  (forall shown, getRecoveryStrategy (NonError shown) = TERMINATE_CONNECTION).
Proof.
  repeat split; try reflexivity.
  intros e. rewrite closingCodes_spec. unfold getRecoveryStrategy.
  destruct (String.eqb_spec (code e) "ROUTE_NOT_FOUND") as [->|n1]; [done|].
  destruct (String.eqb_spec (code e) "HANDLER_NOT_FOUND") as [->|n2]; [done|].
  destruct (String.eqb_spec (code e) "MODULE_IMPORT_ERROR") as [->|n3]; [done|].
  destruct (String.eqb_spec (code e) "HANDLER_EXECUTION_ERROR") as [->|n4]; [done|].
  cbn [orb].
  destruct (String.eqb (code e) "SERVER_NOT_AVAILABLE"); [done|].
  destruct (String.eqb (code e) "CONNECTION_LIMIT_EXCEEDED"); done.
Qed.

(** The advisory HTTP status of each error kind; anything that is not a
    [WebSocketError] gets 500. *)
Theorem getErrorStatusCode_mapping :
  (forall path, getErrorStatusCode (RouteNotFoundError path) = 404) /\
  (forall path, getErrorStatusCode (HandlerNotFoundError path) = 400) /\
  (forall path, getErrorStatusCode (ModuleImportError path) = 500) /\
  (forall reason, getErrorStatusCode (ServerNotAvailableError reason) = 503) /\
  (forall shown, getErrorStatusCode (ConnectionLimitError shown) = 429) /\
  (forall path msg, getErrorStatusCode (HandlerExecutionError path msg) = 500) /\
  (forall msg, getErrorStatusCode (PlainError msg) = 500) /\
  (forall shown, getErrorStatusCode (NonError shown) = 500).
Proof. repeat split. Qed.

End ErrorsFacts.

(** ** Circuit breaker *)
Module CircuitBreakerFacts.
Import CircuitBreaker.
Import Scenarios.

Lemma cleanupOldFailures_state now b :
  state (cleanupOldFailures now b) = state b.
Proof. reflexivity. Qed.

Lemma cleanupOldFailures_lastFailureTime now b :
  lastFailureTime (cleanupOldFailures now b) = lastFailureTime b.
Proof. reflexivity. Qed.

Lemma cleanupOldFailures_recount now b :
  currentFailures (cleanupOldFailures now b)
  = Z.of_nat (length (failureWindow (cleanupOldFailures now b))).
Proof. reflexivity. Qed.

Lemma config_perform b c : config (perform b c) = config b.
Proof.
  destruct c as [now|now|now now'|]; simpl; try reflexivity.
  - unfold canExecute. simpl. destruct (state b); simpl; try reflexivity.
    destruct (shouldAttemptReset _ _); reflexivity.
  - unfold recordSuccess. simpl. destruct (state b); simpl; try reflexivity.
    destruct (_ <=? _); reflexivity.
  - unfold recordFailure. simpl. destruct (state b); simpl; try reflexivity.
    destruct (_ <=? _); reflexivity.
Qed.

Lemma config_history calls b : config (history calls b) = config b.
Proof.
  revert b. induction calls as [|c calls IH]; intros b; [reflexivity|].
  simpl. unfold history in IH. rewrite IH. apply config_perform.
Qed.

Lemma stamped_create path cfg : stamped (create path cfg).
Proof. unfold stamped. simpl. discriminate. Qed.

Lemma stamped_perform b c : stampedCall c -> stamped b -> stamped (perform b c).
Proof.
  unfold stamped. intros Hc Hb.
  destruct b as [p cfg st cf tf ts lft lst tr fw cs].
  destruct c as [now|now|now now'|]; simpl in *.
  - unfold canExecute, shouldAttemptReset. simpl.
    destruct st, lft as [t|]; simpl; try done.
    destruct (t =? 0); simpl; [done|].
    destruct (_ <=? _); simpl; done.
  - unfold recordSuccess. simpl.
    destruct st, lft as [t|]; simpl; try done;
      destruct (_ <=? _); simpl; done.
  - unfold recordFailure. simpl.
    destruct st; simpl; try (destruct (_ <=? _); simpl); exact Hc.
  - destruct lft; simpl; done.
Qed.

Lemma stamped_history calls b :
  Forall stampedCall calls -> stamped b -> stamped (history calls b).
Proof.
  intros Hcalls. revert b.
  induction Hcalls as [|c calls Hc _ IH]; intros b Hb; [exact Hb|].
  simpl. apply IH. by apply stamped_perform.
Qed.

(** C6.  Take a breaker as any sequence of calls has left it (each failure
    recorded at a clock reading other than zero), and suppose it is OPEN.  Then a failure time
    [tf] is recorded, and a call of [canExecute] at time [now] returns false
    and leaves the breaker OPEN while [now - tf < resetTimeout]; once
    [now - tf >= resetTimeout] the call returns true and the breaker is
    HALF_OPEN afterwards. *)
Theorem open_breaker_waits_for_resetTimeout
    (path : string) (cfg : CircuitBreakerConfig) (calls : list Call) (now : Z) :
  Forall stampedCall calls ->
  state (history calls (create path cfg)) = OPEN ->
  exists tf,
    lastFailureTime (history calls (create path cfg)) = Some tf /\
    (now - tf < resetTimeout cfg ->
       fst (canExecute now (history calls (create path cfg))) = false /\
       state (snd (canExecute now (history calls (create path cfg)))) = OPEN) /\
    (resetTimeout cfg <= now - tf ->
       fst (canExecute now (history calls (create path cfg))) = true /\
       state (snd (canExecute now (history calls (create path cfg)))) = HALF_OPEN).
Proof.
  intros Hcalls Hopen.
  pose proof (stamped_history calls (create path cfg) Hcalls
                (stamped_create path cfg)) as Hst.
  pose proof (config_history calls (create path cfg)) as Hcfg.
  simpl in Hcfg.
  set (b := history calls (create path cfg)) in *.
  unfold stamped in Hst.
  destruct (lastFailureTime b) as [tf|] eqn:Htf; [|contradiction].
  exists tf. split; [reflexivity|].
  unfold canExecute. rewrite cleanupOldFailures_state, Hopen.
  unfold shouldAttemptReset. rewrite cleanupOldFailures_lastFailureTime, Htf.
  simpl. rewrite Hcfg.
  destruct (Z.eqb_spec tf 0) as [->|_]; [contradiction|].
  split; intros Hnow.
  - destruct (Z.leb_spec (resetTimeout cfg) (now - tf)); [lia|].
    simpl. auto.
  - destruct (Z.leb_spec (resetTimeout cfg) (now - tf)); [|lia].
    simpl. auto.
Qed.

Lemma open_breaker_waits_for_resetTimeout_witness :
  exists tf,
    lastFailureTime (history threeFailures (create "/api/ws/test" testConfig))
    = Some tf /\
    (10500 - tf < resetTimeout testConfig ->
       fst (canExecute 10500
              (history threeFailures (create "/api/ws/test" testConfig))) = false /\
       state (snd (canExecute 10500
              (history threeFailures (create "/api/ws/test" testConfig)))) = OPEN) /\
    (resetTimeout testConfig <= 10500 - tf ->
       fst (canExecute 10500
              (history threeFailures (create "/api/ws/test" testConfig))) = true /\
       state (snd (canExecute 10500
              (history threeFailures (create "/api/ws/test" testConfig))))
       = HALF_OPEN).
Proof.
  apply (open_breaker_waits_for_resetTimeout "/api/ws/test" testConfig
           threeFailures 10500).
  - unfold threeFailures. repeat constructor; discriminate.
  - vm_compute. reflexivity.
Defined.

Lemma recordFailure_closed_state now now' b :
  state b = CLOSED ->
  state (recordFailure now now' b)
  = if failureThreshold (config b)
       <=? Z.of_nat (length (windowAfterFailure now now' b))
    then OPEN else CLOSED.
Proof.
  intros Hs. unfold recordFailure, windowAfterFailure. simpl. rewrite Hs.
  destruct (_ <=? _); reflexivity.
Qed.

(** C10.  For a CLOSED breaker, [recordFailure] opens the circuit exactly
    when the pruned window (with the new failure appended) holds at least
    [failureThreshold] timestamps.  The verdict is the same for any two
    CLOSED breakers with the same window and configuration, whatever their
    failure counters; in particular a preceding [recordSuccess], which
    decrements the counter, does not change it.  Both [canExecute] and
    [recordFailure] leave the counter equal to the length of the window. *)
Theorem closed_breaker_opens_by_window_only
    (b : RouteCircuitBreaker) (now now' : Z) :
  state b = CLOSED ->
  (state (recordFailure now now' b) = OPEN <->
     failureThreshold (config b)
     <= Z.of_nat (length (windowAfterFailure now now' b))) /\
  (forall b',
      state b' = CLOSED -> failureWindow b' = failureWindow b ->
      config b' = config b ->
      state (recordFailure now now' b') = state (recordFailure now now' b)) /\
  (forall t,
      state (recordFailure now now' (recordSuccess t b))
      = state (recordFailure now now' b)) /\
  currentFailures (recordFailure now now' b)
  = Z.of_nat (length (failureWindow (recordFailure now now' b))) /\
  currentFailures (snd (canExecute now b))
  = Z.of_nat (length (failureWindow (snd (canExecute now b)))).
Proof.
  intros Hs. repeat split.
  - rewrite recordFailure_closed_state by done.
    destruct (Z.leb_spec (failureThreshold (config b))
                (Z.of_nat (length (windowAfterFailure now now' b)))); [done|].
    discriminate.
  - rewrite recordFailure_closed_state by done.
    destruct (Z.leb_spec (failureThreshold (config b))
                (Z.of_nat (length (windowAfterFailure now now' b)))); [done|].
    lia.
  - intros b' Hs' Hw Hc. rewrite !recordFailure_closed_state by done.
    unfold windowAfterFailure. by rewrite Hw, Hc.
  - intros t.
    assert (Hs' : state (recordSuccess t b) = CLOSED)
      by (unfold recordSuccess; simpl; rewrite Hs; reflexivity).
    rewrite !recordFailure_closed_state by done.
    unfold windowAfterFailure, recordSuccess. simpl. rewrite Hs. reflexivity.
  - unfold recordFailure. simpl. rewrite Hs. simpl.
    destruct (_ <=? _); reflexivity.
  - unfold canExecute. simpl. rewrite Hs. reflexivity.
Qed.

Lemma closed_breaker_opens_by_window_only_witness :
  state (recordFailure 10004 10004 decayedBreaker) = OPEN /\
  currentFailures decayedBreaker = 1.
Proof.
  split; [|vm_compute; reflexivity].
  destruct (closed_breaker_opens_by_window_only decayedBreaker 10004 10004)
    as [Hopen _].
  - vm_compute. reflexivity.
  - apply (proj2 Hopen). vm_compute. discriminate.
Defined.

(** In HALF_OPEN any failure reopens the circuit, and the success that
    brings the consecutive successes to [successThreshold] closes it with
    the failure counter reset and the window cleared. *)
Theorem half_open_breaker_transitions
    (b : RouteCircuitBreaker) (now now' : Z) :
  state b = HALF_OPEN ->
  state (recordFailure now now' b) = OPEN /\
  (successThreshold (config b) <= consecutiveSuccessesInHalfOpen b + 1 ->
     state (recordSuccess now b) = CLOSED /\
     currentFailures (recordSuccess now b) = 0 /\
     failureWindow (recordSuccess now b) = []) /\
  (consecutiveSuccessesInHalfOpen b + 1 < successThreshold (config b) ->
     state (recordSuccess now b) = HALF_OPEN /\
     consecutiveSuccessesInHalfOpen (recordSuccess now b)
     = consecutiveSuccessesInHalfOpen b + 1).
Proof.
  intros Hs. split; [|split].
  - unfold recordFailure. simpl. rewrite Hs. reflexivity.
  - intros Hreach. unfold recordSuccess. simpl. rewrite Hs. simpl.
    destruct (Z.leb_spec (successThreshold (config b))
                (consecutiveSuccessesInHalfOpen b + 1)); [|lia].
    simpl. auto.
  - intros Hshort. unfold recordSuccess. simpl. rewrite Hs. simpl.
    destruct (Z.leb_spec (successThreshold (config b))
                (consecutiveSuccessesInHalfOpen b + 1)); [lia|].
    simpl. auto.
Qed.

Lemma half_open_breaker_transitions_witness :
  state (recordFailure 11500 11500 probingBreaker) = OPEN /\
  state (recordSuccess 11501 (recordSuccess 11500 probingBreaker)) = CLOSED.
Proof.
  split.
  - apply (half_open_breaker_transitions probingBreaker 11500 11500).
    vm_compute. reflexivity.
  - apply (half_open_breaker_transitions (recordSuccess 11500 probingBreaker)
             11501 11501).
    + vm_compute. reflexivity.
    + vm_compute. discriminate.
Defined.

End CircuitBreakerFacts.

(** ** Rate limiter *)
Module RateLimiterFacts.
Import RateLimiter.
Import Scenarios.

Lemma insideWindow_app c l1 l2 :
  insideWindow c (l1 ++ l2) = insideWindow c l1 ++ insideWindow c l2.
Proof. apply filter_app. Qed.

Lemma insideWindow_later c n l :
  c <= n -> insideWindow n (insideWindow c l) = insideWindow n l.
Proof.
  intros Hcn. unfold insideWindow. induction l as [|a l IH]; [reflexivity|].
  rewrite !filter_cons. repeat case_decide; rewrite ?filter_cons, ?IH;
    repeat case_decide; try reflexivity; lia.
Qed.

Lemma insideWindow_idem n l : insideWindow n (insideWindow n l) = insideWindow n l.
Proof. apply insideWindow_later. lia. Qed.

Lemma halfOpen_le_inside w t n (l : list Z) :
  n <= t ->
  (length (inHalfOpenWindow w t l) <= length (insideWindow (n - w) l))%nat.
Proof.
  intros Hnt. unfold inHalfOpenWindow, insideWindow.
  induction l as [|a l IH]; [reflexivity|].
  rewrite !filter_cons. repeat case_decide; simpl; lia.
Qed.

Lemma recorded_isAllowed_same key now l :
  recorded key (snd (isAllowed key now l))
  = insideWindow (now - windowMs (config l)) (recorded key l)
    ++ (if fst (fst (isAllowed key now l)) then [now] else []).
Proof.
  unfold isAllowed. destruct (_ <? _); unfold recorded; simpl;
    rewrite lookup_insert_eq; simpl; [reflexivity|by rewrite app_nil_r].
Qed.

Lemma recorded_isAllowed_other k key now l :
  k <> key -> recorded k (snd (isAllowed key now l)) = recorded k l.
Proof.
  intros Hne. unfold isAllowed. destruct (_ <? _); unfold recorded; simpl;
    by rewrite lookup_insert_ne.
Qed.

Lemma config_isAllowed key now l : config (snd (isAllowed key now l)) = config l.
Proof. unfold isAllowed. destruct (_ <? _); reflexivity. Qed.

Lemma isAllowed_verdict key now l :
  fst (fst (isAllowed key now l))
  = (Z.of_nat (length (insideWindow (now - windowMs (config l)) (recorded key l)))
     <? maxRequests (config l)).
Proof. unfold isAllowed. destruct (_ <? _); reflexivity. Qed.

Lemma recorded_cleanup k now l :
  recorded k (cleanup now l)
  = insideWindow (now - windowMs (config l)) (recorded k l).
Proof.
  unfold recorded, cleanup. simpl. rewrite lookup_omap.
  destruct (requests l !! k) as [times|]; simpl; [|reflexivity].
  destruct (insideWindow _ times); reflexivity.
Qed.

Lemma admittedFor_app k log1 log2 :
  admittedFor k (log1 ++ log2) = admittedFor k log1 ++ admittedFor k log2.
Proof. unfold admittedFor. by rewrite filter_app, map_app. Qed.

Lemma admittedFor_same k now : admittedFor k [(k, now)] = [now].
Proof.
  unfold admittedFor. rewrite filter_cons. simpl.
  case_decide; [reflexivity|congruence].
Qed.

Lemma admittedFor_other k key now : k <> key -> admittedFor k [(key, now)] = [].
Proof.
  intros Hne. unfold admittedFor. rewrite filter_cons. simpl.
  case_decide; [congruence|reflexivity].
Qed.

Section Invariant.
Variable cfg : RateLimitConfig.

Lemma invariant_create clock : invariant cfg clock (create cfg, []).
Proof.
  split; [reflexivity|]. intros k. split; [reflexivity|].
  intros t. simpl. lia.
Qed.

Lemma invariant_step clock r e :
  invariant cfg clock r -> clock <= eventTime e ->
  invariant cfg (eventTime e) (step r e).
Proof.
  destruct r as [l log]. intros [Hcfg Hinv] Hclock. simpl in Hcfg.
  destruct e as [key now|now]; simpl in *.
  - pose proof (recorded_isAllowed_same key now l) as Hsame.
    pose proof (fun k => recorded_isAllowed_other k key now l) as Hother.
    pose proof (config_isAllowed key now l) as Hc.
    pose proof (isAllowed_verdict key now l) as Hv.
    destruct (isAllowed key now l) as [[allowed info] l']. simpl in *.
    rewrite Hcfg in *.
    split; [exact Hc|]. intros k. cbn [fst snd].
    destruct (Hinv k) as [Hrec Hwin].
    assert (Hkept : insideWindow (now - windowMs cfg) (recorded k l)
                    = insideWindow (now - windowMs cfg) (admittedFor k log)).
    { rewrite <- (insideWindow_later (clock - windowMs cfg)) by lia.
      rewrite Hrec. apply insideWindow_later. lia. }
    destruct (decide (k = key)) as [->|Hne].
    + rewrite Hsame, insideWindow_app, insideWindow_idem, Hkept.
      destruct allowed.
      * rewrite admittedFor_app, admittedFor_same, insideWindow_app.
        split; [reflexivity|]. intros t.
        unfold inHalfOpenWindow. rewrite filter_app, length_app.
        fold (inHalfOpenWindow (windowMs cfg) t (admittedFor key log)).
        symmetry in Hv. apply Z.ltb_lt in Hv. rewrite Hkept in Hv.
        rewrite filter_cons, filter_nil. case_decide as Hin; simpl.
        -- pose proof (halfOpen_le_inside (windowMs cfg) t now
                         (admittedFor key log)). lia.
        -- specialize (Hwin t). lia.
      * rewrite app_nil_r. split; [reflexivity|]. exact Hwin.
    + rewrite Hother by done.
      assert (Hlog : admittedFor k (if allowed then log ++ [(key, now)] else log)
                     = admittedFor k log).
      { destruct allowed; [|reflexivity].
        by rewrite admittedFor_app, admittedFor_other, app_nil_r. }
      rewrite Hlog. split; [exact Hkept|exact Hwin].
  - split; [exact Hcfg|]. intros k. cbn [fst snd].
    destruct (Hinv k) as [Hrec Hwin].
    rewrite recorded_cleanup, Hcfg, insideWindow_idem.
    split; [|exact Hwin].
    rewrite <- (insideWindow_later (clock - windowMs cfg)) by lia.
    rewrite Hrec. apply insideWindow_later. lia.
Qed.

Lemma invariant_steps events clock r :
  invariant cfg clock r -> monotoneFrom clock events ->
  exists clock', invariant cfg clock' (fold_left step events r).
Proof.
  revert clock r. induction events as [|e events IH]; intros clock r Hinv Hmono.
  - by exists clock.
  - destruct Hmono as [Hle Hmono]. simpl.
    apply (IH (eventTime e)); [|exact Hmono].
    by apply (invariant_step clock).
Qed.

Lemma invariant_run events :
  monotone events -> exists clock, invariant cfg clock (run events cfg).
Proof.
  destruct events as [|e events]; intros Hmono.
  - exists 0. apply invariant_create.
  - apply (invariant_steps (e :: events) (eventTime e)).
    + apply invariant_create.
    + split; [lia|exact Hmono].
Qed.

End Invariant.

(** C5 (amended).  For one limiter, any sequence of checks and sweeps whose
    clock readings never decrease, any client key and any instant [t]: at
    most [maxRequests] requests of that key are admitted at times in the
    half-open window [(t - windowMs, t]].  Each check keeps exactly the
    recorded timestamps that are strictly newer than [now - windowMs] (one
    that equals [now - windowMs] is dropped too), admits exactly when the
    number kept is strictly below [maxRequests], and appends [now] exactly
    on admission. *)
Theorem rate_limiter_admits_at_most_maxRequests
    (cfg : RateLimitConfig) (events : list Event) (key : string) (t : Z) :
  monotone events ->
  Z.of_nat (length (inHalfOpenWindow (windowMs cfg) t
                      (admittedFor key (snd (run events cfg)))))
  <= Z.max 0 (maxRequests cfg) /\
  (forall now l,
      fst (fst (isAllowed key now l))
      = bool_decide
          (Z.of_nat (length (insideWindow (now - windowMs (config l))
                               (recorded key l)))
           < maxRequests (config l)) /\
      recorded key (snd (isAllowed key now l))
      = insideWindow (now - windowMs (config l)) (recorded key l)
        ++ (if fst (fst (isAllowed key now l)) then [now] else [])).
Proof.
  intros Hmono. split.
  - destruct (invariant_run cfg events Hmono) as [clock [_ Hinv]].
    apply (Hinv key).
  - intros now l. split; [|apply recorded_isAllowed_same].
    rewrite isAllowed_verdict.
    destruct (Z.ltb_spec
                (Z.of_nat (length (insideWindow (now - windowMs (config l))
                                     (recorded key l))))
                (maxRequests (config l))).
    + symmetry. by apply bool_decide_eq_true.
    + symmetry. apply bool_decide_eq_false. lia.
Qed.

Lemma rate_limiter_admits_at_most_maxRequests_witness :
  Z.of_nat (length (inHalfOpenWindow (windowMs chatConfig) 10400
                      (admittedFor "ip:1.2.3.4" (snd (run chatEvents chatConfig)))))
  <= Z.max 0 (maxRequests chatConfig) /\
  admittedFor "ip:1.2.3.4" (snd (run chatEvents chatConfig)) = [10000; 10200].
Proof.
  split; [|vm_compute; reflexivity].
  apply (rate_limiter_admits_at_most_maxRequests chatConfig chatEvents
           "ip:1.2.3.4" 10400).
  simpl. lia.
Defined.

(** C5, as stated, fails at the boundary.  After a request admitted at
    5000 the check at 6000 finds the timestamp 5000 = now - windowMs, which
    is not older than now - windowMs; the code drops it and admits, where
    a check that drops only older timestamps refuses.  Both admissions lie
    in the window [5000, 6000] of length windowMs = 1000, one more than
    maxRequests = 1. *)
Lemma rate_limiter_boundary_counterexample :
  fst (fst (isAllowed "ip:1.2.3.4" 6000 (fst (run boundaryFirst boundaryConfig))))
  = true /\
  fst (isAllowedDroppingOlder "ip:1.2.3.4" 6000
         (fst (run boundaryFirst boundaryConfig))) = false /\
  admittedFor "ip:1.2.3.4" (snd (run boundaryEvents boundaryConfig))
  = [5000; 6000] /\
  maxRequests boundaryConfig
  < Z.of_nat (length (inClosedWindow (windowMs boundaryConfig) 6000
                        (admittedFor "ip:1.2.3.4"
                           (snd (run boundaryEvents boundaryConfig))))).
Proof. vm_compute. repeat split; reflexivity. Qed.

End RateLimiterFacts.

(** ** Connection pool *)
Module PoolFacts.
Import Pool.
Import Scenarios.

Lemma maxConnections_perform p c : maxConnections (perform p c) = maxConnections p.
Proof.
  destruct c as [id ws path now now'|id]; simpl.
  - unfold addConnection. destruct (_ <=? _); reflexivity.
  - unfold removeConnection.
    destruct (connections p !! id), (connectionMetadata p !! id); reflexivity.
Qed.

Lemma poolSize_removeConnection id p : poolSize (removeConnection id p) <= poolSize p.
Proof.
  unfold removeConnection, poolSize.
  destruct (connections p !! id) eqn:Hc, (connectionMetadata p !! id);
    simpl; try lia.
  rewrite map_size_delete, Hc. simpl. lia.
Qed.

Lemma poolSize_addConnection id ws path now now' p :
  poolSize (snd (addConnection id ws path now now' p))
  <= Z.max (poolSize p) (Z.min (poolSize p + 1) (maxConnections p)).
Proof.
  unfold addConnection.
  destruct (Z.leb_spec (maxConnections p) (poolSize p)); simpl; [lia|].
  unfold poolSize in *. simpl. rewrite map_size_insert.
  destruct (connections p !! id); simpl; lia.
Qed.

Lemma poolSize_history calls p :
  poolSize p <= Z.max 0 (maxConnections p) ->
  poolSize (history calls p) <= Z.max 0 (maxConnections p).
Proof.
  revert p. induction calls as [|c calls IH]; intros p Hp; [exact Hp|].
  simpl. rewrite <- (maxConnections_perform p c). apply IH.
  rewrite maxConnections_perform.
  destruct c as [id ws path now now'|id]; simpl.
  - pose proof (poolSize_addConnection id ws path now now' p). lia.
  - pose proof (poolSize_removeConnection id p). lia.
Qed.

(** C4.  [addConnection] on a pool that already holds [maxConnections]
    connections (or more) returns false and leaves the pool as it was.  When
    it returns true the pool held fewer than [maxConnections] connections
    before and holds at most [maxConnections] afterwards.  Hence a pool
    built by any sequence of additions and removals never holds more than
    [maxConnections] connections. *)
Theorem addConnection_respects_maxConnections
    (p : WebSocketConnectionPool) (id : string) (ws : nat) (path : string)
    (now now' : Z) :
  (maxConnections p <= poolSize p ->
     addConnection id ws path now now' p = (false, p)) /\
  (fst (addConnection id ws path now now' p) = true ->
     poolSize p < maxConnections p /\
     poolSize (snd (addConnection id ws path now now' p)) <= maxConnections p) /\
  (forall calls,
      poolSize (history calls (create (maxConnections p) (idleTimeout p)))
      <= Z.max 0 (maxConnections p)).
Proof.
  split; [|split].
  - intros Hfull. unfold addConnection.
    destruct (Z.leb_spec (maxConnections p) (poolSize p)); [reflexivity|lia].
  - intros Hadmitted.
    pose proof (poolSize_addConnection id ws path now now' p) as Hsize.
    unfold addConnection in Hadmitted.
    destruct (Z.leb_spec (maxConnections p) (poolSize p));
      simpl in Hadmitted; [discriminate|]. lia.
  - intros calls.
    apply (poolSize_history calls (create (maxConnections p) (idleTimeout p))).
    unfold poolSize. simpl. rewrite map_size_empty. lia.
Qed.

Lemma addConnection_respects_maxConnections_witness :
  addConnection "conn1" 1 "/api/echo" 2000 2000 fullPool = (false, fullPool) /\
  poolSize singlePool < maxConnections singlePool /\
  poolSize fullPool <= maxConnections singlePool.
Proof.
  split.
  - apply (addConnection_respects_maxConnections fullPool "conn1" 1 "/api/echo"
             2000 2000).
    vm_compute. discriminate.
  - apply (addConnection_respects_maxConnections singlePool "conn0" 0 "/api/echo"
             1000 1000).
    vm_compute. reflexivity.
Defined.

End PoolFacts.

(** ** Connection-handler cache *)
Module RouteHandlerFacts.
Import RouteHandler.
Import Scenarios.










End RouteHandlerFacts.

(** ** Connection lifecycle *)
Module LifecycleFacts.
Import Tracker Orchestrator.
Import Scenarios.

Lemma cleanupCount_app id w extra :
  length (filter (fun i => i = id) (cleanupRuns w ++ extra))
  = (cleanupCount id w + length (filter (fun i => i = id) extra))%nat.
Proof. unfold cleanupCount. by rewrite filter_app, length_app. Qed.

Lemma onConnection_clients id ws socket pathname mem result now now' w :
  clients (onConnection id ws socket pathname mem result now now' w) = clients w
  \/ exists c,
      clients (onConnection id ws socket pathname mem result now now' w)
      = <[id := c]> (clients w).
Proof.
  unfold onConnection. destruct mem; simpl; [|by left].
  destruct (Pool.addConnection _ _ _ _ _ _) as [[|] pool']; simpl; [|by left].
  destruct result; simpl; right; eexists; reflexivity.
Qed.

Lemma onConnection_cleanupRuns id ws socket pathname mem result now now' w :
  cleanupRuns (onConnection id ws socket pathname mem result now now' w)
  = cleanupRuns w.
Proof.
  unfold onConnection. destruct mem; simpl; [|reflexivity].
  destruct (Pool.addConnection _ _ _ _ _ _) as [[|] pool']; simpl; [|reflexivity].
  destruct result; reflexivity.
Qed.

Lemma clientClosed_effect id w c :
  clients w !! id = Some c ->
  (exists c',
      clients (clientClosed id w) = <[id := c']> (clients w)
      /\ cleanupListener c' = false) /\
  (cleanupRuns (clientClosed id w) = cleanupRuns w
   \/ (cleanupListener c = true
       /\ cleanupRuns (clientClosed id w) = cleanupRuns w ++ [id])).
Proof.
  intros Hc. unfold clientClosed. rewrite Hc.
  destruct c as [sock path pl cl fn hb hl]. simpl.
  unfold cleanupOnClose. simpl.
  destruct pl, cl; simpl;
    try (destruct (isConnectionCleanedUp id (tracker w)); simpl);
    try (destruct fn; simpl);
    (split; [eexists; split; [reflexivity|reflexivity]|]); auto.
Qed.

Lemma clientErrored_clients id w : clients (clientErrored id w) = clients w.
Proof.
  unfold clientErrored. destruct (clients w !! id) as [c|]; [|reflexivity].
  destruct (poolListeners c); reflexivity.
Qed.

Lemma clientErrored_cleanupRuns id w :
  cleanupRuns (clientErrored id w) = cleanupRuns w.
Proof.
  unfold clientErrored. destruct (clients w !! id) as [c|]; [|reflexivity].
  destruct (poolListeners c); reflexivity.
Qed.

Lemma react_budget w e :
  cleanupBudget w ->
  (forall id, id ∈ issuedIds [e] -> unused id w) ->
  cleanupBudget (react w e).
Proof.
  intros Hw Hfresh id. specialize (Hw id). unfold armed, cleanupCount in *.
  destruct e as [cid ws socket pathname mem result now now'|cid|cid|cid]; simpl.
  - rewrite onConnection_cleanupRuns.
    destruct (onConnection_clients cid ws socket pathname mem result now now' w)
      as [->|[c ->]]; [exact Hw|].
    destruct (decide (cid = id)) as [->|Hne].
    + destruct (Hfresh id) as [_ Hzero]; [simpl; set_solver|].
      unfold cleanupCount in Hzero. rewrite Hzero, lookup_insert_eq.
      destruct (cleanupListener c); lia.
    + by rewrite lookup_insert_ne.
  - destruct (clients w !! cid) as [c|] eqn:Hc.
    + destruct (clientClosed_effect cid w c Hc) as [[c' [-> Hc']] Hruns].
      destruct (decide (cid = id)) as [->|Hne].
      * rewrite lookup_insert_eq, Hc'. rewrite Hc in Hw.
        destruct Hruns as [->|[Harmed ->]]; [destruct (cleanupListener c); lia|].
        rewrite Harmed in Hw. rewrite filter_app, length_app.
        rewrite filter_cons, filter_nil. case_decide; simpl; lia.
      * rewrite lookup_insert_ne by done.
        destruct Hruns as [->|[_ ->]]; [exact Hw|].
        rewrite filter_app, length_app, filter_cons, filter_nil.
        case_decide; [congruence|]. simpl. lia.
    + unfold clientClosed. rewrite Hc. exact Hw.
  - rewrite clientErrored_clients, clientErrored_cleanupRuns. exact Hw.
  - exact Hw.
Qed.

Lemma react_unused w e id :
  unused id w -> id ∉ issuedIds [e] -> unused id (react w e).
Proof.
  unfold unused, cleanupCount. intros [Hnone Hzero] Hid.
  destruct e as [cid ws socket pathname mem result now now'|cid|cid|cid]; simpl.
  - rewrite onConnection_cleanupRuns.
    destruct (onConnection_clients cid ws socket pathname mem result now now' w)
      as [->|[c ->]]; [done|].
    rewrite lookup_insert_ne; [done|]. simpl in Hid. set_solver.
  - destruct (clients w !! cid) as [c|] eqn:Hc.
    + assert (cid <> id) as Hne by congruence.
      destruct (clientClosed_effect cid w c Hc) as [[c' [-> Hc']] Hruns].
      rewrite lookup_insert_ne by done. split; [done|].
      destruct Hruns as [->|[_ ->]]; [done|].
      rewrite filter_app, length_app, filter_cons, filter_nil.
      case_decide; [congruence|]. simpl. lia.
    + unfold clientClosed. rewrite Hc. done.
  - by rewrite clientErrored_clients, clientErrored_cleanupRuns.
  - done.
Qed.

Lemma issuedIds_cons e events :
  issuedIds (e :: events) = issuedIds [e] ++ issuedIds events.
Proof. destruct e; reflexivity. Qed.

Lemma play_budget events w :
  cleanupBudget w ->
  NoDup (issuedIds events) ->
  (forall id, id ∈ issuedIds events -> unused id w) ->
  cleanupBudget (play events w).
Proof.
  revert w. induction events as [|e events IH]; intros w Hw Hnd Hfresh;
    [exact Hw|].
  rewrite issuedIds_cons in Hnd, Hfresh. apply NoDup_app in Hnd.
  destruct Hnd as (_ & Hdisj & Hnd).
  simpl. apply IH; [|exact Hnd|].
  - apply react_budget; [exact Hw|]. intros id Hid. apply Hfresh. set_solver.
  - intros id Hid. apply react_unused; [apply Hfresh; set_solver|].
    intros Hin. by apply (Hdisj id).
Qed.

Lemma cleanupBudget_initial p : cleanupBudget (initialWorld p).
Proof. intros id. unfold armed, cleanupCount. simpl. rewrite lookup_empty. lia. Qed.

Lemma unused_initial p id : unused id (initialWorld p).
Proof. split; [apply lookup_empty|reflexivity]. Qed.

(** C3.  Start from a world without connections and let any sequence of
    events happen: clients are accepted (each under the id that
    [crypto.randomUUID()] issued, no id issued twice), client sockets emit
    close and error events in any order and any number of times, and the
    30 s timers that forget cleaned-up ids fire at any moment.  Then the
    user cleanup of every connection id has run at most once. *)
Theorem user_cleanup_runs_at_most_once
    (p : Pool.WebSocketConnectionPool) (events : list Event)
    (connectionId : string) :
  NoDup (issuedIds events) ->
  (cleanupCount connectionId (play events (initialWorld p)) <= 1)%nat.
Proof.
  intros Hnd.
  pose proof (play_budget events (initialWorld p) (cleanupBudget_initial p) Hnd
                (fun id _ => unused_initial p id) connectionId).
  lia.
Qed.

Lemma user_cleanup_runs_at_most_once_witness :
  (cleanupCount "c-1"
     (play overlappingEvents (initialWorld (Pool.create 1000 300000))) <= 1)%nat
  /\ cleanupRuns (play overlappingEvents (initialWorld (Pool.create 1000 300000)))
     = ["c-1"].
Proof.
  split; [|vm_compute; reflexivity].
  apply (user_cleanup_runs_at_most_once (Pool.create 1000 300000)
           overlappingEvents "c-1").
  simpl. apply NoDup_singleton.
Defined.

End LifecycleFacts.

(** ** Rapid-duplicate squelch of the tracker *)
Module TrackerFacts.
Import Tracker.
Import Scenarios.

Lemma spaced_snoc w times x :
  spaced w times -> Forall (fun a => w <= x - a) times -> spaced w (times ++ [x]).
Proof.
  induction times as [|a times IH]; simpl; intros Hs Hx.
  - split; constructor.
  - destruct Hs as [Hall Hs]. apply Forall_cons in Hx as [Hax Hx]. split.
    + apply Forall_app. split; [exact Hall|]. by constructor.
    + by apply IH.
Qed.

Lemma passedFor_snoc key log k now :
  passedFor key (log ++ [(k, now)])
  = passedFor key log ++ (if decide (k = key) then [now] else []).
Proof.
  unfold passedFor. rewrite filter_app, map_app, filter_cons, filter_nil. simpl.
  by destruct (decide (k = key)).
Qed.

Lemma spacing_step w clock r e :
  w <= 10000 ->
  spacing w clock r ->
  clock <= trackerEventTime e -> trackerEventTime e <> 0 ->
  spacing w (trackerEventTime e) (trackerStep w r e).
Proof.
  destruct r as [t log]. intros Hw Hinv Hclock Hnz key.
  destruct (Hinv key) as [Hsp Hrec]. simpl in Hsp, Hrec.
  destruct e as [url socket now|now]; simpl in *.
  - unfold isRapidDuplicate.
    destruct (decide (requestKey url socket = key)) as [<-|Hne].
    + destruct (recentUpgrades t !! requestKey url socket) as [lastRequest|]
        eqn:Hlast; simpl.
      * destruct Hrec as (Hl0 & Hlc & Hall).
        destruct (Z.eqb_spec lastRequest 0) as [|_]; [contradiction|]. simpl.
        destruct (Z.ltb_spec (now - lastRequest) w); simpl.
        -- rewrite Hlast. split; [exact Hsp|]. repeat split; [done|lia|done].
        -- rewrite lookup_insert_eq, passedFor_snoc, decide_True by done.
           split.
           ++ apply spaced_snoc; [exact Hsp|].
              eapply Forall_impl; [exact Hall|]. simpl. intros a Ha. lia.
           ++ repeat split; [done|lia|]. apply Forall_app. split.
              ** eapply Forall_impl; [exact Hall|]. simpl. intros a Ha. lia.
              ** constructor; [lia|constructor].
      * rewrite lookup_insert_eq, passedFor_snoc, decide_True by done.
        split.
        -- apply spaced_snoc; [exact Hsp|].
           eapply Forall_impl; [exact Hrec|]. simpl. intros a Ha. lia.
        -- repeat split; [done|lia|]. apply Forall_app. split.
           ++ eapply Forall_impl; [exact Hrec|]. simpl. intros a Ha. lia.
           ++ constructor; [lia|constructor].
    + assert (Hsame : passedFor key (log ++ [(requestKey url socket, now)])
                      = passedFor key log)
        by (by rewrite passedFor_snoc, decide_False, app_nil_r).
      assert (Hkeep :
                match recentUpgrades t !! key with
                | Some lastRequest =>
                    lastRequest <> 0 /\ lastRequest <= now /\
                    Forall (fun a => a <= lastRequest) (passedFor key log)
                | None => Forall (fun a => 10000 < now - a) (passedFor key log)
                end).
      { destruct (recentUpgrades t !! key) as [lastRequest|].
        - destruct Hrec as (? & ? & ?). repeat split; [done|lia|done].
        - eapply Forall_impl; [exact Hrec|]. simpl. intros a Ha. lia. }
      destruct (recentUpgrades t !! requestKey url socket) as [lastRequest|];
        simpl.
      * destruct (negb (lastRequest =? 0) && (now - lastRequest <? w)); simpl.
        -- split; [exact Hsp|exact Hkeep].
        -- rewrite lookup_insert_ne by done. rewrite Hsame.
           split; [exact Hsp|exact Hkeep].
      * rewrite lookup_insert_ne by done. rewrite Hsame.
        split; [exact Hsp|exact Hkeep].
  - split; [exact Hsp|].
    destruct (recentUpgrades t !! key) as [lastRequest|] eqn:Hlast.
    + destruct Hrec as (Hl0 & Hlc & Hall).
      destruct (decide (10000 < now - lastRequest)) as [Hold|Hyoung].
      * rewrite (proj2 (map_lookup_filter_None _ _ key)).
        -- eapply Forall_impl; [exact Hall|]. simpl. intros a Ha. lia.
        -- right. intros v Hv. simpl. rewrite Hlast in Hv. injection Hv as <-.
           tauto.
      * rewrite (proj2 (map_lookup_filter_Some _ _ key lastRequest)).
        -- repeat split; [done|lia|done].
        -- split; [exact Hlast|]. simpl. exact Hyoung.
    + rewrite (proj2 (map_lookup_filter_None _ _ key)) by (by left).
      eapply Forall_impl; [exact Hrec|]. simpl. intros a Ha. lia.
Qed.

Lemma spacing_steps w events clock r :
  w <= 10000 ->
  spacing w clock r -> tickingFrom clock events ->
  exists clock', spacing w clock' (fold_left (trackerStep w) events r).
Proof.
  intros Hw. revert clock r.
  induction events as [|e events IH]; intros clock r Hinv Hticks.
  - by exists clock.
  - destruct Hticks as (Hle & Hnz & Hticks). simpl.
    apply (IH (trackerEventTime e)); [|exact Hticks].
    by apply (spacing_step w clock).
Qed.

Lemma spacing_create w clock : spacing w clock (create, []).
Proof. intros key. simpl. rewrite lookup_empty. split; [exact I|constructor]. Qed.

(** Taken by itself the tracker's check does bound rapid duplicates: over
    any sequence of checks with a window of at most ten seconds and of
    pruning rounds, with clock readings that are never zero and never
    decrease, the checks of one key that were not flagged as duplicates
    are spaced by at least the window. *)
Theorem passed_checks_are_spaced
    (windowMs : Z) (events : list TrackerEvent) (key : string) :
  windowMs <= 10000 ->
  ticking events ->
  spaced windowMs (passedFor key (snd (trackerRun windowMs events))).
Proof.
  intros Hw Hticks. unfold trackerRun.
  destruct events as [|e events]; [exact I|].
  destruct (spacing_steps windowMs (e :: events) (trackerEventTime e)
              (create, []) Hw (spacing_create _ _) Hticks) as [clock Hinv].
  apply (Hinv key).
Qed.

Lemma passed_checks_are_spaced_witness :
  spaced defaultWindowMs
    (passedFor "/api/echo:1.2.3.4" (snd (trackerRun defaultWindowMs rapidChecks)))
  /\ passedFor "/api/echo:1.2.3.4" (snd (trackerRun defaultWindowMs rapidChecks))
     = [1000; 2500].
Proof.
  split; [|vm_compute; reflexivity].
  apply (passed_checks_are_spaced defaultWindowMs rapidChecks "/api/echo:1.2.3.4").
  - vm_compute. discriminate.
  - simpl. repeat split; (lia || discriminate).
Defined.

End TrackerFacts.

(** ** Upgrade pipeline *)
Module UpgradeFacts.
Import Errors Tracker Resolver Orchestrator.
Import Scenarios.

Lemma isSocketActive_markSocketActive socket t :
  isSocketActive socket (markSocketActive socket t) = true.
Proof. unfold isSocketActive. apply bool_decide_eq_true. simpl. set_solver. Qed.

Lemma resolveWebSocketRoute_throws pf adapter pathname error :
  resolveWebSocketRoute pf adapter pathname = inl error <->
  resolutionFailure pf adapter pathname error.
Proof.
  unfold resolveWebSocketRoute, resolutionFailure.
  destruct (resolvePathToRoute pf adapter pathname)
    as [raised|[[routeFile params]|]].
  - split.
    + intros [= <-]. do 3 right. left. by exists raised.
    + intros [[? _]|[(f & ps & Heq & _)|[(f & ps & m & Heq & _)|
              [(r & Heq & ->)|(f & ps & r & Heq & _)]]]]; simplify_eq; congruence.
  - destruct (importRouteModule adapter routeFile) as [raised|[m|]] eqn:Himport.
    + split.
      * intros [= <-]. do 4 right. by exists routeFile, params, raised.
      * intros [[? _]|[(f & ps & Heq & Hi & _)|[(f & ps & m & Heq & Hi & _)|
                [(r & Heq & _)|(f & ps & r & Heq & Hi & ->)]]]];
          simplify_eq; congruence.
    + destruct (getSocketHandler (Some m)) eqn:Hhandler; split.
      * discriminate.
      * intros [[? _]|[(f & ps & Heq & Hi & _)|[(f & ps & m' & Heq & Hi & Hh & _)|
                [(r & Heq & _)|(f & ps & r & Heq & Hi & _)]]]]; simplify_eq; congruence.
      * intros [= <-]. right. right. left. by exists routeFile, params, m.
      * intros [[? _]|[(f & ps & Heq & Hi & _)|[(f & ps & m' & Heq & Hi & Hh & ->)|
                [(r & Heq & _)|(f & ps & r & Heq & Hi & _)]]]];
          simplify_eq; congruence.
    + split.
      * intros [= <-]. right. left. by exists routeFile, params.
      * intros [[? _]|[(f & ps & Heq & Hi & ->)|[(f & ps & m' & Heq & Hi & _)|
                [(r & Heq & _)|(f & ps & r & Heq & Hi & _)]]]];
          simplify_eq; congruence.
  - split.
    + intros [= <-]. by left.
    + intros [[_ ->]|[(f & ps & Heq & _)|[(f & ps & m' & Heq & _)|
              [(r & Heq & _)|(f & ps & r & Heq & _)]]]]; simplify_eq; congruence.
Qed.

Lemma resolutionFailure_class pf adapter pathname error :
  resolutionFailure pf adapter pathname error -> isResolutionError error.
Proof.
  assert (Hre : forall raised, isResolutionError (rethrown pathname raised)).
  { intros [e|]; [by exists e|by exists (ModuleImport pathname)]. }
  intros [[_ ->]|[(f & ps & _ & _ & ->)|[(f & ps & m & _ & _ & _ & ->)|
          [(r & _ & ->)|(f & ps & r & _ & _ & ->)]]]].
  - by exists (RouteNotFound pathname).
  - by exists (ModuleImport f).
  - by exists (HandlerNotFound pathname).
  - apply Hre.
  - apply Hre.
Qed.

(** [resolveWebSocketRoute] never returns [null].  It returns a resolution
    (the route file and parameters that [resolvePathToRoute] found, with
    the handler of the imported module), or it throws an instance of
    RouteNotFoundError, HandlerNotFoundError or ModuleImportError:
    RouteNotFoundError for the pathname when no route matches,
    ModuleImportError for the route file when the import yields nothing,
    HandlerNotFoundError for the pathname when the module has no upgrade
    export, and, when the code it calls raises something (a matcher that
    throws, a default export that is a rejected promise), that value if it
    is an instance of one of the three classes and a ModuleImportError for
    the pathname otherwise. *)
Theorem resolveWebSocketRoute_throws_or_resolves
    (pf : Platform) (adapter : ServerAdapter) (pathname : string) :
  (exists error,
      resolveWebSocketRoute pf adapter pathname = inl error /\
      resolutionFailure pf adapter pathname error /\
      isResolutionError error) \/
  (exists resolution routeModule,
      resolveWebSocketRoute pf adapter pathname = inr (Some resolution) /\
      resolvePathToRoute pf adapter pathname
      = inr (Some (filePath resolution, routeParams resolution)) /\
      importRouteModule adapter (filePath resolution)
      = inr (Some routeModule) /\
      getSocketHandler (Some routeModule) = Some (handler resolution)).
Proof.
  destruct (resolveWebSocketRoute pf adapter pathname) as [error|r] eqn:Hr.
  - left. exists error. split; [reflexivity|].
    apply resolveWebSocketRoute_throws in Hr. split; [exact Hr|].
    by apply (resolutionFailure_class pf adapter pathname).
  - right. unfold resolveWebSocketRoute in Hr.
    destruct (resolvePathToRoute pf adapter pathname)
      as [raised|[[routeFile params]|]]; try discriminate.
    destruct (importRouteModule adapter routeFile) as [raised|[m|]] eqn:Hi;
      try discriminate.
    destruct (getSocketHandler (Some m)) as [h|] eqn:Hh; [|discriminate].
    injection Hr as <-. by exists (mkResolution routeFile params h), m.
Qed.

(** What is raised inside the resolver ends as a [ModuleImportError] for
    the request's pathname: a path that the matcher of a dynamic route
    cannot decode, and a module whose default export is a rejected
    promise.  A default export that is a fulfilled promise resolves to the
    module it is fulfilled with. *)
Example unexpected_errors_are_wrapped :
  resolveWebSocketRoute dynamicPlatform roomsAdapter "/api/rooms/%E0%A4%A"
  = inl (ModuleImportError "/api/rooms/%E0%A4%A") /\
  resolveWebSocketRoute dynamicPlatform roomsAdapter "/api/rooms/lobby"
  = inr (Some (mkResolution "/api/rooms/[id]/route"
                 [("id", Single "lobby")] 0)) /\
  resolveWebSocketRoute dynamicPlatform roomsAdapter "/api/late"
  = inl (ModuleImportError "/api/late") /\
  resolveWebSocketRoute dynamicPlatform roomsAdapter "/api/lazy"
  = inr (Some (mkResolution "/api/lazy/route" [] 0)).
Proof. vm_compute. repeat split; reflexivity. Qed.

(** C1 (what the code does).  Take an upgrade on a socket that is not yet
    in flight, for a parseable, non-internal path that passes the rate
    limit, and let route resolution fail: no matching route, a module that
    cannot be imported, a module without the upgrade export, or an error
    raised by the code that the resolver calls.  In each
    case [resolveWebSocketRoute] throws (it never returns [null]), and
    [handleUpgrade] ends with its promise rejected.  No handshake is
    delegated and the pool is untouched, but the raw socket is not
    destroyed and it is still in the tracker's in-flight set. *)
Theorem failed_resolution_leaves_socket_in_flight
    (pf : Platform) (server : NextServer) (wsServer : nat)
    (request : IncomingMessage) (socket : NetSocket) (now : Z) (w : World)
    (pathname : string) (error : Thrown) :
  isSocketActive socket (tracker w) = false ->
  parsePathname pf (orElse (url request) "/")
    ("ws://" +:+ orElse (host request) "localhost") = Some pathname ->
  String.prefix "/_next/" pathname = false ->
  fst (RateLimiter.checkRateLimit pathname
         (Config.rateLimit (Config.getRouteConfig (config server) pathname))
         (rateLimitKey request) now (limiters w)) = true ->
  resolutionFailure pf (serverAdapter server) pathname error ->
  fst (handleUpgrade pf server wsServer request socket now w) = Rejected error /\
  isSocketActive socket
    (tracker (snd (handleUpgrade pf server wsServer request socket now w))) = true /\
  destroyed (snd (handleUpgrade pf server wsServer request socket now w))
  = destroyed w /\
  delegated (snd (handleUpgrade pf server wsServer request socket now w))
  = delegated w /\
  pool (snd (handleUpgrade pf server wsServer request socket now w)) = pool w.
Proof.
  intros Hidle Hparse Hinternal Hrate Hfail.
  apply resolveWebSocketRoute_throws in Hfail.
  unfold handleUpgrade. rewrite Hidle, Hparse, Hinternal. simpl.
  destruct (RateLimiter.checkRateLimit _ _ _ _ _) as [allowed limiters'].
  simpl in Hrate. subst allowed. simpl. rewrite Hfail. simpl.
  repeat split; try reflexivity.
  apply isSocketActive_markSocketActive.
Qed.

Lemma failed_resolution_leaves_socket_in_flight_witness :
  fst (handleUpgrade plainPlatform demoServer 0 (upgradeFor "/nope") firstSocket
         1000 demoWorld) = Rejected (RouteNotFoundError "/nope") /\
  isSocketActive firstSocket
    (tracker (snd (handleUpgrade plainPlatform demoServer 0 (upgradeFor "/nope")
                     firstSocket 1000 demoWorld))) = true /\
  destroyed (snd (handleUpgrade plainPlatform demoServer 0 (upgradeFor "/nope")
                    firstSocket 1000 demoWorld)) = destroyed demoWorld.
Proof.
  destruct (failed_resolution_leaves_socket_in_flight plainPlatform demoServer 0
              (upgradeFor "/nope") firstSocket 1000 demoWorld "/nope"
              (RouteNotFoundError "/nope"))
    as (Hout & Hactive & Hdestroyed & _); try (vm_compute; reflexivity).
  - left. split; vm_compute; reflexivity.
  - auto.
Defined.

(** The other two failures of route resolution end the same way. *)
Example failed_import_and_missing_export :
  fst (handleUpgrade plainPlatform demoServer 0 (upgradeFor "/api/broken")
         firstSocket 1000 demoWorld)
  = Rejected (ModuleImportError "/api/broken/route") /\
  fst (handleUpgrade plainPlatform demoServer 0 (upgradeFor "/api/plain")
         firstSocket 1000 demoWorld)
  = Rejected (HandlerNotFoundError "/api/plain") /\
  fst (handleUpgrade plainPlatform demoServer 0 (upgradeFor "/api/echo")
         firstSocket 1000 demoWorld) = Delegated 7%nat.
Proof. vm_compute. repeat split; reflexivity. Qed.

Lemma isSocketActive_markSocketInactive socket t :
  isSocketActive socket (markSocketInactive socket t) = false.
Proof.
  unfold isSocketActive. apply bool_decide_eq_false. simpl.
  rewrite elem_of_difference, elem_of_singleton. tauto.
Qed.

(** An upgrade that the rate limiter rejects ends before route resolution:
    the raw socket is destroyed and released from the in-flight set, no
    factory is invoked and no handshake is delegated. *)
Theorem rate_limited_upgrade_is_destroyed
    (pf : Platform) (server : NextServer) (wsServer : nat)
    (request : IncomingMessage) (socket : NetSocket) (now : Z) (w : World)
    (pathname : string) :
  isSocketActive socket (tracker w) = false ->
  parsePathname pf (orElse (url request) "/")
    ("ws://" +:+ orElse (host request) "localhost") = Some pathname ->
  String.prefix "/_next/" pathname = false ->
  fst (RateLimiter.checkRateLimit pathname
         (Config.rateLimit (Config.getRouteConfig (config server) pathname))
         (rateLimitKey request) now (limiters w)) = false ->
  fst (handleUpgrade pf server wsServer request socket now w) = RateLimited /\
  socketId socket
    ∈ destroyed (snd (handleUpgrade pf server wsServer request socket now w)) /\
  isSocketActive socket
    (tracker (snd (handleUpgrade pf server wsServer request socket now w)))
  = false /\
  handlers (snd (handleUpgrade pf server wsServer request socket now w))
  = handlers w /\
  delegated (snd (handleUpgrade pf server wsServer request socket now w))
  = delegated w.
Proof.
  intros Hidle Hparse Hinternal Hrate.
  unfold handleUpgrade. rewrite Hidle, Hparse, Hinternal. simpl.
  destruct (RateLimiter.checkRateLimit _ _ _ _ _) as [allowed limiters'].
  simpl in Hrate. subst allowed. simpl.
  repeat split; try reflexivity; [set_solver|].
  apply isSocketActive_markSocketInactive.
Qed.

Lemma rate_limited_upgrade_is_destroyed_witness :
  fst (handleUpgrade plainPlatform limitedServer 0 (upgradeFor "/api/echo")
         thirdSocket 10400 afterTwoUpgrades) = RateLimited /\
  delegated afterTwoUpgrades = [(1%nat, "/api/echo"); (2%nat, "/api/echo")].
Proof.
  split; [|vm_compute; reflexivity].
  apply (rate_limited_upgrade_is_destroyed plainPlatform limitedServer 0
           (upgradeFor "/api/echo") thirdSocket 10400 afterTwoUpgrades
           "/api/echo"); vm_compute; reflexivity.
Defined.

(** An upgrade whose route resolves but whose factory yields no connection
    handler (it throws or returns a non-function) is refused before the
    handshake: the raw socket is destroyed and released from the in-flight
    set. *)
Theorem failed_factory_upgrade_is_destroyed
    (pf : Platform) (server : NextServer) (wsServer : nat)
    (request : IncomingMessage) (socket : NetSocket) (now : Z) (w : World)
    (pathname : string) (resolution : RouteResolutionResult) :
  isSocketActive socket (tracker w) = false ->
  parsePathname pf (orElse (url request) "/")
    ("ws://" +:+ orElse (host request) "localhost") = Some pathname ->
  String.prefix "/_next/" pathname = false ->
  fst (RateLimiter.checkRateLimit pathname
         (Config.rateLimit (Config.getRouteConfig (config server) pathname))
         (rateLimitKey request) now (limiters w)) = true ->
  resolveWebSocketRoute pf (serverAdapter server) pathname
  = inr (Some resolution) ->
  fst (RouteHandler.getOrInitializeConnectionHandler
         (userFactories server (handler resolution)) wsServer pathname
         (handlers w)) = None ->
  fst (handleUpgrade pf server wsServer request socket now w) = NoHandler /\
  socketId socket
    ∈ destroyed (snd (handleUpgrade pf server wsServer request socket now w)) /\
  isSocketActive socket
    (tracker (snd (handleUpgrade pf server wsServer request socket now w)))
  = false /\
  delegated (snd (handleUpgrade pf server wsServer request socket now w))
  = delegated w.
Proof.
  intros Hidle Hparse Hinternal Hrate Hresolved Hnone.
  unfold handleUpgrade. rewrite Hidle, Hparse, Hinternal. simpl.
  destruct (RateLimiter.checkRateLimit _ _ _ _ _) as [allowed limiters'].
  simpl in Hrate. subst allowed. simpl. rewrite Hresolved. simpl.
  destruct (RouteHandler.getOrInitializeConnectionHandler _ _ _ _)
    as [connectionHandler cache].
  simpl in Hnone. subst connectionHandler. simpl.
  repeat split; try reflexivity; [set_solver|].
  apply isSocketActive_markSocketInactive.
Qed.

Lemma failed_factory_upgrade_is_destroyed_witness :
  fst (handleUpgrade plainPlatform throwingServer 0 (upgradeFor "/api/echo")
         firstSocket 1000 demoWorld) = NoHandler /\
  isSocketActive firstSocket
    (tracker (snd (handleUpgrade plainPlatform throwingServer 0
                     (upgradeFor "/api/echo") firstSocket 1000 demoWorld)))
  = false.
Proof.
  destruct (failed_factory_upgrade_is_destroyed plainPlatform throwingServer 0
              (upgradeFor "/api/echo") firstSocket 1000 demoWorld "/api/echo"
              (mkResolution "/api/echo/route" [] 0))
    as (Hout & _ & Hreleased & _); try (vm_compute; reflexivity).
  auto.
Defined.

Lemma handleUpgrade_recentUpgrades pf server wsServer request socket now w :
  recentUpgrades (tracker (snd (handleUpgrade pf server wsServer request socket
                                  now w)))
  = recentUpgrades (tracker w).
Proof.
  unfold handleUpgrade.
  destruct (isSocketActive socket (tracker w)); [reflexivity|].
  destruct (parsePathname pf _ _) as [pathname|]; [|reflexivity].
  destruct (String.prefix "/_next/" pathname); [reflexivity|].
  destruct (RateLimiter.checkRateLimit _ _ _ _ _) as [[|] limiters'];
    simpl; [|reflexivity].
  destruct (resolveWebSocketRoute pf _ pathname) as [error|[resolution|]];
    simpl; try reflexivity.
  destruct (RouteHandler.getOrInitializeConnectionHandler _ _ _ _)
    as [[h|] cache]; reflexivity.
Qed.

Lemma handleUpgrade_outcome pf server wsServer request socket now w :
  (fst (handleUpgrade pf server wsServer request socket now w) = Ignored <->
   isSocketActive socket (tracker w) = true) /\
  (fst (handleUpgrade pf server wsServer request socket now w) = Skipped <->
   isSocketActive socket (tracker w) = false /\
   exists pathname,
     parsePathname pf (orElse (url request) "/")
       ("ws://" +:+ orElse (host request) "localhost") = Some pathname /\
     String.prefix "/_next/" pathname = true) /\
  match fst (handleUpgrade pf server wsServer request socket now w) with
  | Ignored => handleUpgrade pf server wsServer request socket now w = (Ignored, w)
  | Skipped =>
      snd (handleUpgrade pf server wsServer request socket now w)
      = set_tracker
          (markSocketInactive socket (markSocketActive socket (tracker w))) w
  | RateLimited | NoRoute | NoHandler =>
      socketId socket
        ∈ destroyed (snd (handleUpgrade pf server wsServer request socket now w))
  | Delegated _ =>
      exists pathname,
        delegated (snd (handleUpgrade pf server wsServer request socket now w))
        = delegated w ++ [(socketId socket, pathname)]
  | Rejected _ => True
  end.
Proof.
  unfold handleUpgrade.
  destruct (isSocketActive socket (tracker w)) eqn:Hactive.
  { simpl. split; [done|]. split; [|done]. split; [done|]. by intros [? _]. }
  destruct (parsePathname pf _ _) as [pathname|] eqn:Hparse; simpl.
  2:{ split; [done|]. split; [|done]. split; [done|].
      by intros (_ & ? & ? & _). }
  destruct (String.prefix "/_next/" pathname) eqn:Hinternal; simpl.
  { split; [done|]. split; [|done]. split; [|done].
    intros _. split; [done|]. by exists pathname. }
  assert (Hnot : ~ (false = false /\
                    exists pathname0,
                      Some pathname = Some pathname0 /\
                      String.prefix "/_next/" pathname0 = true)).
  { intros (_ & p0 & [= <-] & Hp). congruence. }
  destruct (RateLimiter.checkRateLimit _ _ _ _ _) as [[|] limiters'];
    simpl.
  2:{ split; [done|]. split; [done|]. set_solver. }
  destruct (resolveWebSocketRoute pf _ pathname) as [error|[resolution|]];
    simpl.
  - split; [done|]. split; done.
  - destruct (RouteHandler.getOrInitializeConnectionHandler _ _ _ _)
      as [[h|] cache]; simpl.
    + split; [done|]. split; [done|]. by exists pathname.
    + split; [done|]. split; [done|]. set_solver.
  - split; [done|]. split; [done|]. set_solver.
Qed.

(** C8 (amended).  The tracker's [isRapidDuplicate] flags a duplicate: when
    a call at a non-zero clock reading [now] was not a duplicate (so [now]
    was recorded), a later call for the same URL and the same remote address
    less than [windowMs] after it returns true and changes nothing.  The
    upgrade pipeline does not consult it: [handleUpgrade] never reads or
    writes the recent-upgrade map.  The upgrades it drops silently are
    exactly those whose socket is already in flight (nothing changes) and
    those for a path under [/_next/] (the socket is only taken into the
    in-flight set and released again).  Every other upgrade ends with the
    raw socket destroyed, with the handshake delegated for that socket, or
    with an exception. *)
Theorem rapid_duplicates_flagged_by_tracker_only :
  (forall requestUrl s1 s2 windowMs now now' t,
      remoteAddress s1 = remoteAddress s2 ->
      now <> 0 ->
      fst (isRapidDuplicate requestUrl s1 windowMs now t) = false ->
      now' - now < windowMs ->
      isRapidDuplicate requestUrl s2 windowMs now'
        (snd (isRapidDuplicate requestUrl s1 windowMs now t))
      = (true, snd (isRapidDuplicate requestUrl s1 windowMs now t))) /\
  (forall pf server wsServer request socket now w,
      recentUpgrades
        (tracker (snd (handleUpgrade pf server wsServer request socket now w)))
      = recentUpgrades (tracker w)) /\
  (forall pf server wsServer request socket now w,
      isSocketActive socket (tracker w) = true ->
      handleUpgrade pf server wsServer request socket now w = (Ignored, w)) /\
  (forall pf server wsServer request socket now w,
      (fst (handleUpgrade pf server wsServer request socket now w) = Ignored \/
       fst (handleUpgrade pf server wsServer request socket now w) = Skipped)
      <->
      (isSocketActive socket (tracker w) = true \/
       exists pathname,
         parsePathname pf (orElse (url request) "/")
           ("ws://" +:+ orElse (host request) "localhost") = Some pathname /\
         String.prefix "/_next/" pathname = true)) /\
  (forall pf server wsServer request socket now w,
      match fst (handleUpgrade pf server wsServer request socket now w) with
      | Ignored =>
          handleUpgrade pf server wsServer request socket now w = (Ignored, w)
      | Skipped =>
          snd (handleUpgrade pf server wsServer request socket now w)
          = set_tracker
              (markSocketInactive socket (markSocketActive socket (tracker w)))
              w
      | RateLimited | NoRoute | NoHandler =>
          socketId socket
            ∈ destroyed
                (snd (handleUpgrade pf server wsServer request socket now w))
      | Delegated _ =>
          exists pathname,
            delegated
              (snd (handleUpgrade pf server wsServer request socket now w))
            = delegated w ++ [(socketId socket, pathname)]
      | Rejected _ => True
      end).
Proof.
  split; [|split; [|split; [|split]]].
  - intros requestUrl s1 s2 windowMs now now' t Haddr Hnow Hfirst Hsoon.
    assert (Hkey : requestKey requestUrl s2 = requestKey requestUrl s1)
      by (unfold requestKey; by rewrite Haddr).
    assert (Hrec : recentUpgrades
                     (snd (isRapidDuplicate requestUrl s1 windowMs now t))
                   !! requestKey requestUrl s1 = Some now).
    { unfold isRapidDuplicate in *.
      destruct (recentUpgrades t !! requestKey requestUrl s1) as [lastRequest|];
        simpl in *; [|apply lookup_insert_eq].
      destruct (negb (lastRequest =? 0) && (now - lastRequest <? windowMs));
        simpl in *; [discriminate|apply lookup_insert_eq]. }
    unfold isRapidDuplicate at 1. rewrite Hkey, Hrec.
    destruct (Z.eqb_spec now 0); [contradiction|].
    destruct (Z.ltb_spec (now' - now) windowMs); [reflexivity|lia].
  - apply handleUpgrade_recentUpgrades.
  - intros pf server wsServer request socket now w Hactive.
    unfold handleUpgrade. by rewrite Hactive.
  - intros pf server wsServer request socket now w.
    destruct (handleUpgrade_outcome pf server wsServer request socket now w)
      as (Hignored & Hskipped & _).
    rewrite Hignored, Hskipped.
    destruct (isSocketActive socket (tracker w)); split.
    + intros _. by left.
    + intros _. by left.
    + intros [?|[_ H]]; [done|by right].
    + intros [?|H]; [done|by right].
  - intros pf server wsServer request socket now w.
    apply (handleUpgrade_outcome pf server wsServer request socket now w).
Qed.

Lemma rapid_duplicates_flagged_by_tracker_only_witness :
  isRapidDuplicate "/api/echo" secondSocket defaultWindowMs 1100
    (snd (isRapidDuplicate "/api/echo" firstSocket defaultWindowMs 1000
            Tracker.create))
  = (true,
     snd (isRapidDuplicate "/api/echo" firstSocket defaultWindowMs 1000
            Tracker.create)).
Proof.
  apply (proj1 rapid_duplicates_flagged_by_tracker_only).
  - reflexivity.
  - discriminate.
  - vm_compute. reflexivity.
  - vm_compute. reflexivity.
Defined.

(** C8, as stated, fails: two upgrades for the same URL from the same client
    address, on two sockets and 100 ms apart, are both processed up to the
    delegation of the handshake, although the tracker would have flagged
    the second one. *)
Lemma rapid_duplicate_processed_counterexample :
  fst (handleUpgrade plainPlatform demoServer 0 (upgradeFor "/api/echo")
         firstSocket 1000 demoWorld) = Delegated 7%nat /\
  fst (handleUpgrade plainPlatform demoServer 0 (upgradeFor "/api/echo")
         secondSocket 1100
         (snd (handleUpgrade plainPlatform demoServer 0 (upgradeFor "/api/echo")
                 firstSocket 1000 demoWorld))) = Delegated 7%nat /\
  delegated
    (snd (handleUpgrade plainPlatform demoServer 0 (upgradeFor "/api/echo")
            secondSocket 1100
            (snd (handleUpgrade plainPlatform demoServer 0
                    (upgradeFor "/api/echo") firstSocket 1000 demoWorld))))
  = [(1%nat, "/api/echo"); (2%nat, "/api/echo")] /\
  1100 - 1000 < defaultWindowMs /\
  requestKey "/api/echo" firstSocket = requestKey "/api/echo" secondSocket.
Proof. vm_compute. repeat split; reflexivity. Qed.

End UpgradeFacts.

(** ** Repeated setup *)
Module SetupFacts.
Import Resolver Orchestrator.
Import Scenarios.

Lemma clearWebSocketServer_frame p :
  world (clearWebSocketServer p) = world p /\
  globalHttpServer (clearWebSocketServer p) = globalHttpServer p /\
  constructed (clearWebSocketServer p) = constructed p /\
  serverListenerMap (clearWebSocketServer p) = serverListenerMap p /\
  upgradeListeners (clearWebSocketServer p) = upgradeListeners p /\
  closeListeners (clearWebSocketServer p) = closeListeners p /\
  globalWebSocketServer (clearWebSocketServer p) = None.
Proof.
  unfold clearWebSocketServer.
  destruct (globalWebSocketServer p) eqn:Hg; simpl; auto 10.
Qed.

Lemma clearWebSocketServer_closes p existing :
  globalWebSocketServer p = Some existing ->
  exists server,
    webSocketServers (clearWebSocketServer p) !! existing = Some server /\
    wsClosed server = true /\
    terminated (clearWebSocketServer p) = terminated p ++ wsClients server.
Proof.
  intros Hg. unfold clearWebSocketServer. rewrite Hg. simpl.
  eexists. rewrite lookup_insert_eq. split; [reflexivity|]. simpl. auto.
Qed.

(** C9 (what the code does).  When the host server that
    [setupWebSocketServer] would attach to is already in the listener map,
    the guard works as far as it goes: the call adds no upgrade or close
    listener, leaves the listener map as it is, constructs no WebSocket
    server and does not replace the connection pool.  But the clearing of
    stale state runs before the guard: the call empties the
    connection-handler cache, and it terminates the clients of the
    WebSocket server stored on [globalThis], closes that server and removes
    it from [globalThis], while the listener that stays installed keeps
    using it. *)
Theorem repeated_setup_adds_no_listener
    (nextServer : NextServer) (p : Process) (httpServer : nat)
    (existingSetup : nat * nat) :
  hostServer nextServer p = Some httpServer ->
  serverListenerMap p !! httpServer = Some existingSetup ->
  serverListenerMap (setupWebSocketServer nextServer p) = serverListenerMap p /\
  upgradeListeners (setupWebSocketServer nextServer p) = upgradeListeners p /\
  closeListeners (setupWebSocketServer nextServer p) = closeListeners p /\
  constructed (setupWebSocketServer nextServer p) = constructed p /\
  pool (world (setupWebSocketServer nextServer p)) = pool (world p) /\
  RouteHandler.connectionHandlerCache
    (handlers (world (setupWebSocketServer nextServer p))) = ∅ /\
  globalWebSocketServer (setupWebSocketServer nextServer p) = None /\
  (forall existing,
      globalWebSocketServer p = Some existing ->
      exists server,
        webSocketServers (setupWebSocketServer nextServer p) !! existing
        = Some server /\
        wsClosed server = true /\
        terminated (setupWebSocketServer nextServer p)
        = terminated p ++ wsClients server).
Proof.
  intros Hhost Hmap.
  destruct (clearWebSocketServer_frame p)
    as (Hw & Hhttp & Hn & Hm & Hu & Hc & Hg).
  pose proof (clearWebSocketServer_closes p) as Hclosed.
  unfold setupWebSocketServer, hostServer in *.
  set (q := clearWebSocketServer p) in *.
  destruct (isWebSocketSupported (serverAdapter nextServer)); simpl;
    [|rewrite Hw; auto 10].
  destruct (Config.enabled (config nextServer)); simpl; [|rewrite Hw; auto 10].
  unfold useHttpServer. simpl. rewrite Hhttp.
  destruct (globalHttpServer p) as [g|].
  - injection Hhost as ->. simpl. rewrite Hm, Hmap. simpl. rewrite Hw. auto 10.
  - rewrite Hhost. simpl. rewrite Hm, Hmap. simpl. rewrite Hw. auto 10.
Qed.

Lemma repeated_setup_adds_no_listener_witness :
  serverListenerMap (setupWebSocketServer demoServer busyProcess)
  = serverListenerMap busyProcess /\
  upgradeListeners (setupWebSocketServer demoServer busyProcess)
  = upgradeListeners busyProcess /\
  upgradeListeners busyProcess !! 0%nat = Some [0%nat] /\
  constructed (setupWebSocketServer demoServer busyProcess) = 1%nat /\
  RouteHandler.connectionHandlerCache
    (handlers (world (setupWebSocketServer demoServer busyProcess))) = ∅ /\
  globalWebSocketServer (setupWebSocketServer demoServer busyProcess) = None /\
  exists server,
    webSocketServers (setupWebSocketServer demoServer busyProcess) !! 0%nat
    = Some server /\
    wsClosed server = true /\
    terminated (setupWebSocketServer demoServer busyProcess)
    = terminated busyProcess ++ wsClients server.
Proof.
  destruct (repeated_setup_adds_no_listener demoServer busyProcess 0
              (0%nat, 0%nat))
    as (Hmap & Hup & _ & Hn & _ & Hcache & Hglobal & Hclosed);
    try (vm_compute; reflexivity).
  rewrite Hn. repeat split; try assumption; try (vm_compute; reflexivity).
  apply Hclosed. vm_compute. reflexivity.
Defined.

(** C9 on a running server: the second setup on the same host server is
    not a no-op.  With one handler cached and one client connected, it empties
    the handler cache, terminates the client, closes the WebSocket server
    that the installed upgrade handler uses and removes it from
    [globalThis]. *)
Lemma repeated_setup_clears_state_counterexample :
  setupWebSocketServer demoServer busyProcess <> busyProcess /\
  RouteHandler.connectionHandlerCache (handlers (world busyProcess))
    !! "/api/echo" = Some 7%nat /\
  RouteHandler.connectionHandlerCache
    (handlers (world (setupWebSocketServer demoServer busyProcess)))
    !! "/api/echo" = None /\
  terminated busyProcess = [] /\
  terminated (setupWebSocketServer demoServer busyProcess) = [5%nat] /\
  globalWebSocketServer busyProcess = Some 0%nat /\
  globalWebSocketServer (setupWebSocketServer demoServer busyProcess) = None /\
  wsClosed <$> webSocketServers (setupWebSocketServer demoServer busyProcess)
    !! 0%nat = Some true.
Proof.
  split.
  - intros Heq.
    assert (Hterminated :
              terminated (setupWebSocketServer demoServer busyProcess)
              = terminated busyProcess) by (by rewrite Heq).
    vm_compute in Hterminated. discriminate.
  - vm_compute. repeat split; reflexivity.
Qed.

End SetupFacts.

Module BreakerManagerFacts.
Import CircuitBreaker BreakerManager.
Import BreakerScenarios.

Lemma failuresIn_cons c calls :
  failuresIn (c :: calls)
  = (if isFailure c then 1 else 0) + failuresIn calls.
Proof.
  unfold failuresIn. destruct (isFailure c) eqn:E.
  - rewrite filter_cons_True by done. simpl length. lia.
  - rewrite filter_cons_False by (rewrite E; done). lia.
Qed.

Lemma successesIn_cons c calls :
  successesIn (c :: calls)
  = (if isSuccess c then 1 else 0) + successesIn calls.
Proof.
  unfold successesIn. destruct (isSuccess c) eqn:E.
  - rewrite filter_cons_True by done. simpl length. lia.
  - rewrite filter_cons_False by (rewrite E; done). lia.
Qed.

Lemma totals_perform b c :
  totalFailures (perform b c)
  = totalFailures b + (if isFailure c then 1 else 0) /\
  totalSuccesses (perform b c)
  = totalSuccesses b + (if isSuccess c then 1 else 0) /\
  totalRequests (perform b c)
  = totalRequests b + (if isFailure c then 1 else 0)
    + (if isSuccess c then 1 else 0).
Proof.
  destruct c as [now|now|now now'|]; simpl.
  - unfold canExecute. simpl. destruct (state b); simpl; try lia.
    destruct (shouldAttemptReset _ _); simpl; lia.
  - unfold recordSuccess. simpl. destruct (state b); simpl; try lia.
    destruct (_ <=? _); simpl; lia.
  - unfold recordFailure. simpl. destruct (state b); simpl; try lia.
    destruct (_ <=? _); simpl; lia.
  - lia.
Qed.

Lemma totals_history calls b :
  totalFailures (history calls b) = totalFailures b + failuresIn calls /\
  totalSuccesses (history calls b) = totalSuccesses b + successesIn calls /\
  totalRequests (history calls b)
  = totalRequests b + failuresIn calls + successesIn calls.
Proof.
  revert b. induction calls as [|c calls IH]; intros b.
  - unfold failuresIn, successesIn. simpl. lia.
  - change (history (c :: calls) b) with (history calls (perform b c)).
    destruct (IH (perform b c)) as (Hf & Hs & Hr).
    destruct (totals_perform b c) as (Hf' & Hs' & Hr').
    rewrite failuresIn_cons, successesIn_cons. lia.
Qed.

(** The statistics of a breaker count every recorded call of its life:
    [failures] and [successes] are the numbers of [recordFailure] and
    [recordSuccess] calls, [totalRequests] is their sum.  Neither [reset]
    nor a state change lowers them, and [canExecute] (also a refused one)
    is not counted as a request. *)
Theorem getStats_counts_recorded_calls
    (path : string) (cfg : CircuitBreakerConfig) (calls : list Call) :
  failures (getStats (history calls (create path cfg))) = failuresIn calls /\
  successes (getStats (history calls (create path cfg))) = successesIn calls /\
  statsTotalRequests (getStats (history calls (create path cfg)))
  = failuresIn calls + successesIn calls.
Proof.
  destruct (totals_history calls (create path cfg)) as (Hf & Hs & Hr).
  simpl in *. lia.
Qed.

Lemma newerThan_all cutoff times :
  Forall (fun t => cutoff < t) times -> newerThan cutoff times = times.
Proof.
  unfold newerThan. induction 1 as [|t times Ht _ IH]; [reflexivity|].
  rewrite filter_cons, decide_True by done. by rewrite IH.
Qed.

(** A CLOSED breaker whose window holds [w], all of it inside the current
    monitoring window, opens at the failure that fills the window up to
    the threshold. *)
Lemma closed_run (cfg : CircuitBreakerConfig) (t0 : Z) (calls : list Call) :
  forall b,
    config b = cfg -> state b = CLOSED ->
    Forall (fun t => t0 <= t) (failureWindow b) ->
    Z.of_nat (length (failureWindow b)) < Z.max 1 (failureThreshold cfg) ->
    Forall (within t0 (monitoringWindow cfg)) calls ->
    Forall (fun c => isReset c = false) calls ->
    Z.max 1 (failureThreshold cfg)
    <= Z.of_nat (length (failureWindow b)) + failuresIn calls ->
    exists before now now' after,
      calls = before ++ CallRecordFailure now now' :: after /\
      state (history before b) = CLOSED /\
      state (history (before ++ [CallRecordFailure now now']) b) = OPEN /\
      Z.of_nat (length (failureWindow b)) + failuresIn before + 1
      = Z.max 1 (failureThreshold cfg).
Proof.
  induction calls as [|c calls IH]; intros b Hcfg Hst Hw Hlen Hin Hnr Hmany.
  - unfold failuresIn in Hmany. simpl in Hmany. lia.
  - apply Forall_cons in Hin as [Hc Hin]. apply Forall_cons in Hnr as [Hr Hnr].
    rewrite failuresIn_cons in Hmany.
    assert (Hkeep : forall r, t0 <= r < t0 + monitoringWindow cfg ->
              newerThan (r - monitoringWindow (config b)) (failureWindow b)
              = failureWindow b).
    { intros r Hrr. apply newerThan_all. rewrite Hcfg.
      eapply Forall_impl; [exact Hw|]. simpl. intros t Ht. lia. }
    destruct c as [now|now|now now'|]; simpl in Hmany, Hr; try discriminate.
    + (* canExecute *)
      unfold within in Hc. simpl in Hc. rewrite Forall_singleton in Hc.
      assert (Hb' : perform b (CallCanExecute now)
                    = set_currentFailures
                        (Z.of_nat (length (failureWindow b))) b).
      { simpl. unfold canExecute, cleanupOldFailures.
        rewrite (Hkeep now Hc). simpl. rewrite Hst. simpl.
        destruct b; reflexivity. }
      destruct (IH (perform b (CallCanExecute now))) as
          (before & n & n' & after & Heq & Hcl & Hop & Hcount);
        [rewrite ?Hb'; simpl; try done; lia ..|].
      exists (CallCanExecute now :: before), n, n', after.
      rewrite Hb' in Hcount. simpl in Hcount.
      rewrite failuresIn_cons. simpl.
      repeat split; [by rewrite Heq|exact Hcl|exact Hop|lia].
    + (* recordSuccess *)
      assert (Hb' : state (perform b (CallRecordSuccess now)) = CLOSED /\
                    config (perform b (CallRecordSuccess now)) = cfg /\
                    failureWindow (perform b (CallRecordSuccess now))
                    = failureWindow b).
      { simpl. unfold recordSuccess. simpl. rewrite Hst. simpl. done. }
      destruct Hb' as (Hst' & Hcfg' & Hw').
      destruct (IH (perform b (CallRecordSuccess now))) as
          (before & n & n' & after & Heq & Hcl & Hop & Hcount);
        [rewrite ?Hw'; try done; lia ..|].
      exists (CallRecordSuccess now :: before), n, n', after.
      rewrite Hw' in Hcount. rewrite failuresIn_cons. simpl.
      repeat split; [by rewrite Heq|exact Hcl|exact Hop|lia].
    + (* recordFailure *)
      unfold within in Hc. simpl in Hc.
      apply Forall_cons in Hc as [Hn Hc]. rewrite Forall_singleton in Hc.
      assert (Hwin : newerThan (now' - monitoringWindow (config b))
                       (failureWindow b ++ [now])
                     = failureWindow b ++ [now]).
      { apply newerThan_all. rewrite Hcfg. apply Forall_app. split.
        - eapply Forall_impl; [exact Hw|]. simpl. intros t Ht. lia.
        - apply Forall_singleton. lia. }
      assert (Hb' :
                state (perform b (CallRecordFailure now now'))
                = (if failureThreshold cfg
                      <=? Z.of_nat (length (failureWindow b)) + 1
                   then OPEN else CLOSED) /\
                config (perform b (CallRecordFailure now now')) = cfg /\
                failureWindow (perform b (CallRecordFailure now now'))
                = failureWindow b ++ [now]).
      { simpl. unfold recordFailure, cleanupOldFailures. simpl.
        rewrite Hwin, Hst, Hcfg, length_app. simpl length.
        replace (Z.of_nat (length (failureWindow b) + 1))
          with (Z.of_nat (length (failureWindow b)) + 1) by lia.
        destruct (_ <=? _); simpl; done. }
      destruct Hb' as (Hst' & Hcfg' & Hw').
      destruct (Z.leb_spec (failureThreshold cfg)
                  (Z.of_nat (length (failureWindow b)) + 1)) as [Hreach|Hshort].
      * exists [], now, now', calls.
        unfold failuresIn at 1. simpl.
        repeat split; [exact Hst|exact Hst'|lia].
      * destruct (IH (perform b (CallRecordFailure now now'))) as
            (before & n & n' & after & Heq & Hcl & Hop & Hcount);
          [done|done| | |done|done| |].
        -- rewrite Hw'. apply Forall_app. split; [exact Hw|].
           apply Forall_singleton. lia.
        -- rewrite Hw', length_app. simpl length. lia.
        -- rewrite Hw', length_app. simpl length. lia.
        -- exists (CallRecordFailure now now' :: before), n, n', after.
           rewrite Hw', length_app in Hcount. simpl length in Hcount.
           rewrite failuresIn_cons. simpl.
           repeat split; [by rewrite Heq|exact Hcl|exact Hop|lia].
Qed.

(** Successes do not offset failures.  Take a new breaker and any calls of
    [canExecute], [recordSuccess] and [recordFailure] whose clock readings
    all lie within one monitoring window.  If at least
    max(1, failureThreshold) of them are failures, the breaker is CLOSED up
    to the failure that brings the number of failures to that bound, and
    this failure opens it. *)
Theorem failures_within_window_open_breaker
    (path : string) (cfg : CircuitBreakerConfig) (t0 : Z) (calls : list Call) :
  Forall (within t0 (monitoringWindow cfg)) calls ->
  Forall (fun c => isReset c = false) calls ->
  Z.max 1 (failureThreshold cfg) <= failuresIn calls ->
  exists before now now' after,
    calls = before ++ CallRecordFailure now now' :: after /\
    state (history before (create path cfg)) = CLOSED /\
    state (history (before ++ [CallRecordFailure now now']) (create path cfg))
    = OPEN /\
    failuresIn before + 1 = Z.max 1 (failureThreshold cfg).
Proof.
  intros Hin Hnr Hmany.
  destruct (closed_run cfg t0 calls (create path cfg)) as
      (before & n & n' & after & Heq & Hcl & Hop & Hcount);
    simpl; try done; try lia.
  exists before, n, n', after. simpl in Hcount. repeat split; try done.
Qed.

Lemma failures_within_window_open_breaker_witness :
  exists before now now' after,
    mixedCalls = before ++ CallRecordFailure now now' :: after /\
    state (history before (create "/api/ws/test" Scenarios.testConfig))
    = CLOSED /\
    state (history (before ++ [CallRecordFailure now now'])
             (create "/api/ws/test" Scenarios.testConfig)) = OPEN /\
    failuresIn before + 1
    = Z.max 1 (failureThreshold Scenarios.testConfig).
Proof.
  apply (failures_within_window_open_breaker "/api/ws/test"
           Scenarios.testConfig 10000 mixedCalls).
  - unfold mixedCalls, within. simpl.
    repeat constructor; simpl; lia.
  - unfold mixedCalls. repeat constructor.
  - vm_compute. discriminate.
Defined.

Lemma breaker_cleanup_lookup now m route b :
  cleanup now m !! route = Some b <-> m !! route = Some b /\ ~ expired now b.
Proof.
  unfold cleanup.
  apply (map_lookup_filter_Some
           (fun entry : string * RouteCircuitBreaker => ~ expired now entry.2)
           m route b).
Qed.

(** The manager creates a route's breaker on first use, with the defaults
    overridden by the configuration given then, and hands out the same
    breaker afterwards whatever configuration is passed; other routes are
    not touched.  [cleanup] keeps exactly the breakers that were never
    used or whose last recorded success or failure is at most an hour
    old. *)
Theorem getBreaker_keeps_first_breaker
    (route : string) (first later : option PartialConfig)
    (m : CircuitBreakerManager) (now : Z) :
  (m !! route = None ->
     (getBreaker route first m).1 = create route (finalConfig first)) /\
  getBreaker route later (getBreaker route first m).2
  = getBreaker route first m /\
  (forall other, other <> route ->
     (getBreaker route first m).2 !! other = m !! other) /\
  (forall b,
     cleanup now m !! route = Some b <->
     m !! route = Some b /\
     (lastActivity b = 0 \/ now - lastActivity b <= 3600000)) /\
  (forall b,
     m !! route = Some b ->
     lastFailureTime b = None -> lastSuccessTime b = None ->
     cleanup now m !! route = Some b).
Proof.
  split; [|split; [|split; [|split]]].
  - intros Hnone. unfold getBreaker. by rewrite Hnone.
  - unfold getBreaker. destruct (m !! route) as [b|] eqn:Hm; cbn [fst snd].
    + by rewrite Hm.
    + by rewrite lookup_insert_eq.
  - intros other Hother. unfold getBreaker.
    destruct (m !! route); cbn [fst snd]; [done|].
    by rewrite lookup_insert_ne.
  - intros b. rewrite breaker_cleanup_lookup. unfold expired, maxAge.
    split; intros [Hm Hfresh]; (split; [done|]).
    + destruct (decide (lastActivity b = 0)); [by left|right]. lia.
    + lia.
  - intros b Hm Hf Hs. apply breaker_cleanup_lookup. split; [done|].
    unfold expired, lastActivity. simpl. rewrite Hf, Hs. simpl. lia.
Qed.

(** [cleanup] can undo an open circuit.  A breaker that is OPEN and whose
    reset timeout has not elapsed refuses the request; when its last
    activity is more than an hour old, [cleanup] deletes it, and the
    breaker that [getBreaker] creates in its place lets the request
    through.  This needs a reset timeout above one hour. *)
Theorem cleanup_reopens_route_before_resetTimeout
    (route : string) (cfg : option PartialConfig) (m : CircuitBreakerManager)
    (b : RouteCircuitBreaker) (tf now : Z) :
  m !! route = Some b ->
  state b = OPEN ->
  lastFailureTime b = Some tf ->
  now - tf < resetTimeout (config b) ->
  expired now b ->
  (canExecute now b).1 = false /\
  cleanup now m !! route = None /\
  (canExecute now (getBreaker route cfg (cleanup now m)).1).1 = true.
Proof.
  intros Hm Hopen Htf Hwait Hexp. repeat split.
  - unfold canExecute. simpl. rewrite Hopen. unfold shouldAttemptReset.
    simpl. rewrite Htf. destruct (tf =? 0); [done|].
    destruct (Z.leb_spec (resetTimeout (config b)) (now - tf)); [lia|done].
  - destruct (cleanup now m !! route) as [b'|] eqn:Hc; [|done].
    apply breaker_cleanup_lookup in Hc as [Hm' Hfresh]. by simplify_eq.
  - assert (Hnone : cleanup now m !! route = None).
    { destruct (cleanup now m !! route) as [b'|] eqn:Hc; [|done].
      apply breaker_cleanup_lookup in Hc as [Hm' Hfresh]. by simplify_eq. }
    unfold getBreaker. rewrite Hnone. reflexivity.
Qed.

Lemma cleanup_reopens_route_before_resetTimeout_witness :
  exists b,
    patientManager !! "/api/slow" = Some b /\
    (canExecute 3700000 b).1 = false /\
    cleanup 3700000 patientManager !! "/api/slow" = None /\
    (canExecute 3700000
       (getBreaker "/api/slow" None (cleanup 3700000 patientManager)).1).1
    = true.
Proof.
  eexists. split; [vm_compute; reflexivity|].
  eapply (cleanup_reopens_route_before_resetTimeout "/api/slow" None
            patientManager _ 1000 3700000).
  - vm_compute. reflexivity.
  - reflexivity.
  - reflexivity.
  - vm_compute. reflexivity.
  - vm_compute. split; [discriminate|reflexivity].
Defined.

End BreakerManagerFacts.

Module GracefulFacts.
Import Errors CircuitBreaker BreakerManager Graceful.
Import BreakerScenarios.

Lemma getRecoveryStrategy_closes_or_terminates error :
  getRecoveryStrategy error = CLOSE_CONNECTION \/
  getRecoveryStrategy error = TERMINATE_CONNECTION.
Proof.
  destruct error as [e| |]; simpl; auto.
  repeat (match goal with
          | |- context [if ?c then _ else _] => destruct c
          end; auto).
Qed.

Lemma closeSocketGracefully_ends endThrows s :
  rawDestroyed (closeSocketGracefully endThrows s) = true \/
  (rawEnded (closeSocketGracefully endThrows s) = true /\
   (0 < closeTimeouts (closeSocketGracefully endThrows s))%nat /\
   rawDestroyed (closeTimeoutFired (closeSocketGracefully endThrows s))
   = true).
Proof.
  unfold closeSocketGracefully.
  destruct (rawDestroyed s) eqn:Hd; [by left|].
  destruct endThrows; [by left|]. right. simpl. repeat split. lia.
Qed.

(** An upgrade that [handleUpgrade] does not accept never leaves the raw
    socket open: the socket is destroyed, or it is ended with a close
    timer pending whose expiry destroys it.  The upgrade is accepted only
    when the breaker let it through and the callback resolved, and then
    the handler itself does not touch the socket; a refusal by the breaker
    never invokes the callback.  Only the breaker of the request's path
    changes. *)
Theorem refused_upgrade_closes_socket
    (pathname : string) (upgradeCallback : UpgradeCallback) (endThrows : bool)
    (at_ : Readings) (socket : RawSocket) (m : CircuitBreakerManager) :
  let result := handleUpgrade pathname upgradeCallback endThrows at_ socket m in
  let allowed := (canExecute (atCheck at_) (getBreaker pathname None m).1).1 in
  callbackInvoked result.1.1 = allowed /\
  accepted result.1.1
  = (allowed && match upgradeCallback with Resolves => true | _ => false end)
  /\
  (accepted result.1.1 = true -> result.1.2 = socket) /\
  (accepted result.1.1 = false ->
     rawDestroyed result.1.2 = true \/
     (rawEnded result.1.2 = true /\
      (0 < closeTimeouts result.1.2)%nat /\
      rawDestroyed (closeTimeoutFired result.1.2) = true)) /\
  (forall other, other <> pathname -> result.2 !! other = m !! other).
Proof.
  unfold handleUpgrade.
  destruct (getBreaker pathname None m) as [b m1] eqn:Hget. simpl.
  assert (Hother : forall other, other <> pathname -> m1 !! other = m !! other).
  { intros other Hne. unfold getBreaker in Hget.
    destruct (m !! pathname); simplify_eq; [done|].
    by rewrite lookup_insert_ne. }
  destruct (canExecute (atCheck at_) b) as [allowed b'] eqn:Hcan. simpl.
  destruct allowed; simpl.
  - destruct upgradeCallback as [|error]; simpl.
    + repeat split; try done.
      intros other Hne. rewrite lookup_insert_ne by done. by apply Hother.
    + repeat split; try done.
      * intros _. unfold handleUpgradeError.
        destruct (getRecoveryStrategy error);
          try (left; reflexivity).
        apply closeSocketGracefully_ends.
      * intros other Hne. rewrite lookup_insert_ne by done. by apply Hother.
  - repeat split; try done.
    + intros _. apply closeSocketGracefully_ends.
    + intros other Hne. rewrite lookup_insert_ne by done. by apply Hother.
Qed.

Lemma serve_fresh pathname m a :
  m !! pathname = None ->
  serve pathname m a
  = serve pathname (<[pathname := create pathname defaultConfig]> m) a.
Proof.
  intros Hnone. unfold serve, handleUpgrade, getBreaker.
  rewrite Hnone, lookup_insert_eq. reflexivity.
Qed.

(** One rejected upgrade on a CLOSED breaker whose window lies inside the
    monitoring window. *)
Lemma serve_rejected pathname m b a t0 :
  m !! pathname = Some b ->
  config b = defaultConfig -> state b = CLOSED ->
  Forall (fun t => t0 <= t) (failureWindow b) ->
  rejects a -> readingsWithin t0 300000 a ->
  exists b',
    serve pathname m a !! pathname = Some b' /\
    config b' = defaultConfig /\
    failureWindow b' = failureWindow b ++ [atRecord a.2] /\
    lastFailureTime b' = Some (atRecord a.2) /\
    state b' = (if 5 <=? Z.of_nat (length (failureWindow b)) + 1
                then OPEN else CLOSED).
Proof.
  intros Hm Hcfg Hst Hw Hrej (Hc & Hr & Hp).
  destruct a as [cb at_]. simpl in *.
  destruct cb as [|error]; [done|].
  unfold serve, handleUpgrade, getBreaker. simpl. rewrite Hm.
  assert (Hkeep : newerThan (atCheck at_ - monitoringWindow (config b))
                    (failureWindow b) = failureWindow b).
  { apply BreakerManagerFacts.newerThan_all. rewrite Hcfg. simpl.
    eapply Forall_impl; [exact Hw|]. simpl. intros t Ht. lia. }
  assert (Hkeep' : newerThan (atPrune at_ - monitoringWindow (config b))
                     (failureWindow b ++ [atRecord at_])
                   = failureWindow b ++ [atRecord at_]).
  { apply BreakerManagerFacts.newerThan_all. rewrite Hcfg. simpl.
    apply Forall_app. split.
    - eapply Forall_impl; [exact Hw|]. simpl. intros t Ht. lia.
    - apply Forall_singleton. lia. }
  unfold canExecute, cleanupOldFailures. rewrite Hkeep. simpl.
  rewrite Hst. simpl. rewrite lookup_insert_eq.
  eexists. split; [reflexivity|].
  unfold recordFailure, cleanupOldFailures. simpl.
  rewrite Hkeep', Hst, Hcfg, length_app. simpl.
  replace (Z.of_nat (length (failureWindow b) + 1))
    with (Z.of_nat (length (failureWindow b)) + 1) by lia.
  destruct (_ <=? _); simpl; done.
Qed.

Lemma failing_run pathname t0 attempts :
  forall m b,
    m !! pathname = Some b ->
    config b = defaultConfig -> state b = CLOSED ->
    Forall (fun t => t0 <= t) (failureWindow b) ->
    attempts <> [] ->
    (length (failureWindow b) + length attempts <= 5)%nat ->
    Forall rejects attempts ->
    Forall (readingsWithin t0 300000) attempts ->
    exists b' tf,
      serveAll pathname attempts m !! pathname = Some b' /\
      config b' = defaultConfig /\
      lastFailureTime b' = Some tf /\ t0 <= tf /\
      state b' = (if (length (failureWindow b) + length attempts <? 5)%nat
                  then CLOSED else OPEN).
Proof.
  induction attempts as [|a attempts IH];
    intros m b Hm Hcfg Hst Hw Hne Hlen Hrej Hin; [done|].
  apply Forall_cons in Hrej as [Ha Hrej]. apply Forall_cons in Hin as [Hi Hin].
  destruct (serve_rejected pathname m b a t0 Hm Hcfg Hst Hw Ha Hi)
    as (b1 & Hm1 & Hcfg1 & Hw1 & Hlf1 & Hst1).
  simpl in Hlen.
  change (serveAll pathname (a :: attempts) m)
    with (serveAll pathname attempts (serve pathname m a)).
  destruct attempts as [|a' attempts].
  - exists b1, (atRecord a.2). simpl.
    destruct Hi as (_ & Hr & _).
    repeat split; [exact Hm1|exact Hcfg1|exact Hlf1|lia|].
    rewrite Hst1.
    destruct (Z.leb_spec 5 (Z.of_nat (length (failureWindow b)) + 1)),
      (Nat.ltb_spec (length (failureWindow b) + 1) 5); done || lia.
  - assert (Hst1' : state b1 = CLOSED).
    { rewrite Hst1. simpl in Hlen.
      destruct (Z.leb_spec 5 (Z.of_nat (length (failureWindow b)) + 1));
        [lia|done]. }
    destruct (IH (serve pathname m a) b1) as
        (b' & tf & Hm' & Hcfg' & Hlf' & Htf & Hst'); try done.
    + rewrite Hw1. apply Forall_app. split; [exact Hw|].
      apply Forall_singleton. destruct Hi as (_ & Hr & _). lia.
    + rewrite Hw1, length_app. simpl in *. lia.
    + exists b', tf. repeat split; try done.
      rewrite Hst', Hw1, length_app. simpl.
      replace (length (failureWindow b) + 1 + S (length attempts))%nat
        with (length (failureWindow b) + S (S (length attempts)))%nat by lia.
      reflexivity.
Qed.

(** Five upgrades for a path that fail within five minutes close the path.
    Take a manager with no breaker for the path and five upgrades served
    one after the other, each let through and rejected by its callback,
    with all clock readings inside one interval of 300000 ms.  Afterwards
    the path's breaker is OPEN, and every further upgrade for the path
    whose check comes less than 60000 ms after the last failure is refused:
    the callback is not invoked, the raw socket is closed, and the breaker
    stays OPEN. *)
Theorem failing_route_is_refused
    (pathname : string) (attempts : list Attempt) (t0 : Z)
    (m : CircuitBreakerManager) :
  m !! pathname = None ->
  0 < t0 ->
  length attempts = 5%nat ->
  Forall rejects attempts ->
  Forall (readingsWithin t0 300000) attempts ->
  exists b tf,
    serveAll pathname attempts m !! pathname = Some b /\
    state b = OPEN /\
    lastFailureTime b = Some tf /\
    forall upgradeCallback endThrows at_ socket,
      atCheck at_ - tf < 60000 ->
      exists m',
        handleUpgrade pathname upgradeCallback endThrows at_ socket
          (serveAll pathname attempts m)
        = (mkUpgradeResult false false,
           closeSocketGracefully endThrows socket, m') /\
        state <$> m' !! pathname = Some OPEN.
Proof.
  intros Hnone Ht0 Hlen Hrej Hin.
  destruct attempts as [|a attempts]; [done|].
  change (serveAll pathname (a :: attempts) m)
    with (serveAll pathname attempts (serve pathname m a)).
  rewrite (serve_fresh pathname m a Hnone).
  change (serveAll pathname attempts
            (serve pathname (<[pathname:=create pathname defaultConfig]> m) a))
    with (serveAll pathname (a :: attempts)
            (<[pathname:=create pathname defaultConfig]> m)).
  destruct (failing_run pathname t0 (a :: attempts)
              (<[pathname:=create pathname defaultConfig]> m)
              (create pathname defaultConfig))
    as (b & tf & Hm & Hcfg & Hlf & Htf & Hst); try done.
  { by rewrite lookup_insert_eq. }
  { simpl in *. lia. }
  rewrite Hlen in Hst. simpl in Hst.
  exists b, tf. repeat split; try done.
  intros cb endThrows at_ socket Hsoon.
  unfold handleUpgrade, getBreaker. rewrite Hm.
  unfold canExecute. simpl. rewrite Hst. unfold shouldAttemptReset. simpl.
  rewrite Hlf, Hcfg. simpl.
  destruct (Z.eqb_spec tf 0); [lia|].
  destruct (Z.leb_spec 60000 (atCheck at_ - tf)); [lia|]. simpl.
  eexists. split; [reflexivity|].
  rewrite lookup_insert_eq. simpl. by rewrite Hst.
Qed.

Lemma failing_route_is_refused_witness :
  exists b tf,
    serveAll "/api/echo" fiveFailures empty !! "/api/echo" = Some b /\
    state b = OPEN /\
    lastFailureTime b = Some tf /\
    forall upgradeCallback endThrows at_ socket,
      atCheck at_ - tf < 60000 ->
      exists m',
        handleUpgrade "/api/echo" upgradeCallback endThrows at_ socket
          (serveAll "/api/echo" fiveFailures empty)
        = (mkUpgradeResult false false,
           closeSocketGracefully endThrows socket, m') /\
        state <$> m' !! "/api/echo" = Some OPEN.
Proof.
  apply (failing_route_is_refused "/api/echo" fiveFailures 1000 empty).
  - reflexivity.
  - lia.
  - reflexivity.
  - unfold fiveFailures. repeat constructor.
  - unfold fiveFailures, readingsWithin. repeat constructor; simpl; lia.
Defined.

(** Every connection error ends the connection.  [getRecoveryStrategy]
    yields CLOSE_CONNECTION or TERMINATE_CONNECTION for every value, so the
    RETRY and IGNORE branches of [handleConnectionError] are never taken:
    a client that is connecting or open is terminated, or [close] is
    called on it with code 1011 and reason "Connection error" and a close
    timer is left pending.  Nothing is done only for a client that is
    already closing or closed, under the strategy CLOSE_CONNECTION. *)
Theorem connection_error_ends_client
    (readyState : ReadyState) (error : Thrown) (closeThrows : bool) :
  (getRecoveryStrategy error = CLOSE_CONNECTION \/
   getRecoveryStrategy error = TERMINATE_CONNECTION) /\
  (last (handleConnectionError readyState error closeThrows).1
   = Some TerminateClient \/
   handleConnectionError readyState error closeThrows
   = ([Close 1011 "Connection error"], true) \/
   (handleConnectionError readyState error closeThrows = ([], false) /\
    getRecoveryStrategy error = CLOSE_CONNECTION /\
    (readyState = WsClosing \/ readyState = WsClosed))).
Proof.
  split; [apply getRecoveryStrategy_closes_or_terminates|].
  unfold handleConnectionError.
  destruct (getRecoveryStrategy_closes_or_terminates error) as [-> | ->];
    [|by left].
  destruct readyState, closeThrows; simpl; auto 10.
Qed.

End GracefulFacts.

Module RateLimiterManagerFacts.
Import RateLimiter RateLimiterManager.
Import LimiterScenarios.

Lemma sameCounts_later c n l1 l2 :
  c <= n -> sameCounts c l1 l2 -> sameCounts n l1 l2.
Proof.
  intros Hcn [Hcfg Hsame]. split; [exact Hcfg|]. intros k.
  rewrite <- (RateLimiterFacts.insideWindow_later
                (c - windowMs (config l1)) _ (recorded k l1)) by lia.
  rewrite Hsame. apply RateLimiterFacts.insideWindow_later. lia.
Qed.

Lemma sameCounts_isAllowed key now l1 l2 :
  sameCounts now l1 l2 ->
  (isAllowed key now l1).1 = (isAllowed key now l2).1 /\
  sameCounts now (isAllowed key now l1).2 (isAllowed key now l2).2.
Proof.
  intros [Hcfg Hsame].
  assert (Hv : (isAllowed key now l1).1 = (isAllowed key now l2).1).
  { unfold isAllowed. rewrite <- Hcfg, (Hsame key).
    destruct (_ <? _); reflexivity. }
  split; [exact Hv|].
  split; [by rewrite !RateLimiterFacts.config_isAllowed|].
  intros k. rewrite RateLimiterFacts.config_isAllowed.
  destruct (decide (k = key)) as [->|Hne].
  - rewrite !RateLimiterFacts.recorded_isAllowed_same, <- Hcfg, (Hsame key).
    by rewrite Hv.
  - rewrite !RateLimiterFacts.recorded_isAllowed_other by done. apply Hsame.
Qed.

Lemma sameCounts_cleanup now l1 l2 :
  sameCounts now l1 l2 -> sameCounts now (RateLimiter.cleanup now l1) l2.
Proof.
  intros [Hcfg Hsame]. split; [exact Hcfg|]. intros k. simpl.
  rewrite RateLimiterFacts.recorded_cleanup,
    RateLimiterFacts.insideWindow_idem.
  apply Hsame.
Qed.

Lemma sweeps_simulation events :
  forall clock r1 r2,
    sameCounts clock r1.1 r2.1 -> r1.2 = r2.2 ->
    monotoneFrom clock events ->
    (fold_left step events r1).2 = (fold_left step (checksOf events) r2).2.
Proof.
  induction events as [|e events IH]; intros clock r1 r2 Hsame Hlog Hmono.
  - exact Hlog.
  - destruct Hmono as [Hle Hmono].
    apply (sameCounts_later _ _ _ _ Hle) in Hsame.
    destruct e as [key now|now]; simpl in Hle, Hmono, Hsame.
    + unfold checksOf. rewrite filter_cons_True by done.
      fold (checksOf events). simpl fold_left.
      apply (IH now); [| |exact Hmono].
      * destruct (sameCounts_isAllowed key now _ _ Hsame) as [Hv Hs].
        destruct (isAllowed key now r1.1) as [[a1 i1] l1'].
        destruct (isAllowed key now r2.1) as [[a2 i2] l2']. exact Hs.
      * destruct (sameCounts_isAllowed key now _ _ Hsame) as [Hv Hs].
        destruct (isAllowed key now r1.1) as [[a1 i1] l1'].
        destruct (isAllowed key now r2.1) as [[a2 i2] l2'].
        simpl in *. inversion Hv; subst. by rewrite Hlog.
    + unfold checksOf. rewrite filter_cons_False by done.
      fold (checksOf events). simpl fold_left.
      apply (IH now); [|exact Hlog|exact Hmono].
      simpl. by apply sameCounts_cleanup.
Qed.

(** The periodic sweep never changes which requests are admitted.  For any
    checks and sweeps of a limiter whose clock readings never decrease,
    the log of admitted requests is the one that the checks alone, without
    any sweep, would produce. *)
Theorem sweeps_do_not_change_admissions
    (cfg : RateLimitConfig) (events : list Event) :
  monotone events ->
  (run events cfg).2 = (run (checksOf events) cfg).2.
Proof.
  intros Hmono. unfold run.
  destruct events as [|e events]; [reflexivity|].
  apply (sweeps_simulation (e :: events) (eventTime e)); [|reflexivity|].
  - split; [reflexivity|]. intros k. reflexivity.
  - split; [lia|exact Hmono].
Qed.

Lemma sweeps_do_not_change_admissions_witness :
  (run sweptEvents Scenarios.chatConfig).2
  = (run (checksOf sweptEvents) Scenarios.chatConfig).2.
Proof.
  apply (sweeps_do_not_change_admissions Scenarios.chatConfig sweptEvents).
  unfold sweptEvents. simpl. lia.
Defined.

Lemma again_verdict key now n :
  forall l,
    0 < windowMs (config l) ->
    insideWindow (now - windowMs (config l)) (recorded key l) = recorded key l ->
    (isAllowed key now (again key now n l)).1.1
    = (Z.of_nat (length (recorded key l)) + Z.of_nat n
       <? maxRequests (config l)).
Proof.
  induction n as [|n IH]; intros l Hw Hin.
  - simpl. rewrite RateLimiterFacts.isAllowed_verdict, Hin.
    by rewrite Z.add_0_r.
  - simpl again.
    pose proof (RateLimiterFacts.recorded_isAllowed_same key now l) as Hrec.
    pose proof (RateLimiterFacts.isAllowed_verdict key now l) as Hv.
    pose proof (RateLimiterFacts.config_isAllowed key now l) as Hcfg.
    rewrite Hin in Hrec, Hv. rewrite Hv in Hrec.
    rewrite IH; rewrite Hcfg; [|exact Hw|].
    + rewrite Hrec, length_app.
      destruct (Z.ltb_spec (Z.of_nat (length (recorded key l)))
                  (maxRequests (config l))); simpl length.
      * f_equal. lia.
      * rewrite Nat.add_0_r.
        destruct (Z.ltb_spec (Z.of_nat (length (recorded key l)) + Z.of_nat n)
                    (maxRequests (config l)));
          destruct (Z.ltb_spec
                      (Z.of_nat (length (recorded key l)) + Z.of_nat (S n))
                      (maxRequests (config l))); done || lia.
    + rewrite Hrec, RateLimiterFacts.insideWindow_app, Hin.
      f_equal. destruct (_ <? _); [|reflexivity].
      unfold insideWindow. rewrite filter_cons_True by lia. reflexivity.
Qed.

(** The [remaining] field of a check's answer is exact.  With a positive
    window, after a check for a key at clock reading [now] that answered
    [remaining = r], the next [r] checks for that key at the same reading
    are admitted and every one after them is refused. *)
Theorem remaining_counts_further_admissions
    (key : string) (now : Z) (l : WebSocketRateLimiter) (n : nat) :
  0 < windowMs (config l) ->
  (isAllowed key now (again key now n (isAllowed key now l).2)).1.1
  = (Z.of_nat n <? remaining (isAllowed key now l).1.2).
Proof.
  intros Hw.
  pose proof (RateLimiterFacts.recorded_isAllowed_same key now l) as Hrec.
  pose proof (RateLimiterFacts.isAllowed_verdict key now l) as Hv.
  pose proof (RateLimiterFacts.config_isAllowed key now l) as Hcfg.
  rewrite Hv in Hrec.
  rewrite again_verdict; rewrite Hcfg; [|exact Hw|].
  - rewrite Hrec, length_app. unfold isAllowed.
    set (len := Z.of_nat (length (insideWindow (now - windowMs (config l))
                                    (recorded key l)))).
    destruct (Z.ltb_spec len (maxRequests (config l))); simpl.
    + fold len.
      destruct (Z.ltb_spec (Z.of_nat (length (insideWindow
                     (now - windowMs (config l)) (recorded key l)) + 1)
                  + Z.of_nat n) (maxRequests (config l)));
        destruct (Z.ltb_spec (Z.of_nat n)
                    (Z.max 0 (Z.max 0 (maxRequests (config l) - len) - 1)));
        done || lia.
    + fold len.
      destruct (Z.ltb_spec (Z.of_nat (length (insideWindow
                     (now - windowMs (config l)) (recorded key l)) + 0)
                  + Z.of_nat n) (maxRequests (config l)));
        destruct (Z.ltb_spec (Z.of_nat n)
                    (Z.max 0 (maxRequests (config l) - len)));
        done || lia.
  - rewrite Hrec, RateLimiterFacts.insideWindow_app,
      RateLimiterFacts.insideWindow_idem.
    f_equal. destruct (_ <? _); [|reflexivity].
    unfold insideWindow. rewrite filter_cons_True by lia. reflexivity.
Qed.

Lemma remaining_counts_further_admissions_witness :
  (isAllowed "ip:1.2.3.4" 10000
     (again "ip:1.2.3.4" 10000 3
        (isAllowed "ip:1.2.3.4" 10000 (create burstConfig)).2)).1.1 = true /\
  (isAllowed "ip:1.2.3.4" 10000
     (again "ip:1.2.3.4" 10000 4
        (isAllowed "ip:1.2.3.4" 10000 (create burstConfig)).2)).1.1 = false.
Proof.
  split.
  - rewrite (remaining_counts_further_admissions "ip:1.2.3.4" 10000
               (create burstConfig) 3); [reflexivity|simpl; lia].
  - rewrite (remaining_counts_further_admissions "ip:1.2.3.4" 10000
               (create burstConfig) 4); [reflexivity|simpl; lia].
Defined.

Lemma limiter_cleanup_lookup limiters route l :
  RateLimiterManager.cleanup limiters !! route = Some l
  <-> limiters !! route = Some l /\ requests l <> ∅.
Proof.
  unfold RateLimiterManager.cleanup.
  rewrite (map_lookup_filter_Some
             (fun entry : string * WebSocketRateLimiter =>
                activeKeys (getStats entry.2) <> 0%nat) limiters route l).
  simpl. by rewrite map_size_non_empty_iff.
Qed.

(** The manager's cleanup forgets nothing that counts.  It deletes only
    limiters whose map of keys is empty, so a route whose configured limit
    did not change gets the same answer from [checkRateLimit] whether or
    not the cleanup ran before, and its limiter is the same afterwards. *)
Theorem manager_cleanup_does_not_change_verdicts
    (limiters : gmap string WebSocketRateLimiter) (routePath : string)
    (cfg : RateLimitConfig) (key : string) (now : Z) :
  (forall l, limiters !! routePath = Some l -> config l = cfg) ->
  (checkRateLimit routePath (Some cfg) key now
     (RateLimiterManager.cleanup limiters)).1
  = (checkRateLimit routePath (Some cfg) key now limiters).1 /\
  (checkRateLimit routePath (Some cfg) key now
     (RateLimiterManager.cleanup limiters)).2 !! routePath
  = (checkRateLimit routePath (Some cfg) key now limiters).2 !! routePath.
Proof.
  intros Hcfg. unfold checkRateLimit, getLimiter.
  destruct (limiters !! routePath) as [l|] eqn:Hl.
  - destruct (decide (requests l = ∅)) as [Hempty|Hkeys].
    + assert (Hgone : RateLimiterManager.cleanup limiters !! routePath = None).
      { destruct (RateLimiterManager.cleanup limiters !! routePath) as [l'|]
          eqn:Hc; [|done].
        apply limiter_cleanup_lookup in Hc as [Hl' Hne]. by simplify_eq. }
      rewrite Hgone.
      assert (Hfresh : l = create cfg).
      { assert (Hc : config l = cfg) by (by apply Hcfg).
        destruct l as [c r]. simpl in *. by subst. }
      rewrite Hfresh.
      destruct (isAllowed key now (create cfg)) as [[allowed info] l'].
      simpl. by rewrite !lookup_insert_eq.
    + rewrite (proj2 (limiter_cleanup_lookup limiters routePath l)) by done.
      destruct (isAllowed key now l) as [[allowed info] l'].
      simpl. by rewrite !lookup_insert_eq.
  - assert (Hgone : RateLimiterManager.cleanup limiters !! routePath = None).
    { destruct (RateLimiterManager.cleanup limiters !! routePath) as [l'|]
        eqn:Hc; [|done].
      apply limiter_cleanup_lookup in Hc as [Hl' Hne]. by simplify_eq. }
    rewrite Hgone.
    destruct (isAllowed key now (create cfg)) as [[allowed info] l'].
    simpl. by rewrite !lookup_insert_eq.
Qed.

Lemma manager_cleanup_does_not_change_verdicts_witness :
  RateLimiterManager.cleanup idleLimiters = ∅ /\
  (checkRateLimit "/api/chat" (Some burstConfig) "ip:1.2.3.4" 20100
     (RateLimiterManager.cleanup idleLimiters)).1
  = (checkRateLimit "/api/chat" (Some burstConfig) "ip:1.2.3.4" 20100
       idleLimiters).1.
Proof.
  split; [vm_compute; reflexivity|].
  apply (manager_cleanup_does_not_change_verdicts idleLimiters "/api/chat"
           burstConfig "ip:1.2.3.4" 20100).
  intros l Hl. vm_compute in Hl. by simplify_eq.
Defined.

End RateLimiterManagerFacts.

Module PoolOpsFacts.
Import Pool PoolOps.
Import PoolScenarios.

Lemma inSync_create maxConnections idleTimeout :
  inSync (Pool.create maxConnections idleTimeout).
Proof. intros id. simpl. by rewrite !lookup_empty. Qed.

Lemma inSync_react p e : inSync p -> inSync (react p e).
Proof.
  intros Hp id. specialize (Hp id).
  destruct e as [k ws path now now'|k|k|k now len|]; simpl.
  - unfold addConnection. destruct (_ <=? _); simpl; [exact Hp|].
    destruct (decide (id = k)) as [->|Hne].
    + rewrite !lookup_insert_eq. split; intros _; eauto.
    + by rewrite !lookup_insert_ne.
  - unfold removeConnection.
    destruct (connections p !! k), (connectionMetadata p !! k);
      simpl; try exact Hp.
    destruct (decide (id = k)) as [->|Hne].
    + rewrite !lookup_delete_eq. split; intros []; done.
    + by rewrite !lookup_delete_ne.
  - unfold removeConnection.
    destruct (connections p !! k), (connectionMetadata p !! k);
      simpl; try exact Hp.
    destruct (decide (id = k)) as [->|Hne].
    + rewrite !lookup_delete_eq. split; intros []; done.
    + by rewrite !lookup_delete_ne.
  - unfold onMessage.
    destruct (connectionMetadata p !! k) as [md|] eqn:Hk; simpl; [|exact Hp].
    destruct (decide (id = k)) as [->|Hne].
    + rewrite lookup_insert_eq. rewrite Hk in Hp.
      split; intros _; [eauto|]. apply Hp. eauto.
    + by rewrite lookup_insert_ne.
  - exact Hp.
Qed.

Lemma inSync_play events p : inSync p -> inSync (play events p).
Proof.
  revert p. induction events as [|e events IH]; intros p Hp; [exact Hp|].
  simpl. apply IH. by apply inSync_react.
Qed.

Lemma inSync_size p :
  inSync p -> size (connectionMetadata p) = size (connections p).
Proof.
  intros Hp. rewrite <- !size_dom. f_equal. apply set_eq. intros id.
  rewrite !elem_of_dom. symmetry. apply Hp.
Qed.

(** After any additions, closes, errors, messages and metric resets the
    pool's two maps hold the same ids, so [getStats] splits the pooled
    connections into idle and active ones: neither count is negative and
    they add up to the total. *)
Theorem getStats_splits_connections
    (maxConnections idleTimeout : Z) (events : list PoolEvent)
    (now heapUsed : Z) :
  let p := play events (Pool.create maxConnections idleTimeout) in
  inSync p /\
  active (getStats now heapUsed p) + idle (getStats now heapUsed p)
  = total (getStats now heapUsed p) /\
  0 <= idle (getStats now heapUsed p) /\
  0 <= active (getStats now heapUsed p) /\
  total (getStats now heapUsed p) = Z.of_nat (size (connections p)).
Proof.
  intros p.
  assert (Hp : inSync p) by apply inSync_play, inSync_create.
  split; [exact Hp|]. simpl.
  assert (Hle : (size (idleSince now p) <= size (connections p))%nat).
  { rewrite <- (inSync_size p Hp). apply map_size_filter. }
  unfold poolSize. repeat split; lia.
Qed.

(** The counters of the pool between two resets of its metrics. *)
Lemma counters_react p e :
  isMetricsReset e = false ->
  poolSize p + disconnectionRate (performanceMetrics p)
  <= connectionRate (performanceMetrics p) ->
  poolSize (react p e) + disconnectionRate (performanceMetrics (react p e))
  <= connectionRate (performanceMetrics (react p e)) /\
  connectionRate (performanceMetrics p)
  <= connectionRate (performanceMetrics (react p e)).
Proof.
  intros Hne Hp.
  assert (Hremove : forall k,
    poolSize (removeConnection k p)
    + disconnectionRate (performanceMetrics (removeConnection k p))
    <= connectionRate (performanceMetrics (removeConnection k p)) /\
    connectionRate (performanceMetrics p)
    <= connectionRate (performanceMetrics (removeConnection k p))).
  { intros k. unfold removeConnection, poolSize in *.
    destruct (connections p !! k) eqn:Hc, (connectionMetadata p !! k);
      simpl; try lia.
    rewrite map_size_delete, Hc.
    assert (size (connections p) <> 0%nat).
    { apply map_size_non_empty_iff. intros Hempty.
      by rewrite Hempty, lookup_empty in Hc. }
    lia. }
  destruct e as [k ws path now now'|k|k|k now len|]; simpl; try done.
  - unfold addConnection, poolSize in *.
    destruct (_ <=? _); simpl; [lia|].
    rewrite map_size_insert. destruct (connections p !! k); simpl; lia.
  - unfold onMessage, poolSize in *.
    destruct (connectionMetadata p !! k); simpl; lia.
Qed.

Lemma recorded_disconnections_react p e :
  0 <= disconnectionRate (performanceMetrics p) ->
  0 <= disconnectionRate (performanceMetrics (react p e)).
Proof.
  intros Hd.
  destruct e as [k ws path now now'|k|k|k now len|]; simpl; try done.
  - unfold addConnection. destruct (_ <=? _); simpl; lia.
  - unfold removeConnection.
    destruct (connections p !! k), (connectionMetadata p !! k); simpl; lia.
  - unfold removeConnection.
    destruct (connections p !! k), (connectionMetadata p !! k); simpl; lia.
  - unfold onMessage. destruct (connectionMetadata p !! k); simpl; lia.
Qed.

Lemma counters_play events :
  forall p,
    Forall (fun e => isMetricsReset e = false) events ->
    poolSize p + disconnectionRate (performanceMetrics p)
    <= connectionRate (performanceMetrics p) ->
    0 <= disconnectionRate (performanceMetrics p) ->
    poolSize (play events p)
    + disconnectionRate (performanceMetrics (play events p))
    <= connectionRate (performanceMetrics (play events p)) /\
    0 <= disconnectionRate (performanceMetrics (play events p)).
Proof.
  induction events as [|e events IH]; intros p Hev Hp Hd; [done|].
  apply Forall_cons in Hev as [He Hev]. simpl. apply IH; [exact Hev| |].
  - by apply counters_react.
  - by apply recorded_disconnections_react.
Qed.

(** The [peak] of the statistics is the counter of accepted additions.
    As long as the metrics are not reset it never decreases, and the
    pooled connections together with the recorded disconnections never
    exceed it; in particular [total <= peak].  A reset of the metrics
    sets it to zero whatever the pool holds. *)
Theorem peak_counts_additions
    (maxConnections idleTimeout : Z) (events : list PoolEvent)
    (now heapUsed : Z) :
  Forall (fun e => isMetricsReset e = false) events ->
  let p := play events (Pool.create maxConnections idleTimeout) in
  total (getStats now heapUsed p) + disconnectionRate (performanceMetrics p)
  <= peak (getStats now heapUsed p) /\
  total (getStats now heapUsed p) <= peak (getStats now heapUsed p) /\
  (forall e,
     isMetricsReset e = false ->
     peak (getStats now heapUsed p) <= peak (getStats now heapUsed (react p e)))
  /\
  peak (getStats now heapUsed (react p MetricsReset)) = 0 /\
  total (getStats now heapUsed (react p MetricsReset))
  = total (getStats now heapUsed p).
Proof.
  intros Hevents p.
  destruct (counters_play events (Pool.create maxConnections idleTimeout)
              Hevents) as [Hinv Hd].
  { unfold poolSize. simpl. rewrite map_size_empty. lia. }
  { simpl. lia. }
  fold p in Hinv, Hd. simpl.
  split; [exact Hinv|]. split; [lia|]. split; [|done].
  intros e He. by apply counters_react.
Qed.

Lemma peak_counts_additions_witness :
  total (getStats 100000 0 (play busyEvents (Pool.create 10 300000))) = 1 /\
  peak (getStats 100000 0 (play busyEvents (Pool.create 10 300000))) = 2 /\
  total (getStats 100000 0 (play busyEvents (Pool.create 10 300000)))
  <= peak (getStats 100000 0 (play busyEvents (Pool.create 10 300000))).
Proof.
  split; [vm_compute; reflexivity|]. split; [vm_compute; reflexivity|].
  assert (Hevents : Forall (fun e => isMetricsReset e = false) busyEvents)
    by (unfold busyEvents; repeat constructor).
  pose proof (peak_counts_additions 10 300000 busyEvents 100000 0 Hevents)
    as Hpeak.
  cbv zeta in Hpeak. destruct Hpeak as (_ & Hle & _). exact Hle.
Defined.

End PoolOpsFacts.

Module MessageBufferFacts.
Import MessageBuffer.

Lemma delivering_flush added b : delivering added b -> delivering added (flush b).
Proof.
  intros Hd. unfold flush.
  destruct (buffer b) as [|m rest] eqn:Hb; [exact Hd|].
  destruct Hd as (Hall & Hbatches & Htimer & Hlen). rewrite Hb in *.
  unfold delivering. simpl. repeat split; try done.
  - rewrite concat_app. simpl. rewrite app_nil_r, app_nil_r. exact Hall.
  - apply Forall_app. split; [exact Hbatches|]. apply Forall_singleton.
    split; [done|]. simpl in *. rewrite length_map. lia.
  - lia.
Qed.

Lemma delivering_perform added b c :
  delivering added b ->
  delivering (added ++ addedBy [c]) (perform b c) /\
  maxSize (perform b c) = maxSize b.
Proof.
  intros Hb.
  assert (Hflush : maxSize (flush b) = maxSize b).
  { unfold flush. destruct (buffer b); reflexivity. }
  destruct c as [message now| | |]; simpl.
  - split; [|unfold add; simpl;
             destruct (_ <=? _); [unfold flush; simpl;
                                  destruct (buffer b ++ _); reflexivity|];
             destruct (flushTimeout b); reflexivity].
    destruct Hb as (Hall & Hbatches & Htimer & Hlen).
    unfold add. simpl.
    destruct (Z.leb_spec (maxSize b)
                (Z.of_nat (length (buffer b ++ [(message, now)]))))
      as [Hfull|Hroom].
    + rewrite length_app in Hfull. simpl in Hfull.
      unfold flush. simpl.
      destruct (buffer b ++ [(message, now)]) as [|m rest] eqn:Hnew.
      { by destruct (buffer b). }
      rewrite <- Hnew. unfold delivering. simpl.
      repeat split; try done.
      * rewrite concat_app. simpl. rewrite !app_nil_r, map_app. simpl.
        by rewrite app_assoc, Hall.
      * apply Forall_app. split; [exact Hbatches|]. apply Forall_singleton.
        split; [by destruct (buffer b)|].
        rewrite length_map, length_app. simpl. lia.
      * lia.
    + rewrite length_app in Hroom. simpl in Hroom.
      assert (Hgoal :
                delivering (added ++ [message])
                  (mkBuffer (maxSize b) (flushInterval b)
                     (buffer b ++ [(message, now)]) true (flushed b))).
      { unfold delivering. simpl. repeat split; try done.
        - rewrite map_app. simpl. by rewrite app_assoc, Hall.
        - by destruct (buffer b).
        - rewrite length_app. simpl. lia. }
      destruct (flushTimeout b); exact Hgoal.
  - rewrite app_nil_r. split; [by apply delivering_flush|exact Hflush].
  - rewrite app_nil_r. unfold timerFired.
    destruct (flushTimeout b); [|done].
    split; [by apply delivering_flush|exact Hflush].
  - rewrite app_nil_r. unfold destroy. simpl. split; [|exact Hflush].
    pose proof (delivering_flush added b Hb) as (Hall & Hbatches & Htimer & Hlen).
    assert (Hempty : buffer (flush b) = []).
    { unfold flush. destruct (buffer b) eqn:Hbuf; [exact Hbuf|reflexivity]. }
    unfold delivering. simpl. rewrite Hempty in *.
    repeat split; try done.
Qed.

Lemma delivering_history calls :
  forall added b,
    delivering added b ->
    delivering (added ++ addedBy calls) (history calls b) /\
    maxSize (history calls b) = maxSize b.
Proof.
  induction calls as [|c calls IH]; intros added b Hb.
  - simpl. by rewrite app_nil_r.
  - destruct (delivering_perform added b c Hb) as [Hc Hmax].
    destruct (IH _ _ Hc) as [Hrest Hmax'].
    change (history (c :: calls) b) with (history calls (perform b c)).
    split; [|congruence].
    replace (added ++ addedBy (c :: calls))
      with ((added ++ addedBy [c]) ++ addedBy calls); [exact Hrest|].
    rewrite <- app_assoc. f_equal.
    unfold addedBy. simpl. destruct c; reflexivity.
Qed.

(** A message buffer loses and reorders nothing.  After any calls of
    [add], [flush] and [destroy] and any firing of the flush timer, the
    batches handed to [onFlush], followed by what is still buffered, are
    exactly the messages added, in order.  No batch is empty or longer
    than max(1, maxSize); fewer than max(1, maxSize) messages are buffered;
    and the flush timer is pending exactly when the buffer holds a
    message, so no message waits without a timer. *)
Theorem buffer_delivers_every_message_in_order
    (size interval : Z) (calls : list BufferCall) :
  let b := history calls (create size interval) in
  concat (flushed b) ++ map fst (buffer b) = addedBy calls /\
  Forall (fun batch => batch <> [] /\
                       Z.of_nat (length batch) <= Z.max 1 size)
    (flushed b) /\
  (flushTimeout b = true <-> buffer b <> []) /\
  Z.of_nat (length (buffer b)) < Z.max 1 size /\
  buffer (destroy b) = [] /\
  concat (flushed (destroy b)) = addedBy calls.
Proof.
  intros b.
  destruct (delivering_history calls [] (create size interval)) as
      [(Hall & Hbatches & Htimer & Hlen) Hmax].
  { unfold delivering. simpl. repeat split; try done. lia. }
  fold b in Hall, Hbatches, Htimer, Hlen, Hmax. simpl in Hall, Hmax.
  rewrite Hmax in Hbatches, Hlen.
  split; [exact Hall|]. split; [exact Hbatches|]. split; [exact Htimer|].
  split; [exact Hlen|].
  unfold destroy, flush. destruct (buffer b) as [|m rest] eqn:Hb; simpl.
  - split; [exact Hb|]. by rewrite app_nil_r in Hall.
  - split; [reflexivity|]. rewrite concat_app. simpl.
    by rewrite app_nil_r.
Qed.

End MessageBufferFacts.
